(** * Chat front-end for model-serving endpoints: response normalisation

    A shallow embedding of [model_serving_utils.py] and [chat_service.py]:
    the task-type resolver, the request builder and response parser of the
    responses-agent protocol, the two streaming transports, the chunk
    reducer, the three streaming orchestrators with their fallback, and the
    feedback submitter.

    Python values that travel as dictionaries are JSON values; objects of
    the mlflow classes are records; exceptions are values of [exn] and a
    function that may raise returns a [result]; the calls of the render
    sink and of the two query functions are recorded in a trace. *)

From Stdlib Require Import String Ascii List ZArith Bool Lia DecimalString.
Import ListNotations.
Open Scope string_scope.
Set Warnings "-register-all".

(** ** Python values and the dynamic operations the code uses *)

Module Py.

(** What [json.loads] produces.  A dictionary keeps its keys, which are
    distinct, in insertion order; numbers are the integers (no claim
    depends on floats). *)
Inductive json : Type :=
| JNull
| JBool (b : bool)
| JNum (n : Z)
| JStr (s : string)
| JArr (xs : list json)
| JObj (kvs : list (string * json)).

(** The exceptions that the modelled code can meet.  All of them are
    subclasses of [Exception], which is what the [except] clauses catch. *)
Inductive exn : Type :=
| KeyError (k : string)
| TypeError
| AttributeError
| IndexError
| ValidationError
| UnicodeDecodeError
| UnexpectedEndpointFormat
| TransportError (msg : string).

Definition result (A : Type) : Type := (exn + A)%type.

Definition ret {A : Type} (a : A) : result A := inr a.

Definition raise {A : Type} (e : exn) : result A := inl e.

Definition bind {A B : Type} (r : result A) (k : A -> result B) : result B :=
  match r with
  | inl e => inl e
  | inr a => k a
  end.

(** [str(e)].  The model does not keep the message of a [TypeError], an
    [AttributeError] or a validation error; a fixed text stands for it. *)
Definition str_of_exn (e : exn) : string :=
  match e with
  | KeyError k => "'" ++ k ++ "'"
  | TypeError => "TypeError"
  | AttributeError => "AttributeError"
  | IndexError => "list index out of range"
  | ValidationError => "validation error"
  | UnicodeDecodeError => "invalid utf-8"
  | UnexpectedEndpointFormat =>
      "This app can only run against ChatModel, ChatAgent, or ResponsesAgent endpoints"
  | TransportError msg => msg
  end.

Definition nonempty (s : string) : bool :=
  match s with
  | EmptyString => false
  | String _ _ => true
  end.

(** Truth value of an optional string ([None] and [""] are false). *)
Definition truthy_str (o : option string) : bool :=
  match o with
  | Some s => nonempty s
  | None => false
  end.

(** Truth value of a JSON value. *)
Definition truthy (v : json) : bool :=
  match v with
  | JNull => false
  | JBool b => b
  | JNum n => negb (Z.eqb n 0)
  | JStr s => nonempty s
  | JArr xs => match xs with [] => false | _ :: _ => true end
  | JObj kvs => match kvs with [] => false | _ :: _ => true end
  end.

(** [v == "s"] for a string literal. *)
Definition is_str (v : json) (s : string) : bool :=
  match v with
  | JStr t => String.eqb t s
  | _ => false
  end.

Fixpoint lookup {V : Type} (k : string) (kvs : list (string * V)) : option V :=
  match kvs with
  | [] => None
  | (k', v) :: rest => if String.eqb k k' then Some v else lookup k rest
  end.

Fixpoint is_substring (needle hay : string) : bool :=
  if String.prefix needle hay then true
  else match hay with
       | EmptyString => false
       | String _ rest => is_substring needle rest
       end.

(** ["k" in v] *)
Definition contains (k : string) (v : json) : result bool :=
  match v with
  | JObj kvs => ret (match lookup k kvs with Some _ => true | None => false end)
  | JArr xs => ret (existsb (fun x => is_str x k) xs)
  | JStr s => ret (is_substring k s)
  | JNull | JBool _ | JNum _ => raise TypeError
  end.

(** [v["k"]] *)
Definition getitem (v : json) (k : string) : result json :=
  match v with
  | JObj kvs => match lookup k kvs with
                | Some x => ret x
                | None => raise (KeyError k)
                end
  | _ => raise TypeError
  end.

(** [v[0]] *)
Definition getitem0 (v : json) : result json :=
  match v with
  | JArr xs => match xs with
               | x :: _ => ret x
               | [] => raise IndexError
               end
  | JStr s => match s with
              | String c _ => ret (JStr (String c EmptyString))
              | EmptyString => raise IndexError
              end
  | JObj _ => raise (KeyError "0")
  | JNull | JBool _ | JNum _ => raise TypeError
  end.

(** [v.get("k", default)] *)
Definition get (v : json) (k : string) (default : json) : result json :=
  match v with
  | JObj kvs => ret (match lookup k kvs with
                     | Some x => x
                     | None => default
                     end)
  | _ => raise AttributeError
  end.

Fixpoint chars (s : string) : list json :=
  match s with
  | EmptyString => []
  | String c rest => JStr (String c EmptyString) :: chars rest
  end.

(** The elements that [for x in v] visits. *)
Definition iter (v : json) : result (list json) :=
  match v with
  | JArr xs => ret xs
  | JObj kvs => ret (map (fun kv => JStr (fst kv)) kvs)
  | JStr s => ret (chars s)
  | JNull | JBool _ | JNum _ => raise TypeError
  end.

(** [acc + v] (and [acc += v]) where [acc] is a string. *)
Definition str_add (acc : string) (v : json) : result string :=
  match v with
  | JStr s => ret (acc ++ s)
  | _ => raise TypeError
  end.

(** An optional string as a Python value. *)
Definition of_opt (o : option string) : json :=
  match o with
  | Some s => JStr s
  | None => JNull
  end.

End Py.

Export Py.

Notation "x <- c1 ;; c2" := (bind c1 (fun x => c2))
  (at level 61, c1 at next level, right associativity).

(** ** The mlflow chat-agent types and the chunk reducer *)

Module Agent.

(** [mlflow.types.chat.Function] *)
Record Function : Type := {
  fn_name : string;
  fn_arguments : string
}.

(** [mlflow.types.chat.ToolCall].  The reducer reads the attributes with
    [getattr] and a default, so an attribute may be absent ([None]). *)
Record ToolCall : Type := {
  tc_id : option string;
  tc_type : option string;
  tc_function : option Function
}.

(** [mlflow.types.agent.ChatAgentMessage]; a streamed delta has this type. *)
Record ChatAgentMessage : Type := {
  role : string;
  content : option string;
  name : option string;
  id : option string;
  tool_calls : option (list ToolCall);
  tool_call_id : option string;
  attachments : option (list (string * string))
}.

(** [mlflow.types.agent.ChatAgentChunk] (the fields the code reads). *)
Record ChatAgentChunk : Type := {
  delta : ChatAgentMessage
}.

(** [msg.model_copy(update={...})] for the three updated fields. *)
Definition set_tool_call_id (m : ChatAgentMessage) (v : string) : ChatAgentMessage :=
  {| role := role m; content := content m; name := name m; id := id m;
     tool_calls := tool_calls m; tool_call_id := Some v;
     attachments := attachments m |}.

Definition set_tool_calls (m : ChatAgentMessage) (v : list ToolCall) : ChatAgentMessage :=
  {| role := role m; content := content m; name := name m; id := id m;
     tool_calls := Some v; tool_call_id := tool_call_id m;
     attachments := attachments m |}.

Definition set_content (m : ChatAgentMessage) (v : string) : ChatAgentMessage :=
  {| role := role m; content := Some v; name := name m; id := id m;
     tool_calls := tool_calls m; tool_call_id := tool_call_id m;
     attachments := attachments m |}.

(** [tool_call_map]: a dictionary from call id to the accumulated call, in
    insertion order.  An entry is the dictionary
    [{"id", "type", "function": {"name", "arguments"}}]. *)
Definition tool_call_map : Type := list (string * ToolCall).

Definition new_entry (call_id tool_type func_name func_args : string) : ToolCall :=
  {| tc_id := Some call_id;
     tc_type := Some tool_type;
     tc_function := Some {| fn_name := func_name; fn_arguments := func_args |} |}.

Definition entry_name (e : ToolCall) : string :=
  match tc_function e with
  | Some f => fn_name f
  | None => ""
  end.

Definition entry_arguments (e : ToolCall) : string :=
  match tc_function e with
  | Some f => fn_arguments f
  | None => ""
  end.

(** The two assignments of the [else] branch, on the entry of [call_id]. *)
Definition accumulate_entry (func_name func_args : string) (e : ToolCall) : ToolCall :=
  {| tc_id := tc_id e;
     tc_type := tc_type e;
     tc_function :=
       Some {| fn_name := if nonempty func_name then func_name else entry_name e;
               fn_arguments := entry_arguments e ++ func_args |} |}.

(** In-place update of the value stored under [k] (the position is kept). *)
Fixpoint alter (f : ToolCall -> ToolCall) (k : string) (m : tool_call_map) : tool_call_map :=
  match m with
  | [] => []
  | (k', e) :: rest =>
      if String.eqb k k' then (k', f e) :: rest else (k', e) :: alter f k rest
  end.

(** The body of [for tool_call in delta.tool_calls]. *)
Definition accumulate_tool_call (m : tool_call_map) (tool_call : ToolCall) : tool_call_map :=
  let call_id := tc_id tool_call in
  let tool_type := match tc_type tool_call with Some t => t | None => "function" end in
  let func_name := match tc_function tool_call with Some f => fn_name f | None => "" end in
  let func_args := match tc_function tool_call with Some f => fn_arguments f | None => "" end in
  match call_id with
  | Some cid =>
      if nonempty cid then
        match lookup cid m with
        | None => (m ++ [(cid, new_entry cid tool_type func_name func_args)])%list
        | Some _ => alter (accumulate_entry func_name func_args) cid m
        end
      else m
  | None => m
  end.

(** The loop state of [reduce_chat_agent_chunks]. *)
Record reduce_state : Type := {
  result_msg : ChatAgentMessage;
  msg_contents : list string;
  call_map : tool_call_map
}.

(** The body of [for delta in deltas]. *)
Definition reduce_step (st : reduce_state) (d : ChatAgentMessage) : reduce_state :=
  let contents :=
    if truthy_str (content d)
    then (msg_contents st ++ [match content d with Some c => c | None => "" end])%list
    else msg_contents st in
  let m :=
    match tool_calls d with
    | Some (tc :: tcs) => fold_left accumulate_tool_call (tc :: tcs) (call_map st)
    | Some [] | None => call_map st
    end in
  let r :=
    if truthy_str (tool_call_id d)
    then set_tool_call_id (result_msg st)
           (match tool_call_id d with Some t => t | None => "" end)
    else result_msg st in
  {| result_msg := r; msg_contents := contents; call_map := m |}.

Definition reduce_loop (first_delta : ChatAgentMessage) (deltas : list ChatAgentMessage)
  : reduce_state :=
  fold_left reduce_step deltas
    {| result_msg := first_delta; msg_contents := []; call_map := [] |}.

(** [reduce_chat_agent_chunks(chunks)]; [deltas[0]] raises [IndexError] on
    an empty list. *)
Definition reduce_chat_agent_chunks (chunks : list ChatAgentChunk) : result ChatAgentMessage :=
  let deltas := map delta chunks in
  match deltas with
  | [] => raise IndexError
  | first_delta :: _ =>
      let st := reduce_loop first_delta deltas in
      let result_msg1 :=
        match call_map st with
        | [] => result_msg st
        | _ :: _ => set_tool_calls (result_msg st) (map snd (call_map st))
        end in
      ret (set_content result_msg1 (String.concat "" (msg_contents st)))
  end.

(** [msg.model_dump_compat(exclude_none=True)]: the fields that are not
    [None], in declaration order. *)
Definition dump_function (f : Function) : json :=
  JObj [("name", JStr (fn_name f)); ("arguments", JStr (fn_arguments f))].

Definition opt_field {A : Type} (k : string) (f : A -> json) (o : option A)
  : list (string * json) :=
  match o with
  | Some a => [(k, f a)]
  | None => []
  end.

Definition dump_tool_call (tc : ToolCall) : json :=
  JObj (opt_field "id" JStr (tc_id tc)
        ++ opt_field "type" JStr (tc_type tc)
        ++ opt_field "function" dump_function (tc_function tc))%list.

Definition dump_attachments (a : list (string * string)) : json :=
  JObj (map (fun kv => (fst kv, JStr (snd kv))) a).

Definition model_dump_compat (m : ChatAgentMessage) : json :=
  JObj ([("role", JStr (role m))]
        ++ opt_field "content" JStr (content m)
        ++ opt_field "name" JStr (name m)
        ++ opt_field "id" JStr (id m)
        ++ opt_field "tool_calls" (fun tcs => JArr (map dump_tool_call tcs)) (tool_calls m)
        ++ opt_field "tool_call_id" JStr (tool_call_id m)
        ++ opt_field "attachments" dump_attachments (attachments m))%list.

End Agent.

Export Agent.

(** ** model_serving_utils.py *)

Module Serving.

(** How a client authenticates: with the user's access token, or with the
    application's service principal. *)
Inductive credentials : Type :=
| UserToken (token : string)
| ServicePrincipal.

Record WorkspaceClient : Type := {
  client_auth : credentials;
  config_host : string
}.

(** Endpoint metadata (the attribute the code reads). *)
Record ServingEndpoint : Type := {
  task : option string
}.

(** A finite lazy sequence: the items it yields, then exhaustion ([None])
    or an exception raised while it is consumed. *)
Definition stream (A : Type) : Type := (list A * option exn)%type.

Definition yield {A : Type} (a : A) (s : stream A) : stream A :=
  (a :: fst s, snd s).

Definition failed {A : Type} (e : exn) : stream A := ([], Some e).

(** The response of [requests.post(..., stream=True)]. *)
Record Response : Type := {
  raise_for_status : option exn;
  iter_lines : stream string
}.

(** Everything outside the repository that the code calls: the Databricks
    SDK, the MLflow deployment client, [requests], [json], [uuid] and the
    pydantic validators of the mlflow types. *)
Record World : Type := {
  new_workspace_client : credentials -> result WorkspaceClient;
  serving_endpoints_get : WorkspaceClient -> string -> result ServingEndpoint;
  api_client_do : WorkspaceClient -> string -> json -> result json;
  api_client_do_stream : WorkspaceClient -> string -> json -> stream json;
  requests_post : string -> json -> string -> result Response;
  predict : string -> json -> result json;
  predict_stream : string -> json -> stream json;
  decode_utf8 : string -> result string;
  (** [json.loads]; [None] stands for [JSONDecodeError] *)
  json_loads : string -> option json;
  json_dumps : json -> string;
  (** the string of the k-th [uuid.uuid4()] drawn during one conversion *)
  uuid4 : nat -> string;
  ChatAgentChunk_model_validate : json -> result ChatAgentChunk;
  (** [ResponsesAgentStreamEvent.model_validate], then the [item]
      attribute of the event ([None] when the event has none) *)
  ResponsesAgentStreamEvent_model_validate : json -> result (option json)
}.

Definition try_except {A : Type} (body : result A) (handler : exn -> result A) : result A :=
  match body with
  | inl e => handler e
  | inr a => inr a
  end.

Definition _get_workspace_client_with_token (W : World) (user_token : option string)
  : result WorkspaceClient :=
  match user_token with
  | Some t => if nonempty t then new_workspace_client W (UserToken t)
              else new_workspace_client W ServicePrincipal
  | None => new_workspace_client W ServicePrincipal
  end.

Definition _get_endpoint_task_type (W : World) (endpoint_name : string)
    (user_token : option string) : result string :=
  try_except
    (w <- _get_workspace_client_with_token W user_token ;;
     ep <- serving_endpoints_get W w endpoint_name ;;
     ret (match task ep with
          | Some t => if nonempty t then t else "chat/completions"
          | None => "chat/completions"
          end))
    (fun _ => ret "chat/completions").

(** One [function_call] item of the request, from one tool call. *)
Definition function_call_item (tool_call : json) : result json :=
  i <- getitem tool_call "id" ;;
  i' <- getitem tool_call "id" ;;
  f <- getitem tool_call "function" ;;
  n <- getitem f "name" ;;
  f' <- getitem tool_call "function" ;;
  a <- getitem f' "arguments" ;;
  ret (JObj [("type", JStr "function_call"); ("id", i); ("call_id", i');
             ("name", n); ("arguments", a)]).

Fixpoint function_call_items (tool_calls : list json) : result (list json) :=
  match tool_calls with
  | [] => ret []
  | tc :: rest =>
      it <- function_call_item tc ;;
      its <- function_call_items rest ;;
      ret (it :: its)
  end.

(** The [message] item of the request; [msg.get("id", str(uuid.uuid4()))]
    draws a uuid whether or not the message has an id. *)
Definition message_item (W : World) (k : nat) (msg : json) : result json :=
  i <- get msg "id" (JStr (uuid4 W k)) ;;
  c <- getitem msg "content" ;;
  ret (JObj [("type", JStr "message"); ("id", i);
             ("content", JArr [JObj [("type", JStr "output_text"); ("text", c)]]);
             ("role", JStr "assistant")]).

(** The items appended for one message, and the number of uuids drawn. *)
Definition convert_message (W : World) (k : nat) (msg : json) : result (list json * nat) :=
  r <- getitem msg "role" ;;
  if is_str r "user" then
    c <- getitem msg "content" ;;
    ret ([JObj [("role", JStr "user"); ("content", c)]], k)
  else if is_str r "assistant" then
    tcs <- get msg "tool_calls" JNull ;;
    if truthy tcs then
      tcs' <- getitem msg "tool_calls" ;;
      calls <- iter tcs' ;;
      fcs <- function_call_items calls ;;
      c <- get msg "content" JNull ;;
      if truthy c then
        m <- message_item W k msg ;;
        ret ((fcs ++ [m])%list, S k)
      else ret (fcs, k)
    else
      m <- message_item W k msg ;;
      ret ([m], S k)
  else if is_str r "tool" then
    cid <- get msg "tool_call_id" JNull ;;
    c <- getitem msg "content" ;;
    ret ([JObj [("type", JStr "function_call_output"); ("call_id", cid); ("output", c)]], k)
  else ret ([], k).

Fixpoint convert_from (W : World) (k : nat) (messages : list json) : result (list json) :=
  match messages with
  | [] => ret []
  | msg :: rest =>
      r <- convert_message W k msg ;;
      its <- convert_from W (snd r) rest ;;
      ret (fst r ++ its)%list
  end.

Definition _convert_to_responses_format (W : World) (messages : list json)
  : result (list json) :=
  convert_from W 0 messages.

Definition _throw_unexpected_endpoint_format {A : Type} : result A :=
  raise UnexpectedEndpointFormat.

Definition return_trace_option (return_traces : bool) : list (string * json) :=
  if return_traces
  then [("databricks_options", JObj [("return_trace", JBool true)])]
  else [].

Definition invocations_path (endpoint_name : string) : string :=
  "/serving-endpoints/" ++ endpoint_name ++ "/invocations".

Fixpoint rstrip_slash (s : string) : string :=
  match s with
  | EmptyString => EmptyString
  | String c rest =>
      match rstrip_slash rest with
      | EmptyString => if Ascii.eqb c "/" then EmptyString else String c EmptyString
      | r => String c r
      end
  end.

Definition is_space (c : ascii) : bool :=
  let n := nat_of_ascii c in
  (Nat.leb 9 n && Nat.leb n 13) || (Nat.leb 28 n && Nat.leb n 32).

(** [not line_str.strip()] (on the ASCII white space). *)
Fixpoint blank (s : string) : bool :=
  match s with
  | EmptyString => true
  | String c rest => is_space c && blank rest
  end.

Definition strip_data_prefix (line_str : string) : string :=
  if String.prefix "data: " line_str
  then String.substring 6 (String.length line_str - 6) line_str
  else line_str.

(** The loop over [response.iter_lines()] on the user-token path: a chunk
    is yielded when it has a [choices] or a [delta] key; there is no
    [else] branch, and only [JSONDecodeError] is caught. *)
Fixpoint parse_lines (W : World) (lines : list string) (ending : option exn) : stream json :=
  match lines with
  | [] => ([], ending)
  | line :: rest =>
      if nonempty line then
        match decode_utf8 W line with
        | inl e => failed e
        | inr decoded =>
            let line_str := strip_data_prefix decoded in
            if blank line_str then parse_lines W rest ending
            else
              match json_loads W line_str with
              | None => parse_lines W rest ending
              | Some chunk =>
                  match contains "choices" chunk with
                  | inl e => failed e
                  | inr true => yield chunk (parse_lines W rest ending)
                  | inr false =>
                      match contains "delta" chunk with
                      | inl e => failed e
                      | inr true => yield chunk (parse_lines W rest ending)
                      | inr false => parse_lines W rest ending
                      end
                  end
              end
        end
      else parse_lines W rest ending
  end.

(** The loop over [client.predict_stream(...)] on the service-principal
    path: the [else] branch raises. *)
Fixpoint check_chunks (chunks : list json) (ending : option exn) : stream json :=
  match chunks with
  | [] => ([], ending)
  | chunk :: rest =>
      match contains "choices" chunk with
      | inl e => failed e
      | inr true => yield chunk (check_chunks rest ending)
      | inr false =>
          match contains "delta" chunk with
          | inl e => failed e
          | inr true => yield chunk (check_chunks rest ending)
          | inr false => failed UnexpectedEndpointFormat
          end
      end
  end.

Definition _query_chat_endpoint_stream (W : World) (endpoint_name : string)
    (messages : list json) (return_traces : bool) (user_token : option string)
  : stream json :=
  let inputs := JObj ([("messages", JArr messages)] ++ return_trace_option return_traces)%list in
  match user_token with
  | Some t =>
      if nonempty t then
        match _get_workspace_client_with_token W user_token with
        | inl e => failed e
        | inr w =>
            let host := rstrip_slash (config_host w) in
            match requests_post W (host ++ invocations_path endpoint_name) inputs t with
            | inl e => failed e
            | inr response =>
                match raise_for_status response with
                | Some e => failed e
                | None => parse_lines W (fst (iter_lines response)) (snd (iter_lines response))
                end
            end
        end
      else check_chunks (fst (predict_stream W endpoint_name inputs))
                        (snd (predict_stream W endpoint_name inputs))
  | None => check_chunks (fst (predict_stream W endpoint_name inputs))
                         (snd (predict_stream W endpoint_name inputs))
  end.

Definition _query_responses_endpoint_stream (W : World) (endpoint_name : string)
    (messages : list json) (return_traces : bool) (user_token : option string)
  : stream json :=
  match _convert_to_responses_format W messages with
  | inl e => failed e
  | inr input_messages =>
      let inputs :=
        JObj ([("input", JArr input_messages); ("context", JObj []);
               ("stream", JBool true)] ++ return_trace_option return_traces)%list in
      if truthy_str user_token then
        match _get_workspace_client_with_token W user_token with
        | inl e => failed e
        | inr w => api_client_do_stream W w (invocations_path endpoint_name) inputs
        end
      else predict_stream W endpoint_name inputs
  end.

Definition query_endpoint_stream (W : World) (endpoint_name : string)
    (messages : list json) (return_traces : bool) (user_token : option string)
  : stream json :=
  match _get_endpoint_task_type W endpoint_name user_token with
  | inl e => failed e
  | inr task_type =>
      if String.eqb task_type "agent/v1/responses"
      then _query_responses_endpoint_stream W endpoint_name messages return_traces user_token
      else _query_chat_endpoint_stream W endpoint_name messages return_traces user_token
  end.

(** The non-streaming call: the user's client or the deployment client. *)
Definition invoke (W : World) (endpoint_name : string) (inputs : json)
    (user_token : option string) : result json :=
  if truthy_str user_token then
    w <- _get_workspace_client_with_token W user_token ;;
    api_client_do W w (invocations_path endpoint_name) inputs
  else predict W endpoint_name inputs.

(** [res.get("databricks_output", {}).get("databricks_request_id")] *)
Definition databricks_request_id (res : json) : result json :=
  d <- get res "databricks_output" (JObj []) ;;
  get d "databricks_request_id" JNull.

(** [[part.get("text", "") for part in parts if part.get("type") == "text"]] *)
Fixpoint text_parts (parts : list json) : result (list json) :=
  match parts with
  | [] => ret []
  | part :: rest =>
      t <- get part "type" JNull ;;
      if is_str t "text" then
        x <- get part "text" (JStr "") ;;
        xs <- text_parts rest ;;
        ret (x :: xs)
      else text_parts rest
  end.

(** ["".join(xs)] *)
Fixpoint join (xs : list json) : result string :=
  match xs with
  | [] => ret ""
  | x :: rest =>
      match x with
      | JStr s => r <- join rest ;; ret (s ++ r)
      | _ => raise TypeError
      end
  end.

Definition _query_chat_endpoint (W : World) (endpoint_name : string)
    (messages : list json) (return_traces : bool) (user_token : option string)
  : result (json * json) :=
  let inputs := JObj ([("messages", JArr messages)] ++ return_trace_option return_traces)%list in
  res <- invoke W endpoint_name inputs user_token ;;
  request_id <- databricks_request_id res ;;
  has_messages <- contains "messages" res ;;
  if has_messages then
    m <- getitem res "messages" ;;
    ret (m, request_id)
  else
    has_choices <- contains "choices" res ;;
    if has_choices then
      choices <- getitem res "choices" ;;
      choice <- getitem0 choices ;;
      choice_message <- getitem choice "message" ;;
      choice_content <- get choice_message "content" JNull ;;
      match choice_content with
      | JArr parts =>
          texts <- text_parts parts ;;
          combined_content <- join texts ;;
          r <- get choice_message "role" JNull ;;
          ret (JArr [JObj [("role", r); ("content", JStr combined_content)]], request_id)
      | JStr _ => ret (JArr [choice_message], request_id)
      | _ => _throw_unexpected_endpoint_format
      end
    else _throw_unexpected_endpoint_format.

(** The inner loop over the content parts of a [message] item. *)
Fixpoint output_text (text_content : string) (content_parts : list json) : result string :=
  match content_parts with
  | [] => ret text_content
  | content_part :: rest =>
      t <- get content_part "type" JNull ;;
      if is_str t "output_text" then
        x <- get content_part "text" (JStr "") ;;
        text_content' <- str_add text_content x ;;
        output_text text_content' rest
      else output_text text_content rest
  end.

(** The messages that one output item appends to [result_messages]. *)
Definition item_messages (item : json) : result (list json) :=
  item_type <- get item "type" JNull ;;
  if is_str item_type "message" then
    content <- get item "content" (JArr []) ;;
    content_parts <- iter content ;;
    text_content <- output_text "" content_parts ;;
    if nonempty text_content
    then ret [JObj [("role", JStr "assistant"); ("content", JStr text_content)]]
    else ret []
  else if is_str item_type "function_call" then
    call_id <- get item "call_id" JNull ;;
    function_name <- get item "name" JNull ;;
    arguments <- get item "arguments" (JStr "") ;;
    ret [JObj [("role", JStr "assistant"); ("content", JStr "");
               ("tool_calls",
                JArr [JObj [("id", call_id); ("type", JStr "function");
                            ("function", JObj [("name", function_name);
                                               ("arguments", arguments)])]])]]
  else if is_str item_type "function_call_output" then
    call_id <- get item "call_id" JNull ;;
    output_content <- get item "output" (JStr "") ;;
    ret [JObj [("role", JStr "tool"); ("content", output_content);
               ("tool_call_id", call_id)]]
  else ret [].

Fixpoint output_messages (output_items : list json) : result (list json) :=
  match output_items with
  | [] => ret []
  | item :: rest =>
      ms <- item_messages item ;;
      ms' <- output_messages rest ;;
      ret (ms ++ ms')%list
  end.

Definition no_response_found : list json :=
  [JObj [("role", JStr "assistant"); ("content", JStr "No response found")]].

(** Lines 357-413 of [_query_responses_endpoint]: from the response to the
    returned pair. *)
Definition parse_responses_output (response : json) : result (list json * json) :=
  request_id <- databricks_request_id response ;;
  output <- get response "output" (JArr []) ;;
  output_items <- iter output ;;
  result_messages <- output_messages output_items ;;
  ret (match result_messages with
       | [] => no_response_found
       | _ :: _ => result_messages
       end, request_id).

Definition _query_responses_endpoint (W : World) (endpoint_name : string)
    (messages : list json) (return_traces : bool) (user_token : option string)
  : result (list json * json) :=
  input_messages <- _convert_to_responses_format W messages ;;
  let inputs :=
    JObj ([("input", JArr input_messages); ("context", JObj [])]
          ++ return_trace_option return_traces)%list in
  response <- invoke W endpoint_name inputs user_token ;;
  parse_responses_output response.

Definition query_endpoint (W : World) (endpoint_name : string)
    (messages : list json) (return_traces : bool) (user_token : option string)
  : result (json * json) :=
  task_type <- _get_endpoint_task_type W endpoint_name user_token ;;
  if String.eqb task_type "agent/v1/responses" then
    r <- _query_responses_endpoint W endpoint_name messages return_traces user_token ;;
    ret (JArr (fst r), snd r)
  else _query_chat_endpoint W endpoint_name messages return_traces user_token.

(** The rating that the thumbs widget reports: [None], [0] or [1]. *)
Definition rating_string (rating : option Z) : string :=
  match rating with
  | Some r => if Z.eqb r 1 then "positive" else "negative"
  | None => "negative"
  end.

Definition text_assessments (rating : option Z) : list json :=
  match rating with
  | None => []
  | Some _ =>
      [JObj [("ratings",
              JObj [("answer_correct", JObj [("value", JStr (rating_string rating))])]);
             ("free_text_comment", JNull)]]
  end.

Definition proxy_payload (W : World) (request_id : json) (rating : option Z) : json :=
  JObj [("dataframe_records",
         JArr [JObj [("source",
                      JStr (json_dumps W (JObj [("id", JStr "e2e-chatbot-app");
                                                ("type", JStr "human")])));
                     ("request_id", request_id);
                     ("text_assessments",
                      JStr (json_dumps W (JArr (text_assessments rating))));
                     ("retrieval_assessments", JStr (json_dumps W (JArr [])))]])].

Definition feedback_path (endpoint : string) : string :=
  "/serving-endpoints/" ++ endpoint ++ "/served-models/feedback/invocations".

Definition submit_feedback (W : World) (endpoint : string) (request_id : json)
    (rating : option Z) (user_token : option string) : result json :=
  w <- _get_workspace_client_with_token W user_token ;;
  api_client_do W w (feedback_path endpoint) (proxy_payload W request_id rating).

End Serving.

Export Serving.

(** ** chat_service.py *)

Module Chat.

Inductive phase : Type := Start | Chunk | Error | Complete.

(** What an execution does that its caller can observe: a call of the
    render sink, and the two calls into [model_serving_utils] with the
    arguments they were given. *)
Inductive event : Type :=
| Render (p : phase) (data : json)
| StreamCall (endpoint_name : string) (messages : list json)
             (return_traces : bool) (user_token : option string)
| QueryCall (endpoint_name : string) (messages : list json)
            (return_traces : bool) (user_token : option string).

(** [messages.AssistantResponse] *)
Record AssistantResponse : Type := {
  messages : json;
  request_id : json;
  user_token : option string
}.

Record ChatService : Type := {
  endpoint_name : string;
  supports_feedback : bool
}.

(** A computation that leaves a trace of events and returns or raises. *)
Definition io (A : Type) : Type := (list event * result A)%type.

Definition io_ret {A : Type} (a : A) : io A := ([], inr a).

Definition io_bind {A B : Type} (c : io A) (k : A -> io B) : io B :=
  match snd c with
  | inl e => (fst c, inl e)
  | inr a => ((fst c ++ fst (k a))%list, snd (k a))
  end.

Definition lift {A : Type} (r : result A) : io A := ([], r).

Definition emit (ev : event) : io unit := ([ev], inr tt).

(** [try: body  except Exception as e: handler(e)] *)
Definition io_try {A : Type} (body : io A) (handler : exn -> io A) : io A :=
  match snd body with
  | inl e => ((fst body ++ fst (handler e))%list, snd (handler e))
  | inr a => (fst body, inr a)
  end.

End Chat.

Export Chat.

Notation "x <~ c1 ;; c2" := (io_bind c1 (fun x => c2))
  (at level 61, c1 at next level, right associativity).

Module Service.

(** [if render_callback: render_callback(phase, data)]; the flag says
    whether the caller supplied a sink. *)
Definition notify (render_callback : bool) (p : phase) (data : json) : io unit :=
  if render_callback then emit (Render p data) else io_ret tt.

(** [for x in s: st = body(st, x)] over a stream that may raise. *)
Fixpoint for_each {S A : Type} (body : S -> A -> io S) (st : S)
    (items : list A) (ending : option exn) : io S :=
  match items with
  | [] => match ending with
          | None => io_ret st
          | Some e => lift (raise e)
          end
  | x :: rest => st' <~ body st x ;; for_each body st' rest ending
  end.

Definition call_query_endpoint_stream (W : World) (endpoint_name : string)
    (messages : list json) (return_traces : bool) (user_token : option string)
  : io (stream json) :=
  _ <~ emit (StreamCall endpoint_name messages return_traces user_token) ;;
  io_ret (query_endpoint_stream W endpoint_name messages return_traces user_token).

Definition call_query_endpoint (W : World) (endpoint_name : string)
    (messages : list json) (return_traces : bool) (user_token : option string)
  : io (json * json) :=
  _ <~ emit (QueryCall endpoint_name messages return_traces user_token) ;;
  lift (query_endpoint W endpoint_name messages return_traces user_token).

(** The [databricks_output] block of the chat-completions and responses
    loops. *)
Definition update_request_id (request_id : json) (chunk : json) : result json :=
  has_output <- contains "databricks_output" chunk ;;
  if has_output then
    d <- getitem chunk "databricks_output" ;;
    req_id <- get d "databricks_request_id" JNull ;;
    ret (if truthy req_id then req_id else request_id)
  else ret request_id.

(** *** Chat completions *)

(** The loop body of [_query_chat_completions_endpoint]; the state is
    [(accumulated_content, request_id)]. *)
Definition completions_step (render_callback : bool) (st : string * json) (chunk : json)
  : io (string * json) :=
  has_choices <~ lift (contains "choices" chunk) ;;
  some_choices <~ lift (if has_choices : bool
                        then c <- getitem chunk "choices" ;; ret (truthy c)
                        else ret false) ;;
  accumulated_content <~
    (if some_choices : bool then
       content <~ lift (choices <- getitem chunk "choices" ;;
                        choice <- getitem0 choices ;;
                        d <- get choice "delta" (JObj []) ;;
                        get d "content" (JStr "")) ;;
       if truthy content then
         acc <~ lift (str_add (fst st) content) ;;
         _ <~ notify render_callback Chunk (JStr acc) ;;
         io_ret acc
       else io_ret (fst st)
     else io_ret (fst st)) ;;
  request_id <~ lift (update_request_id (snd st) chunk) ;;
  io_ret (accumulated_content, request_id).

Definition _query_chat_completions_endpoint (W : World) (self : ChatService)
    (input_messages : list json) (render_callback : bool) (user_token : option string)
  : io AssistantResponse :=
  _ <~ notify render_callback Start JNull ;;
  io_try
    (s <~ call_query_endpoint_stream W (endpoint_name self) input_messages
            (supports_feedback self) user_token ;;
     st <~ for_each (completions_step render_callback) ("", JNull) (fst s) (snd s) ;;
     let messages := JArr [JObj [("role", JStr "assistant"); ("content", JStr (fst st))]] in
     _ <~ notify render_callback Complete messages ;;
     io_ret {| messages := messages; request_id := snd st; user_token := user_token |})
    (fun e =>
       _ <~ notify render_callback Error (JStr (str_of_exn e)) ;;
       r <~ call_query_endpoint W (endpoint_name self) input_messages
              (supports_feedback self) None ;;
       _ <~ notify render_callback Complete (fst r) ;;
       io_ret {| messages := fst r; request_id := snd r; user_token := None |}).

(** *** Chat agent *)

Definition opt_eqb (a b : option string) : bool :=
  match a, b with
  | Some x, Some y => String.eqb x y
  | None, None => true
  | _, _ => false
  end.

(** [message_buffers]: an [OrderedDict] from message id to its chunks. *)
Definition message_buffers : Type := list (option string * list ChatAgentChunk).

(** [if message_id not in message_buffers: message_buffers[message_id] = []]
    followed by [message_buffers[message_id].append(chunk)]. *)
Fixpoint buffer_append (message_id : option string) (chunk : ChatAgentChunk)
    (buffers : message_buffers) : message_buffers :=
  match buffers with
  | [] => [(message_id, [chunk])]
  | (k, chunks) :: rest =>
      if opt_eqb message_id k then (k, (chunks ++ [chunk])%list) :: rest
      else (k, chunks) :: buffer_append message_id chunk rest
  end.

(** [message_buffers[message_id]] *)
Fixpoint buffer_get (message_id : option string) (buffers : message_buffers)
  : list ChatAgentChunk :=
  match buffers with
  | [] => []
  | (k, chunks) :: rest =>
      if opt_eqb message_id k then chunks else buffer_get message_id rest
  end.

(** [[reduce_chat_agent_chunks(chunks).model_dump_compat(exclude_none=True)
      for chunks in message_buffers.values()]] *)
Fixpoint reduce_all (buffers : message_buffers) : result (list json) :=
  match buffers with
  | [] => ret []
  | (_, chunks) :: rest =>
      m <- reduce_chat_agent_chunks chunks ;;
      ms <- reduce_all rest ;;
      ret (model_dump_compat m :: ms)
  end.

(** The loop body of [_query_chat_agent_endpoint]; the state is
    [(message_buffers, request_id)]. *)
Definition agent_step (W : World) (render_callback : bool)
    (st : message_buffers * json) (raw_chunk : json) : io (message_buffers * json) :=
  chunk <~ lift (ChatAgentChunk_model_validate W raw_chunk) ;;
  let message_id := id (delta chunk) in
  req_id <~ lift (databricks_request_id raw_chunk) ;;
  let request_id := if truthy req_id then req_id else snd st in
  let buffers := buffer_append message_id chunk (fst st) in
  partial_message <~ lift (reduce_chat_agent_chunks (buffer_get message_id buffers)) ;;
  let message_content := model_dump_compat partial_message in
  _ <~ (if render_callback then
          all_messages <~ lift (reduce_all buffers) ;;
          emit (Render Chunk (JObj [("message_id", of_opt message_id);
                                    ("message", message_content);
                                    ("all_messages", JArr all_messages)]))
        else io_ret tt) ;;
  io_ret (buffers, request_id).

Definition _query_chat_agent_endpoint (W : World) (self : ChatService)
    (input_messages : list json) (render_callback : bool) (user_token : option string)
  : io AssistantResponse :=
  _ <~ notify render_callback Start JNull ;;
  io_try
    (s <~ call_query_endpoint_stream W (endpoint_name self) input_messages
            (supports_feedback self) user_token ;;
     st <~ for_each (agent_step W render_callback) ([], JNull) (fst s) (snd s) ;;
     messages <~ lift (reduce_all (fst st)) ;;
     _ <~ notify render_callback Complete (JArr messages) ;;
     io_ret {| messages := JArr messages; request_id := snd st; user_token := user_token |})
    (fun e =>
       _ <~ notify render_callback Error (JStr (str_of_exn e)) ;;
       r <~ call_query_endpoint W (endpoint_name self) input_messages
              (supports_feedback self) user_token ;;
       _ <~ notify render_callback Complete (fst r) ;;
       io_ret {| messages := fst r; request_id := snd r; user_token := None |}).

(** *** Responses agent *)

(** The loop over the content parts of a streamed [message] item: every
    [output_text] part with a non-empty text appends a message. *)
Fixpoint streamed_text_messages (content_parts : list json) : result (list json) :=
  match content_parts with
  | [] => ret []
  | content_part :: rest =>
      t <- get content_part "type" JNull ;;
      if is_str t "output_text" then
        text <- get content_part "text" (JStr "") ;;
        ms <- streamed_text_messages rest ;;
        ret (if truthy text
             then JObj [("role", JStr "assistant"); ("content", text)] :: ms
             else ms)
      else streamed_text_messages rest
  end.

(** The messages that one streamed item appends to [all_messages]. *)
Definition streamed_item_messages (item : json) : result (list json) :=
  item_type <- get item "type" JNull ;;
  if is_str item_type "message" then
    content <- get item "content" (JArr []) ;;
    content_parts <- iter content ;;
    streamed_text_messages content_parts
  else if is_str item_type "function_call" then
    call_id <- get item "call_id" JNull ;;
    function_name <- get item "name" JNull ;;
    arguments <- get item "arguments" (JStr "") ;;
    ret [JObj [("role", JStr "assistant"); ("content", JStr "");
               ("tool_calls",
                JArr [JObj [("id", call_id); ("type", JStr "function");
                            ("function", JObj [("name", function_name);
                                               ("arguments", arguments)])]])]]
  else if is_str item_type "function_call_output" then
    call_id <- get item "call_id" JNull ;;
    output <- get item "output" (JStr "") ;;
    ret [JObj [("role", JStr "tool"); ("content", output); ("tool_call_id", call_id)]]
  else ret [].

(** The messages that one raw event appends. *)
Definition event_messages (W : World) (raw_event : json) : result (list json) :=
  has_type <- contains "type" raw_event ;;
  if has_type then
    event_item <- ResponsesAgentStreamEvent_model_validate W raw_event ;;
    match event_item with
    | Some item => if truthy item then streamed_item_messages item else ret []
    | None => ret []
    end
  else ret [].

(** The loop body of [_query_responses_endpoint]; the state is
    [(all_messages, request_id)]. *)
Definition responses_step (W : World) (render_callback : bool)
    (st : list json * json) (raw_event : json) : io (list json * json) :=
  request_id <~ lift (update_request_id (snd st) raw_event) ;;
  new_messages <~ lift (event_messages W raw_event) ;;
  let all_messages := (fst st ++ new_messages)%list in
  _ <~ (match all_messages with
        | [] => io_ret tt
        | _ :: _ => notify render_callback Chunk (JArr all_messages)
        end) ;;
  io_ret (all_messages, request_id).

Definition _query_responses_endpoint (W : World) (self : ChatService)
    (input_messages : list json) (render_callback : bool) (user_token : option string)
  : io AssistantResponse :=
  _ <~ notify render_callback Start JNull ;;
  io_try
    (s <~ call_query_endpoint_stream W (endpoint_name self) input_messages
            (supports_feedback self) user_token ;;
     st <~ for_each (responses_step W render_callback) ([], JNull) (fst s) (snd s) ;;
     _ <~ notify render_callback Complete (JArr (fst st)) ;;
     io_ret {| messages := JArr (fst st); request_id := snd st; user_token := None |})
    (fun e =>
       _ <~ notify render_callback Error (JStr (str_of_exn e)) ;;
       r <~ call_query_endpoint W (endpoint_name self) input_messages
              (supports_feedback self) user_token ;;
       _ <~ notify render_callback Complete (fst r) ;;
       io_ret {| messages := fst r; request_id := snd r; user_token := None |}).

Definition get_task_type (W : World) (self : ChatService) (user_token : option string)
  : result string :=
  _get_endpoint_task_type W (endpoint_name self) user_token.

Definition query_and_process (W : World) (self : ChatService) (task_type : string)
    (input_messages : list json) (render_callback : bool) (user_token : option string)
  : io AssistantResponse :=
  if String.eqb task_type "agent/v1/responses" then
    _query_responses_endpoint W self input_messages render_callback user_token
  else if String.eqb task_type "agent/v2/chat" then
    _query_chat_agent_endpoint W self input_messages render_callback user_token
  else
    _query_chat_completions_endpoint W self input_messages render_callback user_token.

End Service.

Export Service.

(** ** The properties of the specification, stated over the records *)

Module Spec.

(** [s] is a prefix of [t]. *)
Definition str_prefix (s t : string) : Prop := exists u, t = s ++ u.

(** The elements of [l] in the order of their first appearance. *)
Fixpoint first_seen {A : Type} (eqb : A -> A -> bool) (l : list A) : list A :=
  match l with
  | [] => []
  | x :: rest => x :: filter (fun y => negb (eqb y x)) (first_seen eqb rest)
  end.

Definition content_str (m : ChatAgentMessage) : string :=
  match content m with
  | Some c => c
  | None => ""
  end.

Definition message_tool_calls (m : ChatAgentMessage) : list ToolCall :=
  match tool_calls m with
  | Some tcs => tcs
  | None => []
  end.

(** The tool call [tc] is still reported by [m'], with the same call id
    and with arguments that extend those of [tc]. *)
Definition call_kept (tc : ToolCall) (m' : ChatAgentMessage) : Prop :=
  exists tc', In tc' (message_tool_calls m')
              /\ tc_id tc' = tc_id tc
              /\ str_prefix (entry_arguments tc) (entry_arguments tc').

(** Nothing reported by [m] has to be undone to show [m']: every tool
    call of [m] is kept. *)
Definition never_undone (m m' : ChatAgentMessage) : Prop :=
  str_prefix (content_str m) (content_str m')
  /\ forall tc, In tc (message_tool_calls m) -> call_kept tc m'.

(** The same for the tool calls that carry a non-empty call id. *)
Definition never_undone_identified (m m' : ChatAgentMessage) : Prop :=
  str_prefix (content_str m) (content_str m')
  /\ forall tc, In tc (message_tool_calls m) ->
                truthy_str (tc_id tc) = true -> call_kept tc m'.

(** *** Tool-call accumulation, in the words of section 4.3 *)

Definition delta_tool_calls (d : ChatAgentMessage) : list ToolCall :=
  match tool_calls d with
  | Some tcs => tcs
  | None => []
  end.

Definition call_id_of (tc : ToolCall) : string :=
  match tc_id tc with
  | Some s => s
  | None => ""
  end.

Definition sighted_type (tc : ToolCall) : string :=
  match tc_type tc with
  | Some t => t
  | None => "function"
  end.

(** The tool-call fragments that carry a non-empty call id, in arrival
    order; a fragment whose id is empty or absent is left out, as the
    reducer's guard [if call_id:] leaves it out. *)
Definition sightings (deltas : list ChatAgentMessage) : list ToolCall :=
  filter (fun tc => truthy_str (tc_id tc)) (flat_map delta_tool_calls deltas).

Definition sightings_of (cid : string) (S : list ToolCall) : list ToolCall :=
  filter (fun tc => String.eqb (call_id_of tc) cid) S.

(** The name after the later sightings: a non-empty name overwrites. *)
Definition resolve_name (first : string) (later : list ToolCall) : string :=
  fold_left (fun n tc => if nonempty (entry_name tc) then entry_name tc else n)
            later first.

(** The call that the sightings of [cid] fold to: name and type of the
    first sighting, the name overwritten by later non-empty names, the
    arguments of all sightings appended in order. *)
Definition folded_call (cid : string) (S : list ToolCall) : ToolCall :=
  match sightings_of cid S with
  | [] => new_entry cid "function" "" ""
  | first :: later =>
      new_entry cid (sighted_type first)
        (resolve_name (entry_name first) later)
        (String.concat "" (map entry_arguments (first :: later)))
  end.

(** One call per id, in first-sighting order. *)
Definition folded_calls (S : list ToolCall) : list ToolCall :=
  map (fun cid => folded_call cid S) (first_seen String.eqb (map call_id_of S)).

(** The same calls, keyed by their id. *)
Definition folded_map (S : list ToolCall) : tool_call_map :=
  map (fun cid => (cid, folded_call cid S)) (first_seen String.eqb (map call_id_of S)).

(** The non-empty content strings of the fragments, in arrival order. *)
Definition spoken (deltas : list ChatAgentMessage) : list string :=
  flat_map (fun d => match content d with
                     | Some c => if nonempty c then [c] else []
                     | None => []
                     end) deltas.

(** *** Folding interleaved message identities, in the words of section 4.2 *)

Definition chunk_id (c : ChatAgentChunk) : option string := id (delta c).

(** One buffer per identity, in order of first appearance, holding the
    chunks of that identity in arrival order. *)
Definition group_by_identity (cs : list ChatAgentChunk) : message_buffers :=
  map (fun mid => (mid, filter (fun c => opt_eqb (chunk_id c) mid) cs))
      (first_seen opt_eqb (map chunk_id cs)).

(** The reduced message of every identity, in order of first appearance. *)
Definition identity_view (cs : list ChatAgentChunk) : list json :=
  map (fun b => match reduce_chat_agent_chunks (snd b) with
                | inr m => model_dump_compat m
                | inl _ => JNull
                end)
      (group_by_identity cs).

(** The data of the [chunk] phase after the last chunk of [cs]. *)
Definition chunk_view (cs : list ChatAgentChunk) : json :=
  let mid := match rev cs with c :: _ => chunk_id c | [] => None end in
  JObj [("message_id", of_opt mid);
        ("message",
         match reduce_chat_agent_chunks (filter (fun c => opt_eqb (chunk_id c) mid) cs) with
         | inr m => model_dump_compat m
         | inl _ => JNull
         end);
        ("all_messages", JArr (identity_view cs))].

(** Two messages carry the same role, content and tool calls. *)
Definition same_structure (a b : json) : Prop :=
  get a "role" JNull = get b "role" JNull
  /\ get a "content" JNull = get b "content" JNull
  /\ get a "tool_calls" JNull = get b "tool_calls" JNull.

(** The credential that the fallback of a task type hands to
    [query_endpoint]. *)
Definition fallback_token (task_type : string) (user_token : option string)
  : option string :=
  if String.eqb task_type "agent/v1/responses" then user_token
  else if String.eqb task_type "agent/v2/chat" then user_token
  else None.

Definition is_chunk_event (ev : event) : Prop :=
  match ev with
  | Render Chunk _ => True
  | _ => False
  end.

(** The trace and the outcome of a turn whose stream raises. *)
Definition fallback_run (W : World) (self : ChatService) (input_messages : list json)
    (render_callback : bool) (user_token fallback_credential : option string)
    (chunk_events : list event) (e : exn) : io AssistantResponse :=
  ((fst (notify render_callback Start JNull)
    ++ StreamCall (endpoint_name self) input_messages (supports_feedback self) user_token
    :: chunk_events
    ++ fst (notify render_callback Error (JStr (str_of_exn e)))
    ++ QueryCall (endpoint_name self) input_messages (supports_feedback self)
         fallback_credential
    :: match query_endpoint W (endpoint_name self) input_messages
               (supports_feedback self) fallback_credential with
       | inl _ => []
       | inr r => fst (notify render_callback Complete (fst r))
       end)%list,
   match query_endpoint W (endpoint_name self) input_messages
           (supports_feedback self) fallback_credential with
   | inl e2 => inl e2
   | inr r => inr {| messages := fst r; request_id := snd r; user_token := None |}
   end).

End Spec.

Export Spec.

(** ** A concrete world and concrete inputs, for the examples *)

Module Examples.

(** The double-quote character as a string. *)
Definition dquote : string := String "034"%char EmptyString.

Definition str_field (k : string) (v : json) : option string :=
  match v with
  | JObj kvs => match lookup k kvs with
                | Some (JStr s) => Some s
                | _ => None
                end
  | _ => None
  end.

Definition field (k : string) (v : json) : option json :=
  match v with
  | JObj kvs => lookup k kvs
  | _ => None
  end.

Definition function_of_json (v : json) : option Function :=
  match str_field "name" v, str_field "arguments" v with
  | Some n, Some a => Some {| fn_name := n; fn_arguments := a |}
  | _, _ => None
  end.

Definition tool_call_of_json (v : json) : ToolCall :=
  {| tc_id := str_field "id" v;
     tc_type := str_field "type" v;
     tc_function := match field "function" v with
                    | Some f => function_of_json f
                    | None => None
                    end |}.

(** A validator that reads the declared fields of a chat-agent chunk. *)
Definition chunk_of_json (raw : json) : result ChatAgentChunk :=
  match field "delta" raw with
  | Some d =>
      match str_field "role" d with
      | Some r =>
          ret {| delta :=
                   {| role := r;
                      content := str_field "content" d;
                      name := str_field "name" d;
                      id := str_field "id" d;
                      tool_calls := match field "tool_calls" d with
                                    | Some (JArr tcs) => Some (map tool_call_of_json tcs)
                                    | _ => None
                                    end;
                      tool_call_id := str_field "tool_call_id" d;
                      attachments := None |} |}
      | None => raise ValidationError
      end
  | None => raise ValidationError
  end.

(** A validator that accepts an event with a string [type] and exposes its
    [item]. *)
Definition item_of_event (raw : json) : result (option json) :=
  match str_field "type" raw with
  | Some _ => ret (field "item" raw)
  | None => raise ValidationError
  end.

(** An encoder for the values of the examples. *)
Fixpoint dumps (v : json) : string :=
  match v with
  | JNull => "null"
  | JBool b => if b then "true" else "false"
  | JNum n => DecimalString.NilZero.string_of_int (Z.to_int n)
  | JStr s => dquote ++ s ++ dquote
  | JArr xs =>
      "[" ++ String.concat ", " (map dumps xs) ++ "]"
  | JObj kvs =>
      "{" ++ String.concat ", "
               (map (fun kv => dquote ++ fst kv ++ dquote ++ ": " ++ dumps (snd kv)) kvs)
          ++ "}"
  end.

(** A world with one endpoint: its task, what the two streaming
    transports deliver, what the non-streaming call replies, and the lines
    that [json.loads] decodes. *)
Definition world (the_task : option string) (lines : stream string)
    (chunks : stream json) (reply : result json) (decoded : list (string * json))
  : World :=
  {| new_workspace_client :=
       fun c => ret {| client_auth := c; config_host := "https://workspace.example/" |};
     serving_endpoints_get := fun _ _ => ret {| task := the_task |};
     api_client_do := fun _ _ _ => reply;
     api_client_do_stream := fun _ _ _ => chunks;
     requests_post :=
       fun _ _ _ => ret {| raise_for_status := None; iter_lines := lines |};
     predict := fun _ _ => reply;
     predict_stream := fun _ _ => chunks;
     decode_utf8 := fun s => ret s;
     json_loads := fun s => lookup s decoded;
     json_dumps := dumps;
     uuid4 := fun k => "uuid-" ++ DecimalString.NilZero.string_of_uint (Nat.to_uint k);
     ChatAgentChunk_model_validate := chunk_of_json;
     ResponsesAgentStreamEvent_model_validate := item_of_event |}.

Definition service : ChatService :=
  {| endpoint_name := "agent"; supports_feedback := false |}.

Definition hello : list json :=
  [JObj [("role", JStr "user"); ("content", JStr "hi")]].

(** A JSON text in double quotes. *)
Definition quoted (s : string) : string := dquote ++ s ++ dquote.

(** *** A response whose only item is a message without text *)

Definition empty_text_item : json :=
  JObj [("type", JStr "message");
        ("content", JArr [JObj [("type", JStr "output_text"); ("text", JStr "")]])].

Definition empty_response : json :=
  JObj [("output", JArr [empty_text_item]);
        ("databricks_output", JObj [("databricks_request_id", JStr "req-1")])].

Definition responses_world : World :=
  world (Some "agent/v1/responses") ([], None) ([], None) (inr empty_response) [].

(** *** A raw chunk that has neither [choices] nor [delta] *)

Definition foo_bar : json := JObj [("foo", JStr "bar")].

Definition foo_bar_text : string :=
  "{" ++ quoted "foo" ++ ": " ++ quoted "bar" ++ "}".

Definition foo_bar_world : World :=
  world None (["data: " ++ foo_bar_text], None) ([foo_bar], None)
        (inl (TransportError "no reply")) [(foo_bar_text, foo_bar)].

(** *** A streamed message item with two text parts *)

Definition text_part (s : string) : json :=
  JObj [("type", JStr "output_text"); ("text", JStr s)].

Definition annotated_part (s : string) : json :=
  JObj [("type", JStr "output_text"); ("text", JStr s); ("annotations", JArr [])].

Definition two_part_item : json :=
  JObj [("type", JStr "message"); ("id", JStr "msg_1"); ("role", JStr "assistant");
        ("status", JStr "completed");
        ("content", JArr [annotated_part "Hello, "; annotated_part "world"])].

Definition two_part_event : json :=
  JObj [("type", JStr "response.output_item.done"); ("item", two_part_item)].

Definition two_part_world : World :=
  world (Some "agent/v1/responses") ([], None) ([two_part_event], None)
        (inr (JObj [("output", JArr [two_part_item])])) [].

Definition assistant_says (s : string) : json :=
  JObj [("role", JStr "assistant"); ("content", JStr s)].

(** *** A chat-completions stream that breaks after one fragment *)

Definition hel_chunk : json :=
  JObj [("choices", JArr [JObj [("delta", JObj [("content", JStr "Hel")])]])].

Definition hel_text : string :=
  "{" ++ quoted "choices" ++ ": [{" ++ quoted "delta" ++ ": {"
      ++ quoted "content" ++ ": " ++ quoted "Hel" ++ "}}]}".

Definition hello_reply : json :=
  JObj [("choices",
         JArr [JObj [("message", assistant_says "Hello")]])].

Definition broken_stream_world : World :=
  world None
        (["data: " ++ hel_text], Some (TransportError "connection reset"))
        ([hel_chunk], Some (TransportError "connection reset"))
        (inr hello_reply) [(hel_text, hel_chunk)].

(** *** An assistant message with one tool call and a content *)

Definition lookup_call : json :=
  JObj [("id", JStr "call_1"); ("type", JStr "function");
        ("function", JObj [("name", JStr "search"); ("arguments", JStr "{}")])].

Definition searching : json :=
  JObj [("role", JStr "assistant"); ("content", JStr "Searching");
        ("tool_calls", JArr [lookup_call])].

Definition searching_call_item : json :=
  JObj [("type", JStr "function_call"); ("id", JStr "call_1");
        ("call_id", JStr "call_1"); ("name", JStr "search"); ("arguments", JStr "{}")].

Definition searching_message_item : json :=
  JObj [("type", JStr "message"); ("id", JStr "uuid-0");
        ("content", JArr [text_part "Searching"]); ("role", JStr "assistant")].

Definition search_output_item : json :=
  JObj [("type", JStr "function_call_output"); ("call_id", JStr "call_1");
        ("output", JStr "3 results")].

Definition plain_world : World :=
  world None ([], None) ([], None) (inl (TransportError "no reply")) [].

(** *** Chat-agent fragments *)

Definition call (cid fname args : string) : ToolCall :=
  {| tc_id := Some cid;
     tc_type := Some "function";
     tc_function := Some {| fn_name := fname; fn_arguments := args |} |}.

Definition agent_chunk (mid : string) (text : option string)
    (calls : option (list ToolCall)) : ChatAgentChunk :=
  {| delta := {| role := "assistant"; content := text; name := None;
                 id := Some mid; tool_calls := calls; tool_call_id := None;
                 attachments := None |} |}.

(** The two fragments of the call ["a"], whose argument pieces are
    [{"x":1] and [}]. *)
Definition args_head : string := "{" ++ quoted "x" ++ ":1".

Definition args_whole : string := "{" ++ quoted "x" ++ ":1}".

Definition call_a_fragments : list ChatAgentChunk :=
  [agent_chunk "m1" None (Some [call "a" "f" args_head]);
   agent_chunk "m1" None (Some [call "a" "" "}"])].

(** A first fragment whose tool call has an empty call id, followed by a
    fragment of the same message with the call ["a"]. *)
Definition unidentified_then_a : list ChatAgentChunk :=
  [agent_chunk "m1" None (Some [call "" "f" "{}"]);
   agent_chunk "m1" None (Some [call "a" "g" "{}"])].

(** Fragments of the messages [m1] and [m2], interleaved. *)
Definition raw_fragment (mid text : string) : json :=
  JObj [("delta", JObj [("role", JStr "assistant"); ("content", JStr text);
                        ("id", JStr mid)])].

Definition interleaved_raw : list json :=
  [raw_fragment "m1" "a"; raw_fragment "m2" "b";
   raw_fragment "m1" "c"; raw_fragment "m2" "d"].

Definition interleaved : list ChatAgentChunk :=
  [agent_chunk "m1" (Some "a") None; agent_chunk "m2" (Some "b") None;
   agent_chunk "m1" (Some "c") None; agent_chunk "m2" (Some "d") None].

Definition interleaved_world : World :=
  world (Some "agent/v2/chat") ([], None) (interleaved_raw, None)
        (inl (TransportError "no reply")) [].

Definition agent_says (mid text : string) : json :=
  JObj [("role", JStr "assistant"); ("content", JStr text); ("id", JStr mid)].

End Examples.

(** ** ui_components.py and messages.py *)

Module Ui.

(** What the rendering functions draw.  [CallNotice] is the markdown line
    that announces a tool call with its function name and arguments,
    [ToolResponseTitle] the markdown line above a tool response. *)
Inductive ui_op : Type :=
| Markdown (text : json)
| CallNotice (fn_name args : json)
| ToolResponseTitle
| Code (text : json).

(** A rendering leaves what it drew and returns or raises. *)
Definition ui (A : Type) : Type := (list ui_op * result A)%type.

Definition ui_ret {A : Type} (a : A) : ui A := ([], inr a).

Definition ui_bind {A B : Type} (c : ui A) (k : A -> ui B) : ui B :=
  match snd c with
  | inl e => (fst c, inl e)
  | inr a => ((fst c ++ fst (k a))%list, snd (k a))
  end.

Definition ui_lift {A : Type} (r : result A) : ui A := ([], r).

Definition draw (op : ui_op) : ui unit := ([op], inr tt).

(** The body of [for call in msg["tool_calls"]]. *)
Definition render_tool_call (call : json) : ui unit :=
  ui_bind (ui_lift (f <- getitem call "function" ;; getitem f "name"))
    (fun fn_name =>
       ui_bind (ui_lift (f <- getitem call "function" ;; getitem f "arguments"))
         (fun args => draw (CallNotice fn_name args))).

Fixpoint render_tool_calls (calls : list json) : ui unit :=
  match calls with
  | [] => ui_ret tt
  | call :: rest => ui_bind (render_tool_call call) (fun _ => render_tool_calls rest)
  end.

(** [render_message(msg)] *)
Definition render_message (msg : json) : ui unit :=
  ui_bind (ui_lift (getitem msg "role"))
    (fun r =>
       if is_str r "assistant" then
         ui_bind (ui_lift (get msg "content" JNull))
           (fun c =>
              ui_bind (if truthy c
                       then ui_bind (ui_lift (getitem msg "content"))
                                    (fun c' => draw (Markdown c'))
                       else ui_ret tt)
                (fun _ =>
                   ui_bind (ui_lift (has <- contains "tool_calls" msg ;;
                                     if has : bool
                                     then tcs <- getitem msg "tool_calls" ;;
                                          ret (truthy tcs)
                                     else ret false))
                     (fun some_calls =>
                        if some_calls : bool then
                          ui_bind (ui_lift (tcs <- getitem msg "tool_calls" ;; iter tcs))
                                  render_tool_calls
                        else ui_ret tt)))
       else if is_str r "tool" then
         ui_bind (draw ToolResponseTitle)
           (fun _ => ui_bind (ui_lift (getitem msg "content"))
                             (fun c => draw (Code c)))
       else ui_ret tt).

(** [for msg in messages: render_message(msg)], the loop of
    [render_streaming_messages] and of [AssistantResponse.render]. *)
Fixpoint render_each (msgs : list json) : ui unit :=
  match msgs with
  | [] => ui_ret tt
  | msg :: rest => ui_bind (render_message msg) (fun _ => render_each rest)
  end.

Definition render_streaming_messages (messages : json) : ui unit :=
  ui_bind (ui_lift (iter messages)) render_each.

(** An element of the conversation history of [app.py]: a [UserMessage]
    or an [AssistantResponse]. *)
Inductive HistoryElement : Type :=
| UserMessage (content : string)
| AssistantReply (response : AssistantResponse).

(** [elem.to_input_messages()] *)
Definition to_input_messages (elem : HistoryElement) : json :=
  match elem with
  | UserMessage c => JArr [JObj [("role", JStr "user"); ("content", JStr c)]]
  | AssistantReply r => messages r
  end.

(** [[msg for elem in history for msg in elem.to_input_messages()]] *)
Fixpoint history_input_messages (history : list HistoryElement) : result (list json) :=
  match history with
  | [] => ret []
  | elem :: rest =>
      ms <- iter (to_input_messages elem) ;;
      ms' <- history_input_messages rest ;;
      ret (ms ++ ms')%list
  end.

End Ui.

Export Ui.

(** ** Further properties, stated over the model *)

Module Props.

(** The trace and the outcome of a turn whose stream is consumed to its
    end without an exception. *)
Definition normal_run (self : ChatService) (input_messages : list json)
    (render_callback : bool) (user_token : option string)
    (chunk_events : list event) (response : AssistantResponse) : io AssistantResponse :=
  ((fst (notify render_callback Start JNull)
    ++ StreamCall (endpoint_name self) input_messages (supports_feedback self) user_token
    :: chunk_events
    ++ fst (notify render_callback Complete (messages response)))%list,
   inr response).

Definition is_render (ev : event) : bool :=
  match ev with
  | Render _ _ => true
  | _ => false
  end.

(** [t] extends [s] by at least one character. *)
Definition proper_prefix (s t : string) : Prop :=
  exists u, nonempty u = true /\ t = s ++ u.

Definition list_prefix {A : Type} (l l' : list A) : Prop := exists r, l' = (l ++ r)%list.

(** Every element is related to the one before it, starting from [a]. *)
Fixpoint chain {A : Type} (R : A -> A -> Prop) (a : A) (l : list A) : Prop :=
  match l with
  | [] => True
  | x :: rest => R a x /\ chain R x rest
  end.

(** A chunk passes the filter of the chat streams. *)
Definition recognised (chunk : json) : bool :=
  match contains "choices" chunk with
  | inr true => true
  | inr false => match contains "delta" chunk with
                 | inr true => true
                 | _ => false
                 end
  | inl _ => false
  end.

(** The three shapes of the messages that the responses parsers build. *)
Definition text_reply (c : json) : json :=
  JObj [("role", JStr "assistant"); ("content", c)].

Definition call_reply (call_id function_name arguments : json) : json :=
  JObj [("role", JStr "assistant"); ("content", JStr "");
        ("tool_calls",
         JArr [JObj [("id", call_id); ("type", JStr "function");
                     ("function", JObj [("name", function_name);
                                        ("arguments", arguments)])]])].

Definition tool_reply (output call_id : json) : json :=
  JObj [("role", JStr "tool"); ("content", output); ("tool_call_id", call_id)].

Definition reply_shape (m : json) : Prop :=
  (exists c, m = text_reply c)
  \/ (exists i n a, m = call_reply i n a)
  \/ (exists c cid, m = tool_reply c cid).

(** The last non-empty tool call id of the deltas, if any. *)
Definition last_tool_call_id (deltas : list ChatAgentMessage) : option string :=
  match find (fun d => truthy_str (tool_call_id d)) (rev deltas) with
  | Some d => tool_call_id d
  | None => None
  end.

End Props.

Export Props.

(** ** Inputs of the further examples *)

Module Cases.

(** A world whose streams are empty and exhausted. *)
Definition silent_world (the_task : option string) : World :=
  Examples.world the_task ([], None) ([], None) (inl (TransportError "no reply")) [].

Definition output_text_part (s : string) : json :=
  JObj [("type", JStr "output_text"); ("text", JStr s)].

Definition reasoning_part : json :=
  JObj [("type", JStr "reasoning"); ("text", JStr "thinking")].

Definition mixed_item : json :=
  JObj [("type", JStr "message");
        ("content", JArr [output_text_part "Hel"; reasoning_part; output_text_part "";
                          output_text_part "lo"])].

End Cases.

(** ** What the lines of a streamed HTTP response decode to *)

Module Lines.

(** What the user-token loop makes of one line: a decoded dictionary
    ([Some chunk]), or nothing ([None]) for an empty line, a blank line and
    a line that [json.loads] rejects. *)
Definition line_outcome (W : World) (line : string) (o : option json) : Prop :=
  match o with
  | Some chunk =>
      nonempty line = true
      /\ exists decoded,
           decode_utf8 W line = inr decoded
           /\ blank (strip_data_prefix decoded) = false
           /\ json_loads W (strip_data_prefix decoded) = Some chunk
           /\ exists kvs, chunk = JObj kvs
  | None =>
      nonempty line = false
      \/ exists decoded,
           decode_utf8 W line = inr decoded
           /\ (blank (strip_data_prefix decoded) = true
               \/ (blank (strip_data_prefix decoded) = false
                   /\ json_loads W (strip_data_prefix decoded) = None))
  end.

Fixpoint somes {A : Type} (l : list (option A)) : list A :=
  match l with
  | [] => []
  | Some a :: rest => a :: somes rest
  | None :: rest => somes rest
  end.

End Lines.

Export Lines.

(** ** A streamed HTTP response with lines of every kind *)

Module Sse.

Definition lines : list string :=
  ["data: " ++ Examples.hel_text; ""; "data: [DONE]"; "   "; Examples.foo_bar_text].

Definition sse_world : World :=
  Examples.world None (lines, None) ([], None) (inl (TransportError "no reply"))
    [(Examples.hel_text, Examples.hel_chunk); (Examples.foo_bar_text, Examples.foo_bar)].

Definition sse_response : Response :=
  {| raise_for_status := None; iter_lines := (lines, None) |}.

End Sse.

(** ** Tool calls and their request items *)

Module Items.

(** [item] is the [function_call] item of the tool call [tool_call], a
    dictionary with an [id] and a [function] that has a [name] and
    [arguments]. *)
Definition call_item_of (tool_call item : json) : Prop :=
  exists tkvs fkvs i n a,
    tool_call = JObj tkvs
    /\ lookup "id" tkvs = Some i
    /\ lookup "function" tkvs = Some (JObj fkvs)
    /\ lookup "name" fkvs = Some n
    /\ lookup "arguments" fkvs = Some a
    /\ item = JObj [("type", JStr "function_call"); ("id", i); ("call_id", i);
                    ("name", n); ("arguments", a)].

Definition system_prompt : json :=
  JObj [("role", JStr "system"); ("content", JStr "Be brief.")].

Definition two_calls : json :=
  JObj [("role", JStr "assistant"); ("content", JStr "");
        ("tool_calls",
         JArr [Examples.lookup_call;
               JObj [("id", JStr "call_2"); ("type", JStr "function");
                     ("function", JObj [("name", JStr "fetch");
                                        ("arguments", JStr "{}")])]])].

End Items.

Export Items.

(** ** Replies of a chat-completions endpoint *)

Module Replies.

(** The text that a content part contributes to the combined content:
    [Some s] for a part of type ["text"] with the text [s], [None] for a
    part of another type. *)
Definition part_outcome (part : json) (o : option string) : Prop :=
  exists pkvs,
    part = JObj pkvs
    /\ match o with
       | Some s => lookup "type" pkvs = Some (JStr "text")
                   /\ lookup "text" pkvs = Some (JStr s)
       | None => is_str (match lookup "type" pkvs with Some t => t | None => JNull end)
                        "text" = false
       end.

Definition structured_reply : json :=
  JObj [("choices",
         JArr [JObj [("message",
                      JObj [("role", JStr "assistant");
                            ("content",
                             JArr [JObj [("type", JStr "reasoning");
                                         ("summary", JArr [])];
                                   JObj [("type", JStr "text"); ("text", JStr "Hel")];
                                   JObj [("type", JStr "text"); ("text", JStr "lo")]]);
                            ("tool_calls", JArr [Examples.lookup_call])])]])].

Definition structured_world : World :=
  Examples.world None ([], None) ([], None) (inr structured_reply) [].

Definition call_only_reply : json :=
  JObj [("choices",
         JArr [JObj [("message",
                      JObj [("role", JStr "assistant"); ("content", JNull);
                            ("tool_calls", JArr [Examples.lookup_call])])]])].

Definition call_only_world : World :=
  Examples.world None ([], None) ([], None) (inr call_only_reply) [].

End Replies.

Export Replies.

(** ** Tool-call fragments whatever their id, and what the loops read
    from content parts and chunks *)

Module Worded.

(** All the tool-call fragments of the deltas, in arrival order, the ones
    with an empty or absent call id included. *)
Definition tool_call_fragments (deltas : list ChatAgentMessage) : list ToolCall :=
  flat_map delta_tool_calls deltas.

(** Two fragments of a call whose id is empty, with the argument pieces
    [{"x":1] and [}]. *)
Definition anonymous_fragments : list ChatAgentChunk :=
  [Examples.agent_chunk "m1" None (Some [Examples.call "" "f" Examples.args_head]);
   Examples.agent_chunk "m1" None (Some [Examples.call "" "" "}"])].

(** What the loops over the content parts of a [message] item read from
    one part: [Some s] for a dictionary of type ["output_text"] whose text
    is the string [s] (the empty string when it has no [text] key), [None]
    for a dictionary of another type. *)
Definition text_outcome (part : json) (o : option string) : Prop :=
  exists pkvs,
    part = JObj pkvs
    /\ match o with
       | Some s =>
           lookup "type" pkvs = Some (JStr "output_text")
           /\ match lookup "text" pkvs with Some x => x | None => JStr "" end = JStr s
       | None =>
           is_str (match lookup "type" pkvs with Some t => t | None => JNull end)
                  "output_text" = false
       end.

(** The dictionary [chunk] has the key [k]. *)
Definition has_key (k : string) (chunk : json) : bool :=
  match chunk with
  | JObj kvs => match lookup k kvs with Some _ => true | None => false end
  | _ => false
  end.

(** The [message] item that the request builder makes of the first
    message of a request, an assistant message with the fields [kvs] and
    the content [c]. *)
Definition assistant_item (W : World) (kvs : list (string * json)) (c : json) : json :=
  JObj [("type", JStr "message");
        ("id", match lookup "id" kvs with
               | Some x => x
               | None => JStr (uuid4 W 0)
               end);
        ("content", JArr [JObj [("type", JStr "output_text"); ("text", c)]]);
        ("role", JStr "assistant")].

(** An assistant message whose list of tool calls is empty and whose
    content is empty. *)
Definition no_calls_no_text : json :=
  JObj [("role", JStr "assistant"); ("content", JStr ""); ("tool_calls", JArr [])].

End Worded.

Export Worded.

(** * Theorems *)

(** ** Task-type resolution *)

(** C9: for every endpoint identifier and credential, task-type resolution
    returns and never raises; when the metadata lookup fails, whatever the
    exception, and when the endpoint reports no task (or an empty one), the
    value is the default ["chat/completions"]; otherwise it is the reported
    task.  The value is a function of the lookup's outcome alone: the
    resolver touches no other state. *)
Theorem task_type_resolution_never_raises
    (W : World) (endpoint_name : string) (user_token : option string) :
  (exists t, _get_endpoint_task_type W endpoint_name user_token = inr t)
  /\ _get_endpoint_task_type W endpoint_name user_token =
     inr (match (w <- _get_workspace_client_with_token W user_token ;;
                 serving_endpoints_get W w endpoint_name) with
          | inl _ => "chat/completions"
          | inr ep => match task ep with
                      | None => "chat/completions"
                      | Some EmptyString => "chat/completions"
                      | Some t => t
                      end
          end).
Proof.
  assert (E : _get_endpoint_task_type W endpoint_name user_token =
     inr (match (w <- _get_workspace_client_with_token W user_token ;;
                 serving_endpoints_get W w endpoint_name) with
          | inl _ => "chat/completions"
          | inr ep => match task ep with
                      | None => "chat/completions"
                      | Some EmptyString => "chat/completions"
                      | Some t => t
                      end
          end)).
  { unfold _get_endpoint_task_type, try_except, bind, ret.
    destruct (_get_workspace_client_with_token W user_token) as [e | w]; [reflexivity |].
    destruct (serving_endpoints_get W w endpoint_name) as [e | ep]; [reflexivity |].
    destruct (task ep) as [[| c t] |]; reflexivity. }
  split; [eexists; exact E | exact E].
Qed.

(** ** Feedback *)

(** C8: rating 1 maps to ["positive"], every other rating (0 included) to
    ["negative"]; rating [None] gives an empty assessment list and any
    other rating one assessment of the shape
    [{ratings: {answer_correct: {value: polarity}}, free_text_comment: null}];
    the payload posted to the feedback route is one record with the
    JSON-encoded source identity, the given request id, the JSON-encoded
    assessment list and a JSON-encoded empty retrieval-assessments list. *)
Theorem feedback_mapping
    (W : World) (endpoint : string) (request_id : json) (rating : option Z)
    (user_token : option string) :
  rating_string (Some 1%Z) = "positive"
  /\ rating_string (Some 0%Z) = "negative"
  /\ (forall r, rating_string (Some r) = if Z.eqb r 1 then "positive" else "negative")
  /\ text_assessments None = []
  /\ (forall r, text_assessments (Some r) =
        [JObj [("ratings",
                JObj [("answer_correct",
                       JObj [("value", JStr (if Z.eqb r 1 then "positive" else "negative"))])]);
               ("free_text_comment", JNull)]])
  /\ proxy_payload W request_id rating =
     JObj [("dataframe_records",
            JArr [JObj [("source",
                         JStr (json_dumps W (JObj [("id", JStr "e2e-chatbot-app");
                                                   ("type", JStr "human")])));
                        ("request_id", request_id);
                        ("text_assessments",
                         JStr (json_dumps W (JArr (text_assessments rating))));
                        ("retrieval_assessments", JStr (json_dumps W (JArr [])))]])]
  /\ submit_feedback W endpoint request_id rating user_token =
     (w <- _get_workspace_client_with_token W user_token ;;
      api_client_do W w
        ("/serving-endpoints/" ++ endpoint ++ "/served-models/feedback/invocations")
        (proxy_payload W request_id rating)).
Proof.
  repeat split; reflexivity.
Qed.

(** ** The non-streaming responses-agent query *)

(** Case analysis on the first computation of a sequence in a hypothesis
    that says the sequence returned. *)
Ltac bind_inv H :=
  match type of H with
  | bind ?c _ = inr _ =>
      let E := fresh "E" in
      destruct c eqn:E; cbn [bind] in H; [discriminate H |]
  end.

Lemma parse_responses_output_inv (response : json) (r : list json * json) :
  parse_responses_output response = inr r ->
  exists items produced,
    databricks_request_id response = inr (snd r)
    /\ (out <- get response "output" (JArr []) ;; iter out) = inr items
    /\ output_messages items = inr produced
    /\ fst r = match produced with [] => no_response_found | _ :: _ => produced end.
Proof.
  unfold parse_responses_output. intros H.
  bind_inv H. bind_inv H. bind_inv H. bind_inv H.
  injection H as <-. cbn [fst snd bind].
  exists l, l0. repeat split; assumption.
Qed.

(** C10: the non-streaming responses-agent query never returns an empty
    message list; a [message] item whose concatenated [output_text] is
    empty contributes no message; and when the output items yield no
    message at all the query returns exactly the sentinel
    [[{"role": "assistant", "content": "No response found"}]], paired with
    the request id that was extracted. *)
Theorem responses_query_never_empty :
  (forall W endpoint_name messages return_traces user_token r,
      Serving._query_responses_endpoint W endpoint_name messages return_traces user_token
      = inr r ->
      fst r <> [])
  /\ (forall item parts,
         get item "type" JNull = inr (JStr "message") ->
         (c <- get item "content" (JArr []) ;; iter c) = inr parts ->
         output_text "" parts = inr "" ->
         item_messages item = inr [])
  /\ (forall W endpoint_name messages return_traces user_token input_messages
             response rid items,
         _convert_to_responses_format W messages = inr input_messages ->
         invoke W endpoint_name
           (JObj ([("input", JArr input_messages); ("context", JObj [])]
                  ++ return_trace_option return_traces)%list) user_token
         = inr response ->
         databricks_request_id response = inr rid ->
         (out <- get response "output" (JArr []) ;; iter out) = inr items ->
         output_messages items = inr [] ->
         Serving._query_responses_endpoint W endpoint_name messages return_traces user_token
         = inr (no_response_found, rid)).
Proof.
  split; [| split].
  - intros W endpoint_name messages return_traces user_token r H.
    unfold Serving._query_responses_endpoint in H.
    bind_inv H. bind_inv H.
    apply parse_responses_output_inv in H.
    destruct H as (items & produced & _ & _ & _ & Hr).
    rewrite Hr. destruct produced; unfold no_response_found; discriminate.
  - intros item parts Ht Hc Ho.
    unfold item_messages. rewrite Ht. cbn [bind is_str String.eqb Ascii.eqb Bool.eqb].
    destruct (get item "content" (JArr [])) as [e | c]; cbn [bind] in Hc |- *;
      [discriminate Hc |].
    rewrite Hc. cbn [bind]. rewrite Ho. reflexivity.
  - intros W endpoint_name messages return_traces user_token input_messages
           response rid items Hconv Hinv Hrid Hitems Hout.
    unfold Serving._query_responses_endpoint.
    rewrite Hconv. cbn [bind]. rewrite Hinv. cbn [bind].
    unfold parse_responses_output. rewrite Hrid. cbn [bind].
    destruct (get response "output" (JArr [])) as [e | out]; cbn [bind] in Hitems |- *;
      [discriminate Hitems |].
    rewrite Hitems. cbn [bind]. rewrite Hout. reflexivity.
Qed.

Lemma responses_query_never_empty_witness :
  Serving._query_responses_endpoint Examples.responses_world "agent" Examples.hello false None
  = inr (no_response_found, JStr "req-1")
  /\ fst (no_response_found, JStr "req-1") <> []
  /\ item_messages Examples.empty_text_item = inr [].
Proof.
  destruct responses_query_never_empty as (Hne & Hitem & Hsentinel).
  assert (Hrun : Serving._query_responses_endpoint Examples.responses_world "agent"
                   Examples.hello false None = inr (no_response_found, JStr "req-1")).
  { apply (Hsentinel Examples.responses_world "agent" Examples.hello false None
             [JObj [("role", JStr "user"); ("content", JStr "hi")]]
             Examples.empty_response (JStr "req-1") [Examples.empty_text_item]);
      reflexivity. }
  split; [exact Hrun | split].
  - exact (Hne _ _ _ _ _ _ Hrun).
  - apply (Hitem Examples.empty_text_item
             [JObj [("type", JStr "output_text"); ("text", JStr "")]]); reflexivity.
Defined.

(** ** Unrecognised chunks on the chat streaming transports *)

(** On the user-token path a decoded chunk without [choices] and without
    [delta] is dropped and the loop goes on; on the service-principal path
    the same chunk ends the stream with the format error. *)
Lemma unrecognized_chunk_by_credential_mode
    (W : World) (line decoded : string) (chunk : json)
    (rest : list string) (others : list json) (ending : option exn) :
  nonempty line = true ->
  decode_utf8 W line = inr decoded ->
  blank (strip_data_prefix decoded) = false ->
  json_loads W (strip_data_prefix decoded) = Some chunk ->
  contains "choices" chunk = inr false ->
  contains "delta" chunk = inr false ->
  parse_lines W (line :: rest) ending = parse_lines W rest ending
  /\ check_chunks (chunk :: others) ending = failed UnexpectedEndpointFormat.
Proof.
  intros Hline Hdec Hblank Hloads Hchoices Hdelta.
  cbn [parse_lines check_chunks].
  rewrite Hline, Hdec, Hblank, Hloads, Hchoices, Hdelta.
  split; reflexivity.
Qed.

(** C5 (the code departs from the claim): the raw chunk [{"foo": "bar"}]
    has neither a [choices] nor a [delta] key.  Issued with the service
    credential, the stream ends with the format error.  Issued with a user
    token, the same chunk is dropped without any error: the stream is
    empty and exhausted, and the chat turn completes with an empty
    assistant message, no [error] phase and no fallback. *)
Theorem unrecognized_chunk_ignored_with_user_token :
  contains "choices" Examples.foo_bar = inr false
  /\ contains "delta" Examples.foo_bar = inr false
  /\ query_endpoint_stream Examples.foo_bar_world "agent" Examples.hello false None
     = ([], Some UnexpectedEndpointFormat)
  /\ query_endpoint_stream Examples.foo_bar_world "agent" Examples.hello false (Some "token")
     = ([], None)
  /\ query_and_process Examples.foo_bar_world Examples.service "chat/completions"
       Examples.hello true (Some "token")
     = ([Render Start JNull;
         StreamCall "agent" Examples.hello false (Some "token");
         Render Complete (JArr [Examples.assistant_says ""])],
        inr {| messages := JArr [Examples.assistant_says ""];
               request_id := JNull;
               user_token := Some "token" |}).
Proof.
  repeat split; vm_compute; reflexivity.
Qed.

(** ** Streamed message items of the responses agent *)

(** C7 (the code departs from the claim): a streamed [message] item with
    the two [output_text] parts ["Hello, "] and ["world"] is mapped by the
    streaming loop to two messages, one per part, while the non-streaming
    parser maps the same item to the single message ["Hello, world"]. *)
Theorem streamed_text_parts_not_concatenated :
  event_messages Examples.two_part_world Examples.two_part_event
  = inr [Examples.assistant_says "Hello, "; Examples.assistant_says "world"]
  /\ item_messages Examples.two_part_item = inr [Examples.assistant_says "Hello, world"]
  /\ query_and_process Examples.two_part_world Examples.service "agent/v1/responses"
       Examples.hello true None
     = ([Render Start JNull;
         StreamCall "agent" Examples.hello false None;
         Render Chunk (JArr [Examples.assistant_says "Hello, ";
                             Examples.assistant_says "world"]);
         Render Complete (JArr [Examples.assistant_says "Hello, ";
                                Examples.assistant_says "world"])],
        inr {| messages := JArr [Examples.assistant_says "Hello, ";
                                 Examples.assistant_says "world"];
               request_id := JNull;
               user_token := None |})
  /\ query_endpoint Examples.two_part_world "agent" Examples.hello false None
     = inr (JArr [Examples.assistant_says "Hello, world"], JNull).
Proof.
  repeat split; vm_compute; reflexivity.
Qed.

(** ** Fallback of the streaming orchestrator *)

Section Traces.

Variable P : event -> Prop.

Lemma events_io_ret {A : Type} (a : A) : Forall P (fst (io_ret a)).
Proof. constructor. Qed.

Lemma events_lift {A : Type} (r : result A) : Forall P (fst (lift r)).
Proof. constructor. Qed.

Lemma events_io_bind {A B : Type} (c : io A) (k : A -> io B) :
  Forall P (fst c) -> (forall a, Forall P (fst (k a))) ->
  Forall P (fst (io_bind c k)).
Proof.
  intros Hc Hk. unfold io_bind.
  destruct (snd c) as [e | a]; cbn [fst]; [exact Hc |].
  apply Forall_app. split; [exact Hc | apply Hk].
Qed.

Lemma events_for_each {S A : Type} (body : S -> A -> io S)
    (items : list A) (ending : option exn) :
  (forall st x, Forall P (fst (body st x))) ->
  forall st, Forall P (fst (for_each body st items ending)).
Proof.
  intros Hbody. induction items as [| x rest IH]; intros st; cbn [for_each].
  - destruct ending; constructor.
  - apply events_io_bind; [apply Hbody | exact IH].
Qed.

End Traces.

Lemma events_notify_chunk (render_callback : bool) (data : json) :
  Forall is_chunk_event (fst (notify render_callback Chunk data)).
Proof.
  destruct render_callback; cbn; repeat constructor.
Qed.

Lemma for_each_raises {S A : Type} (body : S -> A -> io S)
    (items : list A) (e : exn) :
  forall st, exists e', snd (for_each body st items (Some e)) = inl e'.
Proof.
  induction items as [| x rest IH]; intros st; cbn [for_each].
  - exists e. reflexivity.
  - unfold io_bind. destruct (snd (body st x)) as [e1 | st'].
    + exists e1. reflexivity.
    + cbn [snd]. apply IH.
Qed.

Lemma completions_step_events (render_callback : bool) (st : string * json) (chunk : json) :
  Forall is_chunk_event (fst (completions_step render_callback st chunk)).
Proof.
  unfold completions_step.
  apply events_io_bind; [apply events_lift | intros has_choices].
  apply events_io_bind; [apply events_lift | intros some_choices].
  apply events_io_bind.
  - destruct some_choices; [| apply events_io_ret].
    apply events_io_bind; [apply events_lift | intros c].
    destruct (truthy c); [| apply events_io_ret].
    apply events_io_bind; [apply events_lift | intros acc].
    apply events_io_bind; [apply events_notify_chunk | intros _; apply events_io_ret].
  - intros acc.
    apply events_io_bind; [apply events_lift | intros rid; apply events_io_ret].
Qed.

Lemma agent_step_events (W : World) (render_callback : bool)
    (st : message_buffers * json) (raw_chunk : json) :
  Forall is_chunk_event (fst (agent_step W render_callback st raw_chunk)).
Proof.
  unfold agent_step.
  apply events_io_bind; [apply events_lift | intros chunk].
  apply events_io_bind; [apply events_lift | intros req_id].
  apply events_io_bind; [apply events_lift | intros partial_message].
  apply events_io_bind; [| intros _; apply events_io_ret].
  destruct render_callback; [| apply events_io_ret].
  apply events_io_bind; [apply events_lift | intros all_messages].
  cbn. repeat constructor.
Qed.

Lemma responses_step_events (W : World) (render_callback : bool)
    (st : list json * json) (raw_event : json) :
  Forall is_chunk_event (fst (responses_step W render_callback st raw_event)).
Proof.
  unfold responses_step.
  apply events_io_bind; [apply events_lift | intros rid].
  apply events_io_bind; [apply events_lift | intros new_messages].
  apply events_io_bind; [| intros _; apply events_io_ret].
  destruct (fst st ++ new_messages)%list; [apply events_io_ret | apply events_notify_chunk].
Qed.

(** Runs a turn whose loop is known to raise: the loop is replaced by its
    trace and its exception, and the handler is evaluated. *)
Ltac run_fallback Hs He :=
  unfold call_query_endpoint_stream, call_query_endpoint, notify, fallback_run;
  cbn -[for_each query_endpoint_stream query_endpoint
        completions_step agent_step responses_step];
  rewrite Hs;
  match goal with
  | |- context [for_each ?body ?init ?items (Some ?e)] =>
      destruct (for_each body init items (Some e)) as [tr r];
      cbn [fst snd] in He; subst r
  end;
  cbn -[query_endpoint];
  match goal with
  | |- context [query_endpoint ?W ?n ?m ?t ?u] =>
      destruct (query_endpoint W n m t u) as [e2 | reply]
  end;
  cbn; rewrite <- ?app_assoc; reflexivity.

Lemma completions_fallback (W : World) (self : ChatService) (input_messages : list json)
    (render_callback : bool) (user_token : option string) (e : exn) :
  snd (query_endpoint_stream W (endpoint_name self) input_messages
         (supports_feedback self) user_token) = Some e ->
  exists chunk_events e',
    Forall is_chunk_event chunk_events
    /\ _query_chat_completions_endpoint W self input_messages render_callback user_token
       = fallback_run W self input_messages render_callback user_token None
           chunk_events e'.
Proof.
  intros Hs.
  destruct (for_each_raises (completions_step render_callback)
              (fst (query_endpoint_stream W (endpoint_name self) input_messages
                      (supports_feedback self) user_token)) e ("", JNull)) as [e' He'].
  exists (fst (for_each (completions_step render_callback) ("", JNull)
                 (fst (query_endpoint_stream W (endpoint_name self) input_messages
                         (supports_feedback self) user_token)) (Some e))), e'.
  split; [apply events_for_each; intros; apply completions_step_events |].
  unfold _query_chat_completions_endpoint.
  destruct render_callback; run_fallback Hs He'.
Qed.

Lemma agent_fallback (W : World) (self : ChatService) (input_messages : list json)
    (render_callback : bool) (user_token : option string) (e : exn) :
  snd (query_endpoint_stream W (endpoint_name self) input_messages
         (supports_feedback self) user_token) = Some e ->
  exists chunk_events e',
    Forall is_chunk_event chunk_events
    /\ _query_chat_agent_endpoint W self input_messages render_callback user_token
       = fallback_run W self input_messages render_callback user_token user_token
           chunk_events e'.
Proof.
  intros Hs.
  destruct (for_each_raises (agent_step W render_callback)
              (fst (query_endpoint_stream W (endpoint_name self) input_messages
                      (supports_feedback self) user_token)) e ([], JNull)) as [e' He'].
  exists (fst (for_each (agent_step W render_callback) ([], JNull)
                 (fst (query_endpoint_stream W (endpoint_name self) input_messages
                         (supports_feedback self) user_token)) (Some e))), e'.
  split; [apply events_for_each; intros; apply agent_step_events |].
  unfold _query_chat_agent_endpoint.
  destruct render_callback; run_fallback Hs He'.
Qed.

Lemma responses_fallback (W : World) (self : ChatService) (input_messages : list json)
    (render_callback : bool) (user_token : option string) (e : exn) :
  snd (query_endpoint_stream W (endpoint_name self) input_messages
         (supports_feedback self) user_token) = Some e ->
  exists chunk_events e',
    Forall is_chunk_event chunk_events
    /\ Service._query_responses_endpoint W self input_messages render_callback user_token
       = fallback_run W self input_messages render_callback user_token user_token
           chunk_events e'.
Proof.
  intros Hs.
  destruct (for_each_raises (responses_step W render_callback)
              (fst (query_endpoint_stream W (endpoint_name self) input_messages
                      (supports_feedback self) user_token)) e ([], JNull)) as [e' He'].
  exists (fst (for_each (responses_step W render_callback) ([], JNull)
                 (fst (query_endpoint_stream W (endpoint_name self) input_messages
                         (supports_feedback self) user_token)) (Some e))), e'.
  split; [apply events_for_each; intros; apply responses_step_events |].
  unfold Service._query_responses_endpoint.
  destruct render_callback; run_fallback Hs He'.
Qed.

(** Whatever the task type and whether or not a sink was supplied, a
    stream that raises after any number of fragments leads to one [error]
    phase, one call of [query_endpoint] on the same endpoint with the same
    input messages, and one [complete] phase with the fallback's messages;
    when the fallback raises, its exception is the outcome of the turn.
    The credential of the fallback call is the user token on the
    chat-agent and responses paths and [None] on the chat-completions
    path. *)
Lemma fallback_after_stream_failure (W : World) (self : ChatService) (task_type : string)
    (input_messages : list json) (render_callback : bool) (user_token : option string)
    (e : exn) :
  snd (query_endpoint_stream W (endpoint_name self) input_messages
         (supports_feedback self) user_token) = Some e ->
  exists chunk_events e',
    Forall is_chunk_event chunk_events
    /\ query_and_process W self task_type input_messages render_callback user_token
       = fallback_run W self input_messages render_callback user_token
           (fallback_token task_type user_token) chunk_events e'.
Proof.
  intros Hs. unfold query_and_process, fallback_token.
  destruct (String.eqb task_type "agent/v1/responses");
    [apply (responses_fallback _ _ _ _ _ _ Hs) |].
  destruct (String.eqb task_type "agent/v2/chat");
    [apply (agent_fallback _ _ _ _ _ _ Hs) | apply (completions_fallback _ _ _ _ _ _ Hs)].
Qed.

(** C1 (the code departs from the claim): a chat-completions stream that
    was started with the user token ["token"] and raises after one
    fragment.  The turn emits [error] once and [complete] once and issues
    one fallback call on the same endpoint with the same input messages,
    but the fallback call carries no user token: it is made with the
    service credential. *)
Theorem completions_fallback_drops_user_token :
  query_and_process Examples.broken_stream_world Examples.service "chat/completions"
    Examples.hello true (Some "token")
  = ([Render Start JNull;
      StreamCall "agent" Examples.hello false (Some "token");
      Render Chunk (JStr "Hel");
      Render Error (JStr "connection reset");
      QueryCall "agent" Examples.hello false None;
      Render Complete (JArr [Examples.assistant_says "Hello"])],
     inr {| messages := JArr [Examples.assistant_says "Hello"];
            request_id := JNull;
            user_token := None |})
  /\ fst (query_and_process Examples.broken_stream_world Examples.service "agent/v2/chat"
            Examples.hello true (Some "token"))
     = [Render Start JNull;
        StreamCall "agent" Examples.hello false (Some "token");
        Render Error (JStr "validation error");
        QueryCall "agent" Examples.hello false (Some "token");
        Render Complete (JArr [Examples.assistant_says "Hello"])].
Proof.
  split; vm_compute; reflexivity.
Qed.

(** ** The responses-agent adapter *)

(** C6 (as amended): an assistant message with one tool call and a
    non-empty content maps to exactly two outbound items, the
    [function_call] item before the [message] item.  The response parser
    maps these two items to two assistant messages, not to one: the first
    has an empty content and the tool call (same id, name and arguments,
    type ["function"]), the second has the content and no tool call.
    Mapping these two messages forward again gives the same [function_call]
    item and a [message] item with the same content.  A
    [function_call_output] item is parsed to a tool message, which the
    request builder maps back to the same item. *)
Theorem responses_adapter_round_trip
    (W : World) (kvs tkvs fkvs : list (string * json)) (i n a mid cid out : json)
    (c : string) :
  lookup "role" kvs = Some (JStr "assistant") ->
  lookup "tool_calls" kvs = Some (JArr [JObj tkvs]) ->
  lookup "id" tkvs = Some i ->
  lookup "function" tkvs = Some (JObj fkvs) ->
  lookup "name" fkvs = Some n ->
  lookup "arguments" fkvs = Some a ->
  lookup "content" kvs = Some (JStr c) ->
  nonempty c = true ->
  let call_item :=
    JObj [("type", JStr "function_call"); ("id", i); ("call_id", i);
          ("name", n); ("arguments", a)] in
  let message_item_with (mid : json) :=
    JObj [("type", JStr "message"); ("id", mid);
          ("content", JArr [JObj [("type", JStr "output_text"); ("text", JStr c)]]);
          ("role", JStr "assistant")] in
  let calling :=
    JObj [("role", JStr "assistant"); ("content", JStr "");
          ("tool_calls",
           JArr [JObj [("id", i); ("type", JStr "function");
                       ("function", JObj [("name", n); ("arguments", a)])]])] in
  let saying := JObj [("role", JStr "assistant"); ("content", JStr c)] in
  _convert_to_responses_format W [JObj kvs]
  = inr [call_item;
         message_item_with (match lookup "id" kvs with
                            | Some x => x
                            | None => JStr (uuid4 W 0)
                            end)]
  /\ parse_responses_output (JObj [("output", JArr [call_item; message_item_with mid])])
     = inr ([calling; saying], JNull)
  /\ _convert_to_responses_format W [calling; saying]
     = inr [call_item; message_item_with (JStr (uuid4 W 0))]
  /\ parse_responses_output
       (JObj [("output",
               JArr [JObj [("type", JStr "function_call_output"); ("call_id", cid);
                           ("output", out)]])])
     = inr ([JObj [("role", JStr "tool"); ("content", out); ("tool_call_id", cid)]],
            JNull)
  /\ _convert_to_responses_format W
       [JObj [("role", JStr "tool"); ("content", out); ("tool_call_id", cid)]]
     = inr [JObj [("type", JStr "function_call_output"); ("call_id", cid);
                  ("output", out)]].
Proof.
  intros Hrole Hcalls Hid Hfun Hname Hargs Hcontent Hc call_item message_item_with
         calling saying.
  split; [| split; [| split; [| split; [reflexivity | reflexivity]]]].
  - unfold _convert_to_responses_format, convert_from, convert_message, message_item,
      getitem, get.
    rewrite Hrole. cbn. rewrite Hcalls. cbn.
    unfold function_call_item, getitem. rewrite Hid, Hfun. cbn.
    rewrite Hname, Hargs. cbn. rewrite Hcontent. cbn. rewrite Hc. cbn.
    reflexivity.
  - cbn. destruct c as [| ch c']; [discriminate Hc |]. reflexivity.
  - cbn. reflexivity.
Qed.

Lemma responses_adapter_round_trip_witness :
  _convert_to_responses_format Examples.plain_world [Examples.searching]
  = inr [Examples.searching_call_item; Examples.searching_message_item]
  /\ parse_responses_output
       (JObj [("output", JArr [Examples.searching_call_item;
                               Examples.searching_message_item])])
     = inr ([JObj [("role", JStr "assistant"); ("content", JStr "");
                   ("tool_calls", JArr [Examples.lookup_call])];
             Examples.assistant_says "Searching"], JNull)
  /\ _convert_to_responses_format Examples.plain_world
       [JObj [("role", JStr "assistant"); ("content", JStr "");
              ("tool_calls", JArr [Examples.lookup_call])];
        Examples.assistant_says "Searching"]
     = inr [Examples.searching_call_item; Examples.searching_message_item]
  /\ parse_responses_output (JObj [("output", JArr [Examples.search_output_item])])
     = inr ([JObj [("role", JStr "tool"); ("content", JStr "3 results");
                   ("tool_call_id", JStr "call_1")]], JNull)
  /\ _convert_to_responses_format Examples.plain_world
       [JObj [("role", JStr "tool"); ("content", JStr "3 results");
              ("tool_call_id", JStr "call_1")]]
     = inr [Examples.search_output_item].
Proof.
  apply (responses_adapter_round_trip Examples.plain_world
           [("role", JStr "assistant"); ("content", JStr "Searching");
            ("tool_calls", JArr [Examples.lookup_call])]
           [("id", JStr "call_1"); ("type", JStr "function");
            ("function", JObj [("name", JStr "search"); ("arguments", JStr "{}")])]
           [("name", JStr "search"); ("arguments", JStr "{}")]
           (JStr "call_1") (JStr "search") (JStr "{}") (JStr "uuid-0")
           (JStr "call_1") (JStr "3 results") "Searching");
    reflexivity.
Defined.

(** C6 (as stated, refuted): the parser does not rebuild one
    [{role, content, tool_calls}] structure.  From the two items of the
    forward mapping it returns two messages, neither of which has the
    role, content and tool calls of the original; from a
    [function_call_output] item and the [message] item it returns a tool
    message and an assistant message, none with tool calls. *)
Lemma responses_adapter_round_trip_counterexample :
  _convert_to_responses_format Examples.plain_world [Examples.searching]
  = inr [Examples.searching_call_item; Examples.searching_message_item]
  /\ (exists first second,
         parse_responses_output
           (JObj [("output", JArr [Examples.searching_call_item;
                                   Examples.searching_message_item])])
         = inr ([first; second], JNull)
         /\ ~ same_structure Examples.searching first
         /\ ~ same_structure Examples.searching second)
  /\ (exists first second,
         parse_responses_output
           (JObj [("output", JArr [Examples.search_output_item;
                                   Examples.searching_message_item])])
         = inr ([first; second], JNull)
         /\ ~ same_structure Examples.searching first
         /\ ~ same_structure Examples.searching second).
Proof.
  split; [reflexivity |].
  split; eexists; eexists; (split; [reflexivity |]);
    split; intros (Hr & Hc & Ht); vm_compute in Hr, Hc, Ht; discriminate.
Qed.

(** ** Strings and first-appearance order *)

Lemma append_nil_r (s : string) : s ++ "" = s.
Proof. induction s as [| c s IH]; cbn; [reflexivity | now rewrite IH]. Qed.

Lemma append_assoc (s t u : string) : (s ++ t) ++ u = s ++ (t ++ u).
Proof. induction s as [| c s IH]; cbn; [reflexivity | now rewrite IH]. Qed.

Lemma concat_cons (h : string) (t : list string) :
  String.concat "" (h :: t) = h ++ String.concat "" t.
Proof.
  destruct t as [| h' t]; cbn [String.concat]; [now rewrite append_nil_r | reflexivity].
Qed.

Lemma concat_app (l l' : list string) :
  String.concat "" (l ++ l') = String.concat "" l ++ String.concat "" l'.
Proof.
  induction l as [| h t IH]; [reflexivity |].
  rewrite <- app_comm_cons, !concat_cons, IH, append_assoc. reflexivity.
Qed.

Lemma str_prefix_refl (s : string) : str_prefix s s.
Proof. exists "". now rewrite append_nil_r. Qed.

Lemma str_prefix_app (s t : string) : str_prefix s (s ++ t).
Proof. exists t. reflexivity. Qed.

Section FirstSeen.

Context {A : Type} (eqb : A -> A -> bool).
Hypothesis eqb_spec : forall a b, eqb a b = true <-> a = b.

Lemma eqb_same (a : A) : eqb a a = true.
Proof. now apply eqb_spec. Qed.

Lemma eqb_flip (a b : A) : eqb a b = eqb b a.
Proof.
  destruct (eqb a b) eqn:E, (eqb b a) eqn:F; try reflexivity.
  - apply eqb_spec in E. subst. now rewrite eqb_same in F.
  - apply eqb_spec in F. subst. now rewrite eqb_same in E.
Qed.

Lemma existsb_eqb (x : A) (l : list A) : existsb (eqb x) l = true <-> In x l.
Proof.
  rewrite existsb_exists. split.
  - intros (y & Hy & E). apply eqb_spec in E. now subst.
  - intros H. exists x. split; [exact H | apply eqb_same].
Qed.

Lemma first_seen_In (x : A) (l : list A) : In x (first_seen eqb l) <-> In x l.
Proof.
  induction l as [| y l IH]; cbn [first_seen]; [reflexivity |].
  cbn [In]. rewrite filter_In, IH. split.
  - intros [H | [H _]]; auto.
  - intros [H | H]; [now left |].
    destruct (eqb x y) eqn:E.
    + apply eqb_spec in E. now left.
    + right. split; [exact H | reflexivity].
Qed.

Lemma first_seen_NoDup (l : list A) : NoDup (first_seen eqb l).
Proof.
  induction l as [| y l IH]; cbn [first_seen]; constructor.
  - rewrite filter_In. intros [_ H]. now rewrite eqb_same in H.
  - now apply NoDup_filter.
Qed.

Lemma first_seen_snoc (l : list A) (x : A) :
  first_seen eqb (l ++ [x]) =
  if existsb (eqb x) l then first_seen eqb l else (first_seen eqb l ++ [x])%list.
Proof.
  induction l as [| y l IH]; [reflexivity |].
  rewrite <- app_comm_cons. cbn [first_seen existsb]. rewrite IH.
  destruct (existsb (eqb x) l) eqn:Hx.
  - now rewrite orb_true_r.
  - rewrite orb_false_r, filter_app. cbn [filter].
    destruct (eqb x y); cbn [negb]; [now rewrite app_nil_r | reflexivity].
Qed.

Lemma existsb_first_seen (k : A) (l : list A) :
  existsb (eqb k) (first_seen eqb l) = existsb (eqb k) l.
Proof.
  destruct (existsb (eqb k) l) eqn:E.
  - apply existsb_eqb, first_seen_In. now apply existsb_eqb in E.
  - destruct (existsb (eqb k) (first_seen eqb l)) eqn:F; [| reflexivity].
    apply existsb_eqb in F. apply (proj1 (first_seen_In _ _)) in F.
    apply (proj2 (existsb_eqb _ _)) in F. congruence.
Qed.

End FirstSeen.

Lemma opt_eqb_spec (a b : option string) : opt_eqb a b = true <-> a = b.
Proof.
  destruct a as [x |], b as [y |]; cbn [opt_eqb]; try (split; congruence).
  rewrite String.eqb_eq. split; congruence.
Qed.

(** ** The chunk reducer: what the loop computes *)

Lemma lookup_keyed {V : Type} (g : string -> V) (k : string) (l : list string) :
  lookup k (map (fun c => (c, g c)) l) =
  if existsb (String.eqb k) l then Some (g k) else None.
Proof.
  induction l as [| c l IH]; cbn [map lookup existsb]; [reflexivity |].
  destruct (String.eqb k c) eqn:E; cbn [orb]; [| exact IH].
  apply String.eqb_eq in E. now subst.
Qed.

Lemma alter_keyed (f : ToolCall -> ToolCall) (g : string -> ToolCall)
    (k : string) (l : list string) :
  NoDup l ->
  alter f k (map (fun c => (c, g c)) l) =
  map (fun c => (c, if String.eqb k c then f (g c) else g c)) l.
Proof.
  induction 1 as [| c l Hnot Hnd IH]; cbn [map alter]; [reflexivity |].
  destruct (String.eqb k c) eqn:E.
  - apply String.eqb_eq in E. subst c. f_equal.
    apply map_ext_in. intros c Hc.
    destruct (String.eqb k c) eqn:E2; [| reflexivity].
    apply String.eqb_eq in E2. subst. contradiction.
  - f_equal. exact IH.
Qed.

Lemma sightings_of_app (cid : string) (S E : list ToolCall) :
  sightings_of cid (S ++ E) = (sightings_of cid S ++ sightings_of cid E)%list.
Proof. apply filter_app. Qed.

Lemma sightings_of_unseen (cid : string) (S : list ToolCall) :
  existsb (String.eqb cid) (map call_id_of S) = false -> sightings_of cid S = [].
Proof.
  induction S as [| tc S IH]; [reflexivity |].
  cbn [map existsb sightings_of filter]. intros H.
  apply orb_false_iff in H. destruct H as [H1 H2].
  rewrite String.eqb_sym, H1. now apply IH.
Qed.

Lemma sightings_of_seen (cid : string) (S : list ToolCall) :
  existsb (String.eqb cid) (map call_id_of S) = true ->
  exists first later, sightings_of cid S = first :: later.
Proof.
  induction S as [| tc S IH]; [discriminate |].
  cbn [map existsb sightings_of filter]. intros H.
  rewrite (String.eqb_sym (call_id_of tc)).
  destruct (String.eqb cid (call_id_of tc)); [eauto |].
  now apply IH.
Qed.

Lemma folded_call_id (cid : string) (S : list ToolCall) :
  tc_id (folded_call cid S) = Some cid.
Proof. unfold folded_call. now destruct (sightings_of cid S). Qed.

Lemma folded_call_arguments (cid : string) (S : list ToolCall) :
  entry_arguments (folded_call cid S) =
  String.concat "" (map entry_arguments (sightings_of cid S)).
Proof. unfold folded_call. now destruct (sightings_of cid S). Qed.

Lemma folded_call_other (c : string) (S : list ToolCall) (tc : ToolCall) :
  String.eqb (call_id_of tc) c = false ->
  folded_call c (S ++ [tc]) = folded_call c S.
Proof.
  intros H. unfold folded_call. rewrite sightings_of_app.
  unfold sightings_of at 2. cbn [filter]. rewrite H. now rewrite app_nil_r.
Qed.

Lemma folded_call_first (S : list ToolCall) (tc : ToolCall) :
  existsb (String.eqb (call_id_of tc)) (map call_id_of S) = false ->
  folded_call (call_id_of tc) (S ++ [tc]) =
  new_entry (call_id_of tc) (sighted_type tc) (entry_name tc) (entry_arguments tc).
Proof.
  intros H. unfold folded_call. rewrite sightings_of_app, (sightings_of_unseen _ _ H).
  unfold sightings_of. cbn [filter app]. rewrite String.eqb_refl.
  cbn [resolve_name fold_left map String.concat]. reflexivity.
Qed.

Lemma folded_call_later (S : list ToolCall) (tc : ToolCall) :
  existsb (String.eqb (call_id_of tc)) (map call_id_of S) = true ->
  folded_call (call_id_of tc) (S ++ [tc]) =
  accumulate_entry (entry_name tc) (entry_arguments tc) (folded_call (call_id_of tc) S).
Proof.
  intros H. unfold folded_call. rewrite sightings_of_app.
  destruct (sightings_of_seen _ _ H) as (first & later & E). rewrite E.
  unfold sightings_of at 1. cbn [filter]. rewrite String.eqb_refl.
  rewrite <- app_comm_cons.
  unfold accumulate_entry, new_entry, entry_name, entry_arguments, resolve_name.
  cbn [tc_id tc_type tc_function fn_name fn_arguments].
  rewrite fold_left_app. cbn [fold_left].
  rewrite app_comm_cons, map_app, concat_app. cbn [map String.concat].
  reflexivity.
Qed.

Lemma accumulate_folds (tcs : list ToolCall) :
  fold_left accumulate_tool_call tcs [] =
  folded_map (filter (fun tc => truthy_str (tc_id tc)) tcs).
Proof.
  induction tcs as [| tc tcs IH] using rev_ind; [reflexivity |].
  rewrite fold_left_app, filter_app, IH. cbn [fold_left filter].
  set (S := filter (fun tc => truthy_str (tc_id tc)) tcs).
  unfold accumulate_tool_call.
  destruct (tc_id tc) as [cid |] eqn:Hid; cbn [truthy_str];
    [| now rewrite app_nil_r].
  destruct (nonempty cid) eqn:Hcid; [| now rewrite app_nil_r].
  assert (Hcall : call_id_of tc = cid) by (unfold call_id_of; now rewrite Hid).
  unfold folded_map at 1 2. rewrite lookup_keyed, (existsb_first_seen _ String.eqb_eq).
  unfold folded_map. rewrite map_app. cbn [map]. rewrite Hcall.
  rewrite (first_seen_snoc String.eqb).
  destruct (existsb (String.eqb cid) (map call_id_of S)) eqn:Hseen.
  - rewrite alter_keyed by apply (first_seen_NoDup _ String.eqb_eq).
    apply map_ext. intros c. f_equal.
    destruct (String.eqb cid c) eqn:E.
    + apply String.eqb_eq in E. subst c. rewrite <- Hcall in *.
      symmetry. now apply folded_call_later.
    + symmetry. apply folded_call_other. now rewrite Hcall.
  - rewrite map_app. cbn [map]. f_equal.
    + apply map_ext_in. intros c Hc. f_equal. symmetry.
      apply folded_call_other. rewrite Hcall.
      destruct (String.eqb cid c) eqn:E; [| reflexivity].
      apply String.eqb_eq in E. subst c.
      apply (proj1 (first_seen_In _ String.eqb_eq _ _)) in Hc.
      apply (proj2 (existsb_eqb _ String.eqb_eq _ _)) in Hc. congruence.
    + f_equal. f_equal. rewrite <- Hcall in *. symmetry. now apply folded_call_first.
Qed.

Lemma step_call_map (st : reduce_state) (d : ChatAgentMessage) :
  call_map (reduce_step st d) =
  fold_left accumulate_tool_call (delta_tool_calls d) (call_map st).
Proof.
  unfold reduce_step, delta_tool_calls. cbn [call_map].
  destruct (tool_calls d) as [[| tc tcs] |]; reflexivity.
Qed.

Lemma step_msg_contents (st : reduce_state) (d : ChatAgentMessage) :
  msg_contents (reduce_step st d) = (msg_contents st ++ spoken [d])%list.
Proof.
  unfold reduce_step, spoken. cbn [msg_contents flat_map].
  destruct (content d) as [c |]; cbn [truthy_str].
  - destruct (nonempty c); cbn [app]; now rewrite ?app_nil_r.
  - now rewrite app_nil_r.
Qed.

Lemma step_tool_calls (st : reduce_state) (d : ChatAgentMessage) :
  tool_calls (result_msg (reduce_step st d)) = tool_calls (result_msg st).
Proof.
  unfold reduce_step. cbn [result_msg].
  destruct (truthy_str (tool_call_id d)); reflexivity.
Qed.

Lemma loop_state (ds : list ChatAgentMessage) (st : reduce_state) :
  call_map (fold_left reduce_step ds st) =
    fold_left accumulate_tool_call (flat_map delta_tool_calls ds) (call_map st)
  /\ msg_contents (fold_left reduce_step ds st) = (msg_contents st ++ spoken ds)%list
  /\ tool_calls (result_msg (fold_left reduce_step ds st)) = tool_calls (result_msg st).
Proof.
  revert st. induction ds as [| d ds IH]; intros st; cbn [fold_left flat_map].
  - now rewrite app_nil_r.
  - destruct (IH (reduce_step st d)) as (Hm & Hc & Ht).
    rewrite Hm, Hc, Ht, step_call_map, step_msg_contents, step_tool_calls, fold_left_app.
    repeat split. unfold spoken. cbn [flat_map]. now rewrite app_nil_r, app_assoc.
Qed.

Lemma folded_map_values (S : list ToolCall) : map snd (folded_map S) = folded_calls S.
Proof. unfold folded_map, folded_calls. rewrite map_map. reflexivity. Qed.

(** The reducer returns on every non-empty list of chunks; its content is
    the concatenation of the non-empty content strings, and its tool calls
    are the folded calls of the sightings (those of the first delta when no
    fragment carries a call id). *)
Lemma reduce_shape (c : ChatAgentChunk) (cs : list ChatAgentChunk) :
  exists m,
    reduce_chat_agent_chunks (c :: cs) = inr m
    /\ content m = Some (String.concat "" (spoken (map delta (c :: cs))))
    /\ tool_calls m =
       match sightings (map delta (c :: cs)) with
       | [] => tool_calls (delta c)
       | _ :: _ => Some (folded_calls (sightings (map delta (c :: cs))))
       end.
Proof.
  unfold reduce_chat_agent_chunks, reduce_loop.
  destruct (loop_state (map delta (c :: cs))
              {| result_msg := delta c; msg_contents := []; call_map := [] |})
    as (Hm & Hc & Ht).
  cbn [call_map msg_contents result_msg app] in Hm, Hc, Ht.
  rewrite accumulate_folds in Hm. fold (sightings (map delta (c :: cs))) in Hm.
  cbn [map] in *. rewrite Hm, Hc.
  eexists. split; [reflexivity |]. split.
  - destruct (folded_map (sightings (delta c :: map delta cs))); reflexivity.
  - destruct (sightings (delta c :: map delta cs)) as [| tc S] eqn:HS.
    + cbn. exact Ht.
    + rewrite <- folded_map_values. unfold folded_map at 1. cbn [map first_seen].
      reflexivity.
Qed.

Lemma spoken_app (ds es : list ChatAgentMessage) :
  spoken (ds ++ es) = (spoken ds ++ spoken es)%list.
Proof. apply flat_map_app. Qed.

Lemma sightings_app (ds es : list ChatAgentMessage) :
  sightings (ds ++ es) = (sightings ds ++ sightings es)%list.
Proof. unfold sightings. now rewrite flat_map_app, filter_app. Qed.

(** Reducing a longer list of fragments never undoes what the reduction
    of a prefix reported, for the tool calls that carry a call id. *)
Lemma reduce_extension (c : ChatAgentChunk) (cs ext : list ChatAgentChunk) :
  exists m m',
    reduce_chat_agent_chunks (c :: cs) = inr m
    /\ reduce_chat_agent_chunks (c :: cs ++ ext) = inr m'
    /\ never_undone_identified m m'.
Proof.
  destruct (reduce_shape c cs) as (m & Hm & Hcontent & Hcalls).
  destruct (reduce_shape c (cs ++ ext)) as (m' & Hm' & Hcontent' & Hcalls').
  exists m, m'. split; [exact Hm | split; [exact Hm' |]].
  rewrite app_comm_cons, map_app in Hcontent', Hcalls'.
  rewrite spoken_app, concat_app in Hcontent'.
  rewrite sightings_app in Hcalls'.
  set (S := sightings (map delta (c :: cs))) in *.
  set (E := sightings (map delta ext)) in *.
  split.
  - unfold content_str. rewrite Hcontent, Hcontent'. apply str_prefix_app.
  - intros tc Hin Hid. unfold message_tool_calls in Hin. rewrite Hcalls in Hin.
    destruct S as [| s0 S0] eqn:HS.
    + exfalso.
      assert (Hsee : In tc (sightings (map delta (c :: cs)))).
      { unfold sightings. apply filter_In. split; [| exact Hid].
        cbn [map flat_map]. apply in_or_app. left. exact Hin. }
      fold S in Hsee. rewrite HS in Hsee. exact Hsee.
    + rewrite <- HS in *. unfold folded_calls in Hin.
      apply in_map_iff in Hin. destruct Hin as (cid & Htc & Hcid).
      assert (Hcalls'' : tool_calls m' = Some (folded_calls (S ++ E))).
      { rewrite Hcalls'. rewrite HS. reflexivity. }
      exists (folded_call cid (S ++ E)). split; [| split].
      * unfold message_tool_calls. rewrite Hcalls''. unfold folded_calls.
        apply in_map_iff. exists cid. split; [reflexivity |].
        apply (proj2 (first_seen_In _ String.eqb_eq _ _)).
        apply (proj1 (first_seen_In _ String.eqb_eq _ _)) in Hcid.
        rewrite map_app. apply in_or_app. now left.
      * subst tc. now rewrite !folded_call_id.
      * subst tc. rewrite !folded_call_arguments, sightings_of_app, map_app, concat_app.
        apply str_prefix_app.
Qed.

(** ** The chunk reducer: the claims *)

(** C2 (as amended): for every fragment sequence [cs] and every
    [1 <= k <= k' <= length cs], both prefixes reduce, the content of the
    reduction of [cs[:k]] is a prefix of the content of the reduction of
    [cs[:k']], and every tool call with a non-empty call id reported at
    prefix [k] is still reported at prefix [k'], under the same call id and
    with an arguments string that extends the earlier one. *)
Theorem reduce_prefix_never_undone (cs : list ChatAgentChunk) (k k' : nat) :
  1 <= k -> k <= k' -> k' <= length cs ->
  exists m m',
    reduce_chat_agent_chunks (firstn k cs) = inr m
    /\ reduce_chat_agent_chunks (firstn k' cs) = inr m'
    /\ str_prefix (content_str m) (content_str m')
    /\ forall tc,
         In tc (message_tool_calls m) ->
         truthy_str (tc_id tc) = true ->
         exists tc',
           In tc' (message_tool_calls m')
           /\ tc_id tc' = tc_id tc
           /\ str_prefix (entry_arguments tc) (entry_arguments tc').
Proof.
  intros Hk Hkk' Hk'.
  destruct cs as [| c rest]; [cbn [length] in Hk'; lia |].
  destruct k as [| j]; [lia |]. destruct k' as [| j']; [lia |].
  cbn [firstn].
  assert (Hsplit : firstn j' rest
                   = (firstn j rest ++ skipn j (firstn j' rest))%list).
  { rewrite <- (firstn_skipn j (firstn j' rest)) at 1.
    rewrite firstn_firstn. replace (Nat.min j j') with j by lia. reflexivity. }
  rewrite Hsplit.
  destruct (reduce_extension c (firstn j rest) (skipn j (firstn j' rest)))
    as (m & m' & Hm & Hm' & Hcontent & Hcalls).
  exists m, m'. repeat split; assumption.
Qed.

Lemma reduce_prefix_never_undone_witness :
  1 <= 1 /\ 1 <= 2 /\ 2 <= length Examples.call_a_fragments
  /\ exists m m',
       reduce_chat_agent_chunks (firstn 1 Examples.call_a_fragments) = inr m
       /\ reduce_chat_agent_chunks (firstn 2 Examples.call_a_fragments) = inr m'
       /\ str_prefix (content_str m) (content_str m')
       /\ forall tc,
            In tc (message_tool_calls m) ->
            truthy_str (tc_id tc) = true ->
            exists tc',
              In tc' (message_tool_calls m')
              /\ tc_id tc' = tc_id tc
              /\ str_prefix (entry_arguments tc) (entry_arguments tc').
Proof.
  split; [lia | split; [lia | split; [cbn; lia |]]].
  apply (reduce_prefix_never_undone Examples.call_a_fragments 1 2); cbn; lia.
Defined.

(** C2 (as stated, refuted): the first fragment carries a tool call whose
    call id is empty, the second fragment of the same message carries the
    call ["a"].  The reduction of the first fragment reports the tool call
    of that fragment; the reduction of both reports only the call ["a"].
    The reduction of the empty prefix raises [IndexError]. *)
Lemma reduce_prefix_never_undone_counterexample :
  reduce_chat_agent_chunks (firstn 0 Examples.unidentified_then_a) = inl IndexError
  /\ exists m m',
       reduce_chat_agent_chunks (firstn 1 Examples.unidentified_then_a) = inr m
       /\ reduce_chat_agent_chunks (firstn 2 Examples.unidentified_then_a) = inr m'
       /\ message_tool_calls m = [Examples.call "" "f" "{}"]
       /\ message_tool_calls m' = [Examples.call "a" "g" "{}"]
       /\ ~ never_undone m m'.
Proof.
  split; [reflexivity |].
  eexists. eexists.
  split; [reflexivity | split; [reflexivity | split; [reflexivity | split; [reflexivity |]]]].
  intros [_ H].
  destruct (H (Examples.call "" "f" "{}")) as (tc' & Hin & Hid & _).
  - cbn. left. reflexivity.
  - cbn in Hin. destruct Hin as [<- | []]. discriminate Hid.
Qed.

(** C3: the accumulation holds for the tool calls that carry a non-empty
    call id, the sightings.  In the reduction of a non-empty fragment
    sequence with at least one sighting the tool calls are the folded
    calls of the sightings: one call per non-empty id, in the order in
    which the ids were first sighted.  The first sighting of an id
    establishes the name, the type and the initial arguments; a later
    sighting of the same id appends its arguments to the accumulated ones
    and overwrites the name only when its own name is non-empty; sightings
    of other ids leave the call unchanged.  A tool call whose id is empty
    or absent is no sighting and is never accumulated: without any
    sighting the reduced message keeps the tool calls of the first
    fragment as they are.  The two fragments of the call ["a"] with the
    argument pieces [{"x":1] and [}] reduce to the single call with the
    arguments [{"x":1}]. *)
Theorem tool_call_accumulation :
  (forall c cs,
      exists m,
        reduce_chat_agent_chunks (c :: cs) = inr m
        /\ tool_calls m =
           match sightings (map delta (c :: cs)) with
           | [] => tool_calls (delta c)
           | _ :: _ => Some (folded_calls (sightings (map delta (c :: cs))))
           end)
  /\ (forall deltas tc,
         In tc (sightings deltas)
         <-> (exists d, In d deltas /\ In tc (delta_tool_calls d))
             /\ exists cid, tc_id tc = Some cid /\ nonempty cid = true)
  /\ (forall S, map tc_id (folded_calls S)
                = map Some (first_seen String.eqb (map call_id_of S)))
  /\ (forall S tc,
         existsb (String.eqb (call_id_of tc)) (map call_id_of S) = false ->
         folded_call (call_id_of tc) (S ++ [tc]) =
         {| tc_id := Some (call_id_of tc);
            tc_type := Some (sighted_type tc);
            tc_function := Some {| fn_name := entry_name tc;
                                   fn_arguments := entry_arguments tc |} |})
  /\ (forall S tc,
         existsb (String.eqb (call_id_of tc)) (map call_id_of S) = true ->
         folded_call (call_id_of tc) (S ++ [tc]) =
         {| tc_id := tc_id (folded_call (call_id_of tc) S);
            tc_type := tc_type (folded_call (call_id_of tc) S);
            tc_function :=
              Some {| fn_name :=
                        if nonempty (entry_name tc) then entry_name tc
                        else entry_name (folded_call (call_id_of tc) S);
                      fn_arguments :=
                        entry_arguments (folded_call (call_id_of tc) S)
                        ++ entry_arguments tc |} |})
  /\ (forall S tc cid,
         String.eqb (call_id_of tc) cid = false ->
         folded_call cid (S ++ [tc]) = folded_call cid S)
  /\ (exists m,
         reduce_chat_agent_chunks Examples.call_a_fragments = inr m
         /\ tool_calls m = Some [Examples.call "a" "f" Examples.args_whole]).
Proof.
  split; [| split; [| split; [| split; [| split; [| split]]]]].
  - intros c cs. destruct (reduce_shape c cs) as (m & Hm & _ & Hcalls).
    exists m. split; assumption.
  - intros deltas tc. unfold sightings. rewrite filter_In, in_flat_map.
    unfold truthy_str. split.
    + intros [Hin Hid]. split; [exact Hin |].
      destruct (tc_id tc) as [cid |]; [| discriminate Hid].
      exists cid. split; [reflexivity | exact Hid].
    + intros [Hin (cid & Hid & Hne)]. split; [exact Hin |].
      rewrite Hid. exact Hne.
  - intros S. unfold folded_calls. rewrite map_map.
    apply map_ext. intros cid. apply folded_call_id.
  - intros S tc H. now apply folded_call_first.
  - intros S tc H. now apply folded_call_later.
  - intros S tc cid H. now apply folded_call_other.
  - eexists. split; reflexivity.
Qed.

Lemma tool_call_accumulation_witness :
  folded_call "a" [Examples.call "a" "f" Examples.args_head]
  = Examples.call "a" "f" Examples.args_head
  /\ folded_call "a" [Examples.call "a" "f" Examples.args_head; Examples.call "a" "" "}"]
     = Examples.call "a" "f" Examples.args_whole
  /\ folded_call "b" [Examples.call "b" "g" "{}"; Examples.call "a" "f" "{}"]
     = Examples.call "b" "g" "{}".
Proof.
  destruct tool_call_accumulation as (_ & _ & _ & Hfirst & Hlater & Hother & _).
  split; [| split].
  - apply (Hfirst [] (Examples.call "a" "f" Examples.args_head)). reflexivity.
  - apply (Hlater [Examples.call "a" "f" Examples.args_head] (Examples.call "a" "" "}")).
    reflexivity.
  - apply (Hother [Examples.call "b" "g" "{}"] (Examples.call "a" "f" "{}") "b").
    reflexivity.
Defined.

(** C3, as worded, fails for a call id that is empty.  Folding all the
    tool-call fragments of the two fragments with the id [""] and the
    argument pieces [{"x":1] and [}] would give the arguments [{"x":1}];
    the reducer returns the call of the first fragment, with the arguments
    [{"x":1] and without the later piece.  And of a fragment with the id
    [""] followed by a fragment with the id ["a"], the fold in
    first-sighting order would list both calls; the reducer lists the call
    ["a"] only. *)
Lemma tool_call_accumulation_counterexample :
  (exists m,
      reduce_chat_agent_chunks anonymous_fragments = inr m
      /\ message_tool_calls m = [Examples.call "" "f" Examples.args_head]
      /\ folded_calls (tool_call_fragments (map delta anonymous_fragments))
         = [Examples.call "" "f" Examples.args_whole]
      /\ message_tool_calls m
         <> folded_calls (tool_call_fragments (map delta anonymous_fragments)))
  /\ (exists m,
         reduce_chat_agent_chunks Examples.unidentified_then_a = inr m
         /\ message_tool_calls m = [Examples.call "a" "g" "{}"]
         /\ folded_calls (tool_call_fragments (map delta Examples.unidentified_then_a))
            = [Examples.call "" "f" "{}"; Examples.call "a" "g" "{}"]
         /\ message_tool_calls m
            <> folded_calls (tool_call_fragments
                               (map delta Examples.unidentified_then_a))).
Proof.
  split.
  - eexists. split; [reflexivity | split; [reflexivity | split; [reflexivity |]]].
    intros H. vm_compute in H. discriminate H.
  - eexists. split; [reflexivity | split; [reflexivity | split; [reflexivity |]]].
    intros H. vm_compute in H. discriminate H.
Qed.

(** ** Interleaved message identities *)

Lemma buffer_append_keyed (g : option string -> list ChatAgentChunk)
    (k : option string) (c : ChatAgentChunk) (l : list (option string)) :
  NoDup l ->
  buffer_append k c (map (fun mid => (mid, g mid)) l) =
  if existsb (opt_eqb k) l
  then map (fun mid => (mid, if opt_eqb k mid then (g mid ++ [c])%list else g mid)) l
  else (map (fun mid => (mid, g mid)) l ++ [(k, [c])])%list.
Proof.
  induction 1 as [| mid l Hnot Hnd IH]; cbn [map buffer_append existsb]; [reflexivity |].
  destruct (opt_eqb k mid) eqn:E; cbn [orb].
  - f_equal. apply map_ext_in. intros mid' Hin.
    destruct (opt_eqb k mid') eqn:E'; [| reflexivity].
    apply opt_eqb_spec in E, E'. subst. contradiction.
  - rewrite IH. destruct (existsb (opt_eqb k) l); reflexivity.
Qed.

Lemma buffer_get_keyed (g : option string -> list ChatAgentChunk)
    (k : option string) (l : list (option string)) :
  buffer_get k (map (fun mid => (mid, g mid)) l) =
  if existsb (opt_eqb k) l then g k else [].
Proof.
  induction l as [| mid l IH]; cbn [map buffer_get existsb]; [reflexivity |].
  destruct (opt_eqb k mid) eqn:E; cbn [orb]; [| exact IH].
  apply opt_eqb_spec in E. now subst.
Qed.

Lemma filter_unseen (mid : option string) (l : list ChatAgentChunk) :
  existsb (opt_eqb mid) (map chunk_id l) = false ->
  filter (fun c => opt_eqb (chunk_id c) mid) l = [].
Proof.
  induction l as [| c l IH]; [reflexivity |].
  cbn [map existsb filter]. intros H.
  apply orb_false_iff in H. destruct H as [H1 H2].
  rewrite (eqb_flip _ opt_eqb_spec), H1. now apply IH.
Qed.

Lemma filter_seen (mid : option string) (l : list ChatAgentChunk) :
  In mid (map chunk_id l) ->
  filter (fun c => opt_eqb (chunk_id c) mid) l <> [].
Proof.
  intros H. apply in_map_iff in H. destruct H as (c & Hc & Hin).
  assert (Hf : In c (filter (fun c => opt_eqb (chunk_id c) mid) l)).
  { apply filter_In. split; [exact Hin |]. now apply opt_eqb_spec. }
  intros E. rewrite E in Hf. exact Hf.
Qed.

(** Appending a chunk to the buffer of its identity keeps the buffers
    grouped by identity, in order of first appearance. *)
Lemma group_snoc (l : list ChatAgentChunk) (c : ChatAgentChunk) :
  buffer_append (chunk_id c) c (group_by_identity l) = group_by_identity (l ++ [c]).
Proof.
  unfold group_by_identity.
  rewrite buffer_append_keyed by apply (first_seen_NoDup _ opt_eqb_spec).
  rewrite (existsb_first_seen _ opt_eqb_spec), map_app. cbn [map].
  rewrite (first_seen_snoc opt_eqb).
  destruct (existsb (opt_eqb (chunk_id c)) (map chunk_id l)) eqn:Hseen.
  - apply map_ext. intros mid. f_equal. rewrite filter_app. cbn [filter].
    destruct (opt_eqb (chunk_id c) mid); [reflexivity | now rewrite app_nil_r].
  - rewrite map_app. cbn [map]. f_equal.
    + apply map_ext_in. intros mid Hin. f_equal. rewrite filter_app. cbn [filter].
      destruct (opt_eqb (chunk_id c) mid) eqn:E; [| now rewrite app_nil_r].
      apply opt_eqb_spec in E. subst mid.
      apply (proj1 (first_seen_In _ opt_eqb_spec _ _)) in Hin.
      apply (proj2 (existsb_eqb _ opt_eqb_spec _ _)) in Hin. congruence.
    + f_equal. f_equal. rewrite filter_app, (filter_unseen _ _ Hseen). cbn [filter app].
      now rewrite (eqb_same _ opt_eqb_spec).
Qed.

Lemma group_buffers_nonempty (l : list ChatAgentChunk) :
  Forall (fun b => snd b <> []) (group_by_identity l).
Proof.
  unfold group_by_identity. apply Forall_map. apply Forall_forall.
  intros mid Hin. cbn [snd]. apply filter_seen.
  now apply (proj1 (first_seen_In _ opt_eqb_spec _ _)) in Hin.
Qed.

Lemma reduce_all_nonempty (buffers : message_buffers) :
  Forall (fun b => snd b <> []) buffers ->
  reduce_all buffers =
  inr (map (fun b => match reduce_chat_agent_chunks (snd b) with
                     | inr m => model_dump_compat m
                     | inl _ => JNull
                     end) buffers).
Proof.
  induction 1 as [| [mid chunks] buffers Hne Hrest IH]; [reflexivity |].
  cbn [reduce_all map snd] in *.
  destruct chunks as [| c cs]; [contradiction |].
  destruct (reduce_shape c cs) as (m & Hm & _). rewrite Hm, IH. reflexivity.
Qed.

Lemma reduce_all_group (l : list ChatAgentChunk) :
  reduce_all (group_by_identity l) = inr (identity_view l).
Proof. apply reduce_all_nonempty, group_buffers_nonempty. Qed.

(** One iteration of the chat-agent loop on a chunk that validates. *)
Lemma agent_step_run (W : World) (render_callback : bool) (done : list ChatAgentChunk)
    (rid0 r raw : json) (c : ChatAgentChunk) :
  ChatAgentChunk_model_validate W raw = inr c ->
  databricks_request_id raw = inr r ->
  agent_step W render_callback (group_by_identity done, rid0) raw =
  ((if render_callback then [Render Chunk (chunk_view (done ++ [c]))] else []),
   inr (group_by_identity (done ++ [c]), if truthy r then r else rid0)).
Proof.
  intros Hval Hrid. unfold agent_step. rewrite Hval, Hrid.
  cbn [lift io_bind fst snd app].
  fold (chunk_id c). rewrite group_snoc.
  assert (Hget : buffer_get (chunk_id c) (group_by_identity (done ++ [c]))
                 = filter (fun x => opt_eqb (chunk_id x) (chunk_id c)) (done ++ [c])).
  { unfold group_by_identity. rewrite buffer_get_keyed.
    rewrite (existsb_first_seen _ opt_eqb_spec), map_app, existsb_app.
    cbn [map existsb]. rewrite (eqb_same _ opt_eqb_spec).
    now rewrite orb_true_r. }
  rewrite Hget.
  destruct (filter (fun x => opt_eqb (chunk_id x) (chunk_id c)) (done ++ [c]))
    as [| x xs] eqn:Hbucket.
  { exfalso. revert Hbucket. apply filter_seen. rewrite map_app.
    apply in_or_app. right. now left. }
  destruct (reduce_shape x xs) as (m & Hm & _).
  unfold chunk_view. rewrite rev_unit, Hbucket, Hm.
  cbn [lift io_bind fst snd app].
  destruct render_callback; cbn [io_bind io_ret fst snd app]; [| reflexivity].
  rewrite reduce_all_group. reflexivity.
Qed.

Lemma agent_loop_run (W : World) (render_callback : bool)
    (raws : list json) (cs : list ChatAgentChunk) :
  Forall2 (fun raw c => ChatAgentChunk_model_validate W raw = inr c
                        /\ exists r, databricks_request_id raw = inr r) raws cs ->
  forall done rid0,
  exists rid,
    for_each (agent_step W render_callback) (group_by_identity done, rid0) raws None =
    ((if render_callback
      then map (fun n => Render Chunk (chunk_view (done ++ firstn (S n) cs)))
               (seq 0 (length cs))
      else []),
     inr (group_by_identity (done ++ cs), rid)).
Proof.
  induction 1 as [| raw c raws cs [Hval [r Hrid]] Hrest IH]; intros done rid0.
  - exists rid0. cbn [for_each length seq map]. rewrite app_nil_r.
    destruct render_callback; reflexivity.
  - destruct (IH (done ++ [c])%list (if truthy r then r else rid0)) as [rid Hrun].
    exists rid. cbn [for_each].
    rewrite (agent_step_run W render_callback done rid0 r raw c Hval Hrid).
    unfold io_bind at 1. cbn [fst snd]. rewrite Hrun. cbn [fst snd].
    rewrite <- app_assoc. cbn [app]. f_equal.
    destruct render_callback; [| reflexivity].
    cbn [length seq map firstn app]. f_equal.
    rewrite <- seq_shift, map_map. apply map_ext. intros n.
    rewrite <- app_assoc. reflexivity.
Qed.

Lemma identity_view_folds (cs : list ChatAgentChunk) :
  Forall2 (fun mid msg =>
             exists m,
               reduce_chat_agent_chunks (filter (fun c => opt_eqb (chunk_id c) mid) cs)
               = inr m
               /\ msg = model_dump_compat m)
          (first_seen opt_eqb (map chunk_id cs)) (identity_view cs).
Proof.
  unfold identity_view, group_by_identity. rewrite map_map. cbn [snd].
  assert (Hin : forall mid, In mid (first_seen opt_eqb (map chunk_id cs)) ->
                            In mid (map chunk_id cs)).
  { intros mid H. now apply (proj1 (first_seen_In _ opt_eqb_spec _ _)) in H. }
  induction (first_seen opt_eqb (map chunk_id cs)) as [| mid mids IH]; cbn [map];
    constructor.
  - pose proof (filter_seen mid cs (Hin mid (or_introl eq_refl))) as Hne.
    destruct (filter (fun c => opt_eqb (chunk_id c) mid) cs) as [| x xs];
      [contradiction |].
    destruct (reduce_shape x xs) as (m & Hm & _). rewrite Hm. eauto.
  - apply IH. intros mid' H. apply Hin. now right.
Qed.

Lemma last_identity (cs : list ChatAgentChunk) :
  forall n, n < length cs ->
  match rev (firstn (S n) cs) with
  | c :: _ => chunk_id c
  | [] => None
  end = nth n (map chunk_id cs) None.
Proof.
  induction cs as [| c cs IH]; intros n Hn; [cbn [length] in Hn; lia |].
  destruct n as [| n]; [reflexivity |].
  cbn [length] in Hn. assert (Hn' : n < length cs) by lia.
  specialize (IH n Hn').
  change (firstn (S (S n)) (c :: cs)) with (c :: firstn (S n) cs).
  cbn [rev map nth].
  destruct cs as [| c' cs']; [cbn [length] in Hn'; lia |].
  destruct (rev (firstn (S n) (c' :: cs'))) as [| x xs] eqn:Hrev.
  - exfalso. cbn [firstn rev] in Hrev. destruct (rev (firstn n cs')); discriminate Hrev.
  - cbn [app]. exact IH.
Qed.

Lemma chunk_view_nth (cs : list ChatAgentChunk) (n : nat) :
  n < length cs ->
  chunk_view (firstn (S n) cs) =
  JObj [("message_id", of_opt (nth n (map chunk_id cs) None));
        ("message",
         match reduce_chat_agent_chunks
                 (filter (fun c => opt_eqb (chunk_id c) (nth n (map chunk_id cs) None))
                         (firstn (S n) cs)) with
         | inr m => model_dump_compat m
         | inl _ => JNull
         end);
        ("all_messages", JArr (identity_view (firstn (S n) cs)))].
Proof.
  intros Hn. unfold chunk_view. rewrite (last_identity cs n Hn). reflexivity.
Qed.

(** C4: on a chat-agent stream whose chunks validate, the fragments of
    every message identity are folded on their own: the final messages are,
    one per identity and in the order in which the identities first appear
    in the stream, the reductions of the fragments that carry that
    identity; the [all_messages] of the n-th [chunk] phase are the same
    for the first n fragments.  The turn returns with these messages and
    emits [start], one [chunk] per fragment and [complete]. *)
Theorem interleaved_identities_fold_independently
    (W : World) (self : ChatService) (input_messages : list json)
    (render_callback : bool) (user_token : option string)
    (raws : list json) (cs : list ChatAgentChunk) :
  query_endpoint_stream W (endpoint_name self) input_messages
    (supports_feedback self) user_token = (raws, None) ->
  Forall2 (fun raw c => ChatAgentChunk_model_validate W raw = inr c
                        /\ exists r, databricks_request_id raw = inr r) raws cs ->
  Forall2 (fun mid msg =>
             exists m,
               reduce_chat_agent_chunks (filter (fun c => opt_eqb (chunk_id c) mid) cs)
               = inr m
               /\ msg = model_dump_compat m)
          (first_seen opt_eqb (map chunk_id cs)) (identity_view cs)
  /\ exists rid,
       query_and_process W self "agent/v2/chat" input_messages render_callback user_token
       = ((fst (notify render_callback Start JNull)
           ++ StreamCall (endpoint_name self) input_messages (supports_feedback self)
                user_token
           :: (if render_callback
               then map (fun n =>
                           Render Chunk
                             (JObj [("message_id",
                                     of_opt (nth n (map chunk_id cs) None));
                                    ("message",
                                     match reduce_chat_agent_chunks
                                             (filter (fun c => opt_eqb (chunk_id c)
                                                         (nth n (map chunk_id cs) None))
                                                     (firstn (S n) cs)) with
                                     | inr m => model_dump_compat m
                                     | inl _ => JNull
                                     end);
                                    ("all_messages",
                                     JArr (identity_view (firstn (S n) cs)))]))
                        (seq 0 (length cs))
               else [])
           ++ fst (notify render_callback Complete (JArr (identity_view cs))))%list,
          inr {| messages := JArr (identity_view cs);
                 request_id := rid;
                 user_token := user_token |}).
Proof.
  intros Hstream Hval. split; [apply identity_view_folds |].
  destruct (agent_loop_run W render_callback raws cs Hval [] JNull) as [rid Hrun].
  exists rid.
  change (query_and_process W self "agent/v2/chat" input_messages render_callback user_token)
    with (_query_chat_agent_endpoint W self input_messages render_callback user_token).
  unfold group_by_identity at 1 in Hrun. cbn [map first_seen app] in Hrun.
  assert (Hevents :
            map (fun n => Render Chunk (chunk_view (firstn (S n) cs))) (seq 0 (length cs))
            = map (fun n =>
                     Render Chunk
                       (JObj [("message_id", of_opt (nth n (map chunk_id cs) None));
                              ("message",
                               match reduce_chat_agent_chunks
                                       (filter (fun c => opt_eqb (chunk_id c)
                                                   (nth n (map chunk_id cs) None))
                                               (firstn (S n) cs)) with
                               | inr m => model_dump_compat m
                               | inl _ => JNull
                               end);
                              ("all_messages",
                               JArr (identity_view (firstn (S n) cs)))]))
                  (seq 0 (length cs))).
  { apply map_ext_in. intros n Hn. apply in_seq in Hn.
    rewrite chunk_view_nth by lia. reflexivity. }
  rewrite <- Hevents.
  unfold _query_chat_agent_endpoint, call_query_endpoint_stream, notify.
  destruct render_callback;
    cbn -[for_each agent_step reduce_all identity_view chunk_view
          query_endpoint_stream query_endpoint seq];
    rewrite Hstream; cbn [fst snd];
    match type of Hrun with
    | _ = ?run =>
        match goal with
        | |- context [for_each ?body ?init raws None] =>
            replace (for_each body init raws None) with run by (symmetry; exact Hrun)
        end
    end;
    cbn -[reduce_all identity_view chunk_view query_endpoint seq];
    rewrite reduce_all_group;
    cbn -[identity_view chunk_view query_endpoint seq];
    rewrite <- ?app_assoc; reflexivity.
Qed.

Lemma interleaved_identities_fold_independently_witness :
  identity_view Examples.interleaved
  = [Examples.agent_says "m1" "ac"; Examples.agent_says "m2" "bd"]
  /\ exists rid,
       snd (query_and_process Examples.interleaved_world Examples.service "agent/v2/chat"
              Examples.hello true None)
       = inr {| messages := JArr [Examples.agent_says "m1" "ac";
                                  Examples.agent_says "m2" "bd"];
                request_id := rid;
                user_token := None |}.
Proof.
  split; [reflexivity |].
  destruct (interleaved_identities_fold_independently
              Examples.interleaved_world Examples.service Examples.hello true None
              Examples.interleaved_raw Examples.interleaved)
    as [_ [rid Hrun]].
  - reflexivity.
  - repeat constructor; eexists; reflexivity.
  - exists rid. rewrite Hrun. reflexivity.
Defined.

(** * Further properties of the code *)

(** ** The shape of a turn *)

(** Replaces a loop by the pair it evaluates to, up to conversion. *)
Ltac use_run Hrun :=
  match type of Hrun with
  | for_each _ _ ?items ?ending = ?run =>
      match goal with
      | |- context [for_each ?body ?init items ending] =>
          replace (for_each body init items ending) with run by (symmetry; exact Hrun)
      end
  end.

Ltac run_turn Hrun :=
  unfold call_query_endpoint_stream, call_query_endpoint, notify, fallback_run, normal_run;
  cbn -[for_each query_endpoint_stream query_endpoint reduce_all
        completions_step agent_step responses_step];
  use_run Hrun.

Lemma completions_turn_shape (W : World) (self : ChatService) (input_messages : list json)
    (render_callback : bool) (user_token : option string) :
  exists chunk_events,
    Forall is_chunk_event chunk_events
    /\ ((exists response,
            _query_chat_completions_endpoint W self input_messages render_callback user_token
            = normal_run self input_messages render_callback user_token
                chunk_events response)
        \/ (exists e,
               _query_chat_completions_endpoint W self input_messages render_callback
                 user_token
               = fallback_run W self input_messages render_callback user_token None
                   chunk_events e)).
Proof.
  pose proof (events_for_each is_chunk_event (completions_step render_callback)
                (fst (query_endpoint_stream W (endpoint_name self) input_messages
                        (supports_feedback self) user_token))
                (snd (query_endpoint_stream W (endpoint_name self) input_messages
                        (supports_feedback self) user_token))
                (fun st x => completions_step_events render_callback st x) ("", JNull))
    as Hev.
  destruct (for_each (completions_step render_callback) ("", JNull)
              (fst (query_endpoint_stream W (endpoint_name self) input_messages
                      (supports_feedback self) user_token))
              (snd (query_endpoint_stream W (endpoint_name self) input_messages
                      (supports_feedback self) user_token)))
    as [tr [e | st]] eqn:Hrun; cbn [fst] in Hev;
    exists tr; (split; [exact Hev |]).
  - right. exists e. unfold _query_chat_completions_endpoint.
    destruct render_callback; run_turn Hrun; cbn -[query_endpoint];
      destruct (query_endpoint W (endpoint_name self) input_messages
                  (supports_feedback self) None) as [e2 | reply];
      cbn; rewrite <- ?app_assoc; reflexivity.
  - left.
    exists {| messages := JArr [JObj [("role", JStr "assistant");
                                      ("content", JStr (fst st))]];
              request_id := snd st;
              user_token := user_token |}.
    unfold _query_chat_completions_endpoint.
    destruct render_callback; run_turn Hrun; cbn; rewrite ?app_nil_r; reflexivity.
Qed.

Lemma agent_turn_shape (W : World) (self : ChatService) (input_messages : list json)
    (render_callback : bool) (user_token : option string) :
  exists chunk_events,
    Forall is_chunk_event chunk_events
    /\ ((exists response,
            _query_chat_agent_endpoint W self input_messages render_callback user_token
            = normal_run self input_messages render_callback user_token
                chunk_events response)
        \/ (exists e,
               _query_chat_agent_endpoint W self input_messages render_callback user_token
               = fallback_run W self input_messages render_callback user_token user_token
                   chunk_events e)).
Proof.
  pose proof (events_for_each is_chunk_event (agent_step W render_callback)
                (fst (query_endpoint_stream W (endpoint_name self) input_messages
                        (supports_feedback self) user_token))
                (snd (query_endpoint_stream W (endpoint_name self) input_messages
                        (supports_feedback self) user_token))
                (fun st x => agent_step_events W render_callback st x) ([], JNull))
    as Hev.
  destruct (for_each (agent_step W render_callback) ([], JNull)
              (fst (query_endpoint_stream W (endpoint_name self) input_messages
                      (supports_feedback self) user_token))
              (snd (query_endpoint_stream W (endpoint_name self) input_messages
                      (supports_feedback self) user_token)))
    as [tr [e | st]] eqn:Hrun; cbn [fst] in Hev;
    exists tr; (split; [exact Hev |]).
  - right. exists e. unfold _query_chat_agent_endpoint.
    destruct render_callback; run_turn Hrun; cbn -[query_endpoint];
      destruct (query_endpoint W (endpoint_name self) input_messages
                  (supports_feedback self) user_token) as [e2 | reply];
      cbn; rewrite <- ?app_assoc; reflexivity.
  - destruct (reduce_all (fst st)) as [e | ms] eqn:Hall.
    + right. exists e. unfold _query_chat_agent_endpoint.
      destruct render_callback; run_turn Hrun; cbn -[query_endpoint reduce_all];
        rewrite Hall; cbn -[query_endpoint];
        destruct (query_endpoint W (endpoint_name self) input_messages
                    (supports_feedback self) user_token) as [e2 | reply];
        cbn; rewrite <- ?app_assoc; reflexivity.
    + left.
      exists {| messages := JArr ms; request_id := snd st; user_token := user_token |}.
      unfold _query_chat_agent_endpoint.
      destruct render_callback; run_turn Hrun; cbn -[reduce_all];
        rewrite Hall; cbn; rewrite ?app_nil_r; reflexivity.
Qed.

Lemma responses_turn_shape (W : World) (self : ChatService) (input_messages : list json)
    (render_callback : bool) (user_token : option string) :
  exists chunk_events,
    Forall is_chunk_event chunk_events
    /\ ((exists response,
            Service._query_responses_endpoint W self input_messages render_callback
              user_token
            = normal_run self input_messages render_callback user_token
                chunk_events response)
        \/ (exists e,
               Service._query_responses_endpoint W self input_messages render_callback
                 user_token
               = fallback_run W self input_messages render_callback user_token user_token
                   chunk_events e)).
Proof.
  pose proof (events_for_each is_chunk_event (responses_step W render_callback)
                (fst (query_endpoint_stream W (endpoint_name self) input_messages
                        (supports_feedback self) user_token))
                (snd (query_endpoint_stream W (endpoint_name self) input_messages
                        (supports_feedback self) user_token))
                (fun st x => responses_step_events W render_callback st x) ([], JNull))
    as Hev.
  destruct (for_each (responses_step W render_callback) ([], JNull)
              (fst (query_endpoint_stream W (endpoint_name self) input_messages
                      (supports_feedback self) user_token))
              (snd (query_endpoint_stream W (endpoint_name self) input_messages
                      (supports_feedback self) user_token)))
    as [tr [e | st]] eqn:Hrun; cbn [fst] in Hev;
    exists tr; (split; [exact Hev |]).
  - right. exists e. unfold Service._query_responses_endpoint.
    destruct render_callback; run_turn Hrun; cbn -[query_endpoint];
      destruct (query_endpoint W (endpoint_name self) input_messages
                  (supports_feedback self) user_token) as [e2 | reply];
      cbn; rewrite <- ?app_assoc; reflexivity.
  - left.
    exists {| messages := JArr (fst st); request_id := snd st; user_token := None |}.
    unfold Service._query_responses_endpoint.
    destruct render_callback; run_turn Hrun; cbn; rewrite ?app_nil_r; reflexivity.
Qed.

(** X1: every turn, whatever the world, the task type and the sink, is
    [start], the call of [query_endpoint_stream], a run of [chunk] phases,
    and then either [complete] with the messages of the returned response
    and nothing else, or [error], exactly one call of [query_endpoint] and,
    when that call returns, [complete] with its messages; no turn calls
    [query_endpoint] without a preceding [error], and none emits a phase
    after [complete]. *)
Theorem turn_shape (W : World) (self : ChatService) (task_type : string)
    (input_messages : list json) (render_callback : bool) (user_token : option string) :
  exists chunk_events,
    Forall is_chunk_event chunk_events
    /\ ((exists response,
            query_and_process W self task_type input_messages render_callback user_token
            = ((fst (notify render_callback Start JNull)
                ++ StreamCall (endpoint_name self) input_messages
                     (supports_feedback self) user_token
                :: chunk_events
                ++ fst (notify render_callback Complete (messages response)))%list,
               inr response))
        \/ (exists e,
               query_and_process W self task_type input_messages render_callback user_token
               = fallback_run W self input_messages render_callback user_token
                   (fallback_token task_type user_token) chunk_events e)).
Proof.
  unfold query_and_process, fallback_token.
  destruct (String.eqb task_type "agent/v1/responses");
    [apply responses_turn_shape |].
  destruct (String.eqb task_type "agent/v2/chat");
    [apply agent_turn_shape | apply completions_turn_shape].
Qed.

(** ** The sink does not steer the turn *)

Ltac use_run_of Hrun :=
  match type of Hrun with
  | for_each ?b _ ?items ?ending = ?run =>
      match goal with
      | |- context [for_each ?body ?init items ending] =>
          unify body b;
          replace (for_each body init items ending) with run by (symmetry; exact Hrun)
      end
  end.

Lemma no_render_filtered (l : list event) :
  forallb is_render l = true -> filter (fun ev => negb (is_render ev)) l = [].
Proof.
  induction l as [| ev l IH]; [reflexivity |].
  cbn [forallb filter]. intros H. apply andb_prop in H. destruct H as [H1 H2].
  rewrite H1. cbn [negb]. now apply IH.
Qed.

Section Sink.

Context {S A : Type} (step : bool -> S -> A -> io S) (Inv : S -> Prop).

Hypothesis step_sink :
  forall st x, Inv st ->
    fst (step false st x) = []
    /\ snd (step true st x) = snd (step false st x)
    /\ forallb is_render (fst (step true st x)) = true
    /\ (forall st', snd (step false st x) = inr st' -> Inv st').

Lemma for_each_sink (items : list A) (ending : option exn) :
  forall st, Inv st ->
    fst (for_each (step false) st items ending) = []
    /\ snd (for_each (step true) st items ending)
       = snd (for_each (step false) st items ending)
    /\ forallb is_render (fst (for_each (step true) st items ending)) = true.
Proof.
  induction items as [| x rest IH]; intros st Hst; cbn [for_each].
  - destruct ending; repeat split.
  - destruct (step_sink st x Hst) as (Hnil & Hsnd & Hren & Hinv).
    unfold io_bind. rewrite Hsnd, Hnil.
    destruct (snd (step false st x)) as [e | st'] eqn:Hstep; cbn [fst snd app].
    + repeat split. exact Hren.
    + destruct (IH st' (Hinv st' eq_refl)) as (Hnil' & Hsnd' & Hren').
      repeat split; [exact Hnil' | exact Hsnd' |].
      rewrite forallb_app, Hren, Hren'. reflexivity.
Qed.

End Sink.

Ltac crunch_step :=
  unfold io_bind, lift, notify, emit, io_ret; cbn [fst snd app];
  repeat match goal with
         | |- context [match ?x with _ => _ end] =>
             destruct x eqn:?; cbn [fst snd app forallb is_render andb] in *;
             try discriminate
         end;
  repeat split; try reflexivity; try congruence.

Lemma completions_step_sink (st : string * json) (chunk : json) :
  fst (completions_step false st chunk) = []
  /\ snd (completions_step true st chunk) = snd (completions_step false st chunk)
  /\ forallb is_render (fst (completions_step true st chunk)) = true
  /\ (forall st', snd (completions_step false st chunk) = inr st' -> True).
Proof.
  unfold completions_step. crunch_step.
Qed.

Lemma responses_step_sink (W : World) (st : list json * json) (raw_event : json) :
  fst (responses_step W false st raw_event) = []
  /\ snd (responses_step W true st raw_event) = snd (responses_step W false st raw_event)
  /\ forallb is_render (fst (responses_step W true st raw_event)) = true
  /\ (forall st', snd (responses_step W false st raw_event) = inr st' -> True).
Proof.
  unfold responses_step. crunch_step.
Qed.

Lemma buffer_append_nonempty (mid : option string) (c : ChatAgentChunk)
    (buffers : message_buffers) :
  Forall (fun b => snd b <> []) buffers ->
  Forall (fun b => snd b <> []) (buffer_append mid c buffers).
Proof.
  induction 1 as [| [k chunks] rest Hk Hrest IH]; cbn [buffer_append].
  - constructor; [discriminate | constructor].
  - destruct (opt_eqb mid k); constructor; cbn [snd] in *; auto.
    intros E. apply app_eq_nil in E. destruct E as [_ E]. discriminate E.
Qed.

Lemma agent_step_sink (W : World) (st : message_buffers * json) (raw_chunk : json) :
  Forall (fun b => snd b <> []) (fst st) ->
  fst (agent_step W false st raw_chunk) = []
  /\ snd (agent_step W true st raw_chunk) = snd (agent_step W false st raw_chunk)
  /\ forallb is_render (fst (agent_step W true st raw_chunk)) = true
  /\ (forall st', snd (agent_step W false st raw_chunk) = inr st' ->
                  Forall (fun b => snd b <> []) (fst st')).
Proof.
  intros Hst. unfold agent_step, io_bind, lift, emit, io_ret. cbn [fst snd app].
  destruct (ChatAgentChunk_model_validate W raw_chunk) as [e | chunk]; cbn [fst snd app];
    [repeat split; discriminate |].
  destruct (databricks_request_id raw_chunk) as [e | req_id]; cbn [fst snd app];
    [repeat split; discriminate |].
  pose proof (buffer_append_nonempty (id (delta chunk)) chunk (fst st) Hst) as Hne.
  rewrite (reduce_all_nonempty _ Hne).
  destruct (reduce_chat_agent_chunks
              (buffer_get (id (delta chunk))
                 (buffer_append (id (delta chunk)) chunk (fst st)))) as [e | m];
    cbn [fst snd app forallb is_render andb]; repeat split; try discriminate.
  intros st' E. injection E as <-. exact Hne.
Qed.

Ltac run_both Ht Hf Hren :=
  unfold call_query_endpoint_stream, call_query_endpoint, notify;
  cbn -[for_each query_endpoint_stream query_endpoint reduce_all
        completions_step agent_step responses_step filter];
  use_run_of Ht; use_run_of Hf;
  match type of Hf with
  | _ = (_, ?r) => destruct r as [e | st]
  end;
  cbn -[query_endpoint reduce_all filter];
  repeat match goal with
         | |- context [reduce_all ?b] => destruct (reduce_all b) as [e' | ms]
         | |- context [query_endpoint ?W ?n ?m ?t ?u] =>
             destruct (query_endpoint W n m t u) as [e2 | reply]
         end;
  cbn -[filter]; (split; [reflexivity |]);
  cbn [filter is_render negb];
  rewrite ?filter_app, ?(no_render_filtered _ Hren); reflexivity.

Lemma completions_sink (W : World) (self : ChatService) (input_messages : list json)
    (user_token : option string) :
  snd (_query_chat_completions_endpoint W self input_messages true user_token)
  = snd (_query_chat_completions_endpoint W self input_messages false user_token)
  /\ fst (_query_chat_completions_endpoint W self input_messages false user_token)
     = filter (fun ev => negb (is_render ev))
         (fst (_query_chat_completions_endpoint W self input_messages true user_token)).
Proof.
  destruct (for_each_sink completions_step (fun _ => True)
              (fun st x _ => completions_step_sink st x)
              (fst (query_endpoint_stream W (endpoint_name self) input_messages
                      (supports_feedback self) user_token))
              (snd (query_endpoint_stream W (endpoint_name self) input_messages
                      (supports_feedback self) user_token))
              ("", JNull) I) as (Hnil & Hsnd & Hren).
  destruct (for_each (completions_step true) ("", JNull)
              (fst (query_endpoint_stream W (endpoint_name self) input_messages
                      (supports_feedback self) user_token))
              (snd (query_endpoint_stream W (endpoint_name self) input_messages
                      (supports_feedback self) user_token))) as [trt rt] eqn:Ht.
  destruct (for_each (completions_step false) ("", JNull)
              (fst (query_endpoint_stream W (endpoint_name self) input_messages
                      (supports_feedback self) user_token))
              (snd (query_endpoint_stream W (endpoint_name self) input_messages
                      (supports_feedback self) user_token))) as [trf rf] eqn:Hf.
  cbn [fst snd] in Hnil, Hsnd, Hren. subst trf rt.
  unfold _query_chat_completions_endpoint. run_both Ht Hf Hren.
Qed.

Lemma agent_sink (W : World) (self : ChatService) (input_messages : list json)
    (user_token : option string) :
  snd (_query_chat_agent_endpoint W self input_messages true user_token)
  = snd (_query_chat_agent_endpoint W self input_messages false user_token)
  /\ fst (_query_chat_agent_endpoint W self input_messages false user_token)
     = filter (fun ev => negb (is_render ev))
         (fst (_query_chat_agent_endpoint W self input_messages true user_token)).
Proof.
  destruct (for_each_sink (agent_step W)
              (fun st => Forall (fun b => snd b <> []) (fst st))
              (fun st x H => agent_step_sink W st x H)
              (fst (query_endpoint_stream W (endpoint_name self) input_messages
                      (supports_feedback self) user_token))
              (snd (query_endpoint_stream W (endpoint_name self) input_messages
                      (supports_feedback self) user_token))
              ([], JNull) (Forall_nil _)) as (Hnil & Hsnd & Hren).
  destruct (for_each (agent_step W true) ([], JNull)
              (fst (query_endpoint_stream W (endpoint_name self) input_messages
                      (supports_feedback self) user_token))
              (snd (query_endpoint_stream W (endpoint_name self) input_messages
                      (supports_feedback self) user_token))) as [trt rt] eqn:Ht.
  destruct (for_each (agent_step W false) ([], JNull)
              (fst (query_endpoint_stream W (endpoint_name self) input_messages
                      (supports_feedback self) user_token))
              (snd (query_endpoint_stream W (endpoint_name self) input_messages
                      (supports_feedback self) user_token))) as [trf rf] eqn:Hf.
  cbn [fst snd] in Hnil, Hsnd, Hren. subst trf rt.
  unfold _query_chat_agent_endpoint. run_both Ht Hf Hren.
Qed.

Lemma responses_sink (W : World) (self : ChatService) (input_messages : list json)
    (user_token : option string) :
  snd (Service._query_responses_endpoint W self input_messages true user_token)
  = snd (Service._query_responses_endpoint W self input_messages false user_token)
  /\ fst (Service._query_responses_endpoint W self input_messages false user_token)
     = filter (fun ev => negb (is_render ev))
         (fst (Service._query_responses_endpoint W self input_messages true user_token)).
Proof.
  destruct (for_each_sink (responses_step W) (fun _ => True)
              (fun st x _ => responses_step_sink W st x)
              (fst (query_endpoint_stream W (endpoint_name self) input_messages
                      (supports_feedback self) user_token))
              (snd (query_endpoint_stream W (endpoint_name self) input_messages
                      (supports_feedback self) user_token))
              ([], JNull) I) as (Hnil & Hsnd & Hren).
  destruct (for_each (responses_step W true) ([], JNull)
              (fst (query_endpoint_stream W (endpoint_name self) input_messages
                      (supports_feedback self) user_token))
              (snd (query_endpoint_stream W (endpoint_name self) input_messages
                      (supports_feedback self) user_token))) as [trt rt] eqn:Ht.
  destruct (for_each (responses_step W false) ([], JNull)
              (fst (query_endpoint_stream W (endpoint_name self) input_messages
                      (supports_feedback self) user_token))
              (snd (query_endpoint_stream W (endpoint_name self) input_messages
                      (supports_feedback self) user_token))) as [trf rf] eqn:Hf.
  cbn [fst snd] in Hnil, Hsnd, Hren. subst trf rt.
  unfold Service._query_responses_endpoint. run_both Ht Hf Hren.
Qed.


(** ** Streamed views never regress *)

Lemma last_cons_default {A : Type} (x d : A) (l : list A) : last (x :: l) d = last l x.
Proof.
  revert x d. induction l as [| y l IH]; intros x d; [reflexivity |].
  change (last (x :: y :: l) d) with (last (y :: l) d). rewrite !IH. reflexivity.
Qed.

Lemma completions_step_text (st : string * json) (chunk : json) :
  (fst (completions_step true st chunk) = []
   /\ forall st', snd (completions_step true st chunk) = inr st' -> fst st' = fst st)
  \/ (exists t,
         proper_prefix (fst st) t
         /\ fst (completions_step true st chunk) = [Render Chunk (JStr t)]
         /\ forall st', snd (completions_step true st chunk) = inr st' -> fst st' = t).
Proof.
  destruct st as [acc0 rid0].
  unfold completions_step, io_bind, lift, notify, emit, io_ret. cbn [fst snd app].
  repeat match goal with
         | |- context [match ?x with _ => _ end] =>
             destruct x eqn:?; cbn [fst snd app] in *; try discriminate
         end;
    try (left; split; [reflexivity |];
         intros st' E;
         first [discriminate E | injection E as <-; cbn [fst]; congruence]).
  all: right;
    match goal with
    | H : str_add ?acc1 ?c = inr ?acc, T : truthy ?c = true |- _ =>
        destruct c; try discriminate H; cbn [str_add ret truthy] in H, T;
        injection H as <-; eexists; split; [eexists; split; [exact T | reflexivity] |];
        split; [reflexivity |];
        intros st' E;
        first [discriminate E | injection E as <-; cbn [fst]; congruence]
    end.
Qed.

Lemma completions_loop_texts (items : list json) (ending : option exn) :
  forall st,
  exists texts,
    fst (for_each (completions_step true) st items ending)
    = map (fun t => Render Chunk (JStr t)) texts
    /\ chain proper_prefix (fst st) texts
    /\ forall st', snd (for_each (completions_step true) st items ending) = inr st' ->
                   fst st' = last texts (fst st).
Proof.
  induction items as [| x rest IH]; intros st; cbn [for_each].
  - exists []. destruct ending; cbn; repeat split; intros st' E;
      [discriminate E | injection E as <-; reflexivity].
  - unfold io_bind.
    destruct (completions_step_text st x) as [[Hev Hst] | (t & Hpre & Hev & Hst)];
      rewrite Hev; destruct (snd (completions_step true st x)) as [e | st1];
      cbn [fst snd app].
    + exists []. cbn. repeat split. intros st' E. discriminate E.
    + destruct (IH st1) as (texts & Htr & Hchain & Hlast).
      rewrite (Hst st1 eq_refl) in Hchain, Hlast.
      exists texts. repeat split; assumption.
    + exists [t]. cbn. repeat split; [exact Hpre |]. intros st' E. discriminate E.
    + destruct (IH st1) as (texts & Htr & Hchain & Hlast).
      rewrite (Hst st1 eq_refl) in Hchain, Hlast.
      exists (t :: texts). rewrite Htr. cbn [map chain]. repeat split; try assumption.
      intros st' E. rewrite last_cons_default. now apply Hlast.
Qed.


Lemma responses_step_lists (W : World) (st : list json * json) (raw_event : json) :
  (fst (responses_step W true st raw_event) = []
   /\ forall st', snd (responses_step W true st raw_event) = inr st' -> fst st' = fst st)
  \/ (exists l,
         list_prefix (fst st) l /\ l <> []
         /\ fst (responses_step W true st raw_event) = [Render Chunk (JArr l)]
         /\ forall st', snd (responses_step W true st raw_event) = inr st' -> fst st' = l).
Proof.
  destruct st as [all0 rid0].
  unfold responses_step, io_bind, lift, notify, emit, io_ret. cbn [fst snd app].
  destruct (update_request_id rid0 raw_event) as [e | rid]; cbn [fst snd app];
    [left; split; [reflexivity | intros st' E; discriminate E] |].
  destruct (event_messages W raw_event) as [e | new_messages]; cbn [fst snd app];
    [left; split; [reflexivity | intros st' E; discriminate E] |].
  destruct (all0 ++ new_messages)%list as [| m ms] eqn:Hall; cbn [fst snd app].
  - left. split; [reflexivity |]. intros st' E. injection E as <-. cbn [fst].
    apply app_eq_nil in Hall. now destruct Hall as [-> _].
  - right. exists (m :: ms). split; [exists new_messages; now rewrite Hall |].
    split; [discriminate |]. split; [reflexivity |].
    intros st' E. injection E as <-. reflexivity.
Qed.

Lemma list_prefix_refl {A : Type} (l : list A) : list_prefix l l.
Proof. exists []. now rewrite app_nil_r. Qed.

Lemma responses_loop_lists (W : World) (items : list json) (ending : option exn) :
  forall st,
  exists lists,
    fst (for_each (responses_step W true) st items ending)
    = map (fun l => Render Chunk (JArr l)) lists
    /\ chain list_prefix (fst st) lists
    /\ Forall (fun l => l <> []) lists
    /\ forall st', snd (for_each (responses_step W true) st items ending) = inr st' ->
                   fst st' = last lists (fst st).
Proof.
  induction items as [| x rest IH]; intros st; cbn [for_each].
  - exists []. destruct ending; cbn; repeat split; try constructor; intros st' E;
      [discriminate E | injection E as <-; reflexivity].
  - unfold io_bind.
    destruct (responses_step_lists W st x) as [[Hev Hst] | (l & Hpre & Hne & Hev & Hst)];
      rewrite Hev; destruct (snd (responses_step W true st x)) as [e | st1];
      cbn [fst snd app].
    + exists []. cbn. repeat split; try constructor. intros st' E. discriminate E.
    + destruct (IH st1) as (lists & Htr & Hchain & Hall & Hlast).
      rewrite (Hst st1 eq_refl) in Hchain, Hlast.
      exists lists. repeat split; assumption.
    + exists [l]. cbn. repeat split; [exact Hpre | repeat constructor; exact Hne |].
      intros st' E. discriminate E.
    + destruct (IH st1) as (lists & Htr & Hchain & Hall & Hlast).
      rewrite (Hst st1 eq_refl) in Hchain, Hlast.
      exists (l :: lists). rewrite Htr. cbn [map chain].
      repeat split; try assumption; [constructor; assumption |].
      intros st' E. rewrite last_cons_default. now apply Hlast.
Qed.


(** ** An empty stream *)

(** X5: when the stream yields nothing and ends without an exception, no
    [chunk] phase and no [error] phase is emitted and no fallback call is
    made.  The chat-completions path returns one assistant message with an
    empty content; the chat-agent and responses-agent paths return an
    empty message list (the sentinel of the non-streaming responses query
    is not used). *)
Theorem empty_stream_turn (W : World) (self : ChatService) (task_type : string)
    (input_messages : list json) (user_token : option string) :
  query_endpoint_stream W (endpoint_name self) input_messages
    (supports_feedback self) user_token = ([], None) ->
  query_and_process W self task_type input_messages true user_token
  = ([Render Start JNull;
      StreamCall (endpoint_name self) input_messages (supports_feedback self) user_token;
      Render Complete
        (if String.eqb task_type "agent/v1/responses" then JArr []
         else if String.eqb task_type "agent/v2/chat" then JArr []
         else JArr [text_reply (JStr "")])],
     inr {| messages :=
              if String.eqb task_type "agent/v1/responses" then JArr []
              else if String.eqb task_type "agent/v2/chat" then JArr []
              else JArr [text_reply (JStr "")];
            request_id := JNull;
            user_token :=
              if String.eqb task_type "agent/v1/responses" then None else user_token |}).
Proof.
  intros Hs. unfold query_and_process.
  destruct (String.eqb task_type "agent/v1/responses");
    [| destruct (String.eqb task_type "agent/v2/chat")].
  - unfold Service._query_responses_endpoint, call_query_endpoint_stream.
    cbn -[query_endpoint_stream query_endpoint]. rewrite Hs. reflexivity.
  - unfold _query_chat_agent_endpoint, call_query_endpoint_stream.
    cbn -[query_endpoint_stream query_endpoint]. rewrite Hs. reflexivity.
  - unfold _query_chat_completions_endpoint, call_query_endpoint_stream.
    cbn -[query_endpoint_stream query_endpoint]. rewrite Hs. reflexivity.
Qed.

Lemma empty_stream_turn_witness :
  query_endpoint_stream (Cases.silent_world (Some "agent/v1/responses")) "agent"
    Examples.hello false None = ([], None)
  /\ snd (query_and_process (Cases.silent_world (Some "agent/v1/responses"))
            Examples.service "agent/v1/responses" Examples.hello true None)
     = inr {| messages := JArr []; request_id := JNull; user_token := None |}.
Proof.
  split; [reflexivity |].
  rewrite (empty_stream_turn (Cases.silent_world (Some "agent/v1/responses"))
             Examples.service "agent/v1/responses" Examples.hello None);
    reflexivity.
Defined.

(** ** Streamed and non-streamed items of the responses agent *)

Lemma streamed_text_outcomes (parts : list json) (outcomes : list (option string)) :
  Forall2 text_outcome parts outcomes ->
  streamed_text_messages parts
  = inr (map (fun s => text_reply (JStr s)) (filter nonempty (somes outcomes))).
Proof.
  induction 1 as [| part o parts outcomes Hpart Hrest IH]; [reflexivity |].
  cbn [streamed_text_messages]. rewrite IH.
  destruct Hpart as (pkvs & -> & Ho). unfold get. cbn [bind ret].
  destruct o as [s |]; cbn [somes].
  - destruct Ho as [-> ->]. cbn [is_str String.eqb Ascii.eqb Bool.eqb bind ret truthy filter].
    destruct (nonempty s); reflexivity.
  - rewrite Ho. reflexivity.
Qed.

Lemma output_text_outcomes (parts : list json) (outcomes : list (option string)) :
  Forall2 text_outcome parts outcomes ->
  forall acc, output_text acc parts = inr (acc ++ String.concat "" (somes outcomes)).
Proof.
  induction 1 as [| part o parts outcomes Hpart Hrest IH]; intros acc.
  - cbn. now rewrite append_nil_r.
  - cbn [output_text].
    destruct Hpart as (pkvs & -> & Ho). unfold get. cbn [bind ret].
    destruct o as [s |]; cbn [somes].
    + destruct Ho as [-> ->].
      cbn [is_str String.eqb Ascii.eqb Bool.eqb bind ret str_add].
      rewrite IH, concat_cons, append_assoc. reflexivity.
    + rewrite Ho. apply IH.
Qed.

(** X6: what the streaming loop and the non-streaming parser make of the
    same output item.  For an item that is not a [message] they build the
    same messages, or raise the same exception.  For a [message] item
    whose content is a list of parts, each a dictionary whose text, when
    its type is ["output_text"], is a string, the streaming loop builds
    exactly one message for every [output_text] part with a non-empty
    text, in the order of the parts and with the text of that part as its
    content, and the non-streaming parser builds the single message whose
    content is the concatenation of the texts of the [output_text] parts,
    or no message when that concatenation is empty. *)
Theorem streamed_item_agrees_with_parsed (item : json) :
  (forall ty,
      get item "type" JNull = inr ty ->
      is_str ty "message" = false ->
      streamed_item_messages item = item_messages item)
  /\ (forall ikvs parts outcomes,
         item = JObj ikvs ->
         lookup "type" ikvs = Some (JStr "message") ->
         match lookup "content" ikvs with Some c => c | None => JArr [] end = JArr parts ->
         Forall2 text_outcome parts outcomes ->
         streamed_item_messages item
         = inr (map (fun s => text_reply (JStr s)) (filter nonempty (somes outcomes)))
         /\ item_messages item
            = inr (if nonempty (String.concat "" (somes outcomes))
                   then [text_reply (JStr (String.concat "" (somes outcomes)))]
                   else [])).
Proof.
  split.
  - intros ty Hty Hno. unfold streamed_item_messages, item_messages.
    rewrite Hty. cbn [bind]. rewrite Hno. reflexivity.
  - intros ikvs parts outcomes -> Hty Hcontent Hparts.
    unfold streamed_item_messages, item_messages, get.
    rewrite Hty, Hcontent.
    cbn [bind ret is_str String.eqb Ascii.eqb Bool.eqb iter].
    split; [now apply streamed_text_outcomes |].
    rewrite (output_text_outcomes parts outcomes Hparts ""). cbn [append bind ret].
    destruct (nonempty (String.concat "" (somes outcomes))); reflexivity.
Qed.

Lemma streamed_item_agrees_with_parsed_witness :
  streamed_item_messages Cases.mixed_item
  = inr [text_reply (JStr "Hel"); text_reply (JStr "lo")]
  /\ item_messages Cases.mixed_item = inr [text_reply (JStr "Hello")].
Proof.
  apply (proj2 (streamed_item_agrees_with_parsed Cases.mixed_item)
           [("type", JStr "message");
            ("content", JArr [Cases.output_text_part "Hel"; Cases.reasoning_part;
                              Cases.output_text_part ""; Cases.output_text_part "lo"])]
           [Cases.output_text_part "Hel"; Cases.reasoning_part;
            Cases.output_text_part ""; Cases.output_text_part "lo"]
           [Some "Hel"; None; Some ""; Some "lo"]);
    [reflexivity | reflexivity | reflexivity |].
  constructor; [| constructor; [| constructor; [| constructor; [| constructor]]]];
    eexists; (split; [reflexivity |]); cbn; auto.
Defined.

(** ** The chunk reducer: seed, content and tool-call ids *)

Lemma find_snoc {A : Type} (p : A -> bool) (l : list A) (x : A) :
  find p (l ++ [x]) = match find p l with
                      | Some y => Some y
                      | None => if p x then Some x else None
                      end.
Proof.
  induction l as [| y l IH]; cbn [app find]; [reflexivity |].
  destruct (p y); [reflexivity | exact IH].
Qed.

Lemma loop_seed (ds : list ChatAgentMessage) :
  forall st,
    role (result_msg (fold_left reduce_step ds st)) = role (result_msg st)
    /\ name (result_msg (fold_left reduce_step ds st)) = name (result_msg st)
    /\ id (result_msg (fold_left reduce_step ds st)) = id (result_msg st)
    /\ attachments (result_msg (fold_left reduce_step ds st)) = attachments (result_msg st)
    /\ tool_call_id (result_msg (fold_left reduce_step ds st))
       = match last_tool_call_id ds with
         | Some t => Some t
         | None => tool_call_id (result_msg st)
         end.
Proof.
  induction ds as [| d ds IH]; intros st; cbn [fold_left]; [repeat split |].
  destruct (IH (reduce_step st d)) as (Hr & Hn & Hi & Ha & Ht).
  rewrite Hr, Hn, Hi, Ha, Ht.
  unfold last_tool_call_id. cbn [rev]. rewrite find_snoc. cbn beta.
  unfold reduce_step. cbn [result_msg].
  destruct (find (fun d0 => truthy_str (tool_call_id d0)) (rev ds)) as [d' |] eqn:Hf.
  - apply find_some in Hf. destruct Hf as [_ Hf].
    destruct (tool_call_id d') as [t |]; [| discriminate Hf].
    destruct (truthy_str (tool_call_id d)); repeat split.
  - destruct (tool_call_id d) as [t |] eqn:Hd; cbn [truthy_str].
    + destruct (nonempty t); cbn [set_tool_call_id role name id attachments tool_call_id];
        rewrite ?Hd; repeat split.
    + repeat split.
Qed.

(** X7: the reduced message takes its role, name, id and attachments
    from the first fragment, and its [tool_call_id] from the last fragment
    that carries a non-empty one (that of the first fragment when none
    does). *)
Theorem reduce_seed_and_tool_call_id (c : ChatAgentChunk) (cs : list ChatAgentChunk) :
  exists m,
    reduce_chat_agent_chunks (c :: cs) = inr m
    /\ role m = role (delta c)
    /\ name m = name (delta c)
    /\ id m = id (delta c)
    /\ attachments m = attachments (delta c)
    /\ tool_call_id m =
       match find (fun d => truthy_str (tool_call_id d)) (rev (map delta (c :: cs))) with
       | Some d => tool_call_id d
       | None => tool_call_id (delta c)
       end.
Proof.
  pose (st := reduce_loop (delta c) (map delta (c :: cs))).
  exists (set_content
            match call_map st with
            | [] => result_msg st
            | _ :: _ => set_tool_calls (result_msg st) (map snd (call_map st))
            end
            (String.concat "" (msg_contents st))).
  split; [reflexivity |].
  destruct (loop_seed (map delta (c :: cs))
              {| result_msg := delta c; msg_contents := []; call_map := [] |})
    as (Hr & Hn & Hi & Ha & Ht).
  fold (reduce_loop (delta c) (map delta (c :: cs))) in Hr, Hn, Hi, Ha, Ht.
  fold st in Hr, Hn, Hi, Ha, Ht. cbn [result_msg] in Hr, Hn, Hi, Ha, Ht.
  assert (Hlast : tool_call_id (result_msg st)
                  = match find (fun d => truthy_str (tool_call_id d))
                               (rev (map delta (c :: cs))) with
                    | Some d => tool_call_id d
                    | None => tool_call_id (delta c)
                    end).
  { rewrite Ht. unfold last_tool_call_id.
    destruct (find (fun d => truthy_str (tool_call_id d)) (rev (map delta (c :: cs))))
      as [d |] eqn:Hf; [| reflexivity].
    apply find_some in Hf. destruct Hf as [_ Hf].
    destruct (tool_call_id d); [reflexivity | discriminate Hf]. }
  destruct (call_map st);
    cbn [set_content set_tool_calls role name id attachments tool_call_id];
    repeat split; assumption.
Qed.

Lemma spoken_concat (ds : list ChatAgentMessage) :
  String.concat "" (spoken ds) = String.concat "" (map content_str ds).
Proof.
  induction ds as [| d ds IH]; [reflexivity |].
  change (d :: ds) with ([d] ++ ds)%list at 1.
  rewrite spoken_app, concat_app, IH. cbn [map]. rewrite concat_cons. f_equal.
  unfold spoken, content_str. cbn [flat_map].
  destruct (content d) as [s |]; [| reflexivity].
  destruct s; reflexivity.
Qed.

(** X8: the content of the reduced message is never [None]: it is the
    concatenation, in arrival order, of the contents of all fragments, a
    fragment without content counting as the empty string.  Hence the
    content of the reduction of two fragment lists put end to end is the
    content of the first reduction followed by that of the second. *)
Theorem reduce_content_concatenates (c c' : ChatAgentChunk) (cs cs' : list ChatAgentChunk) :
  exists m1 m2 m,
    reduce_chat_agent_chunks (c :: cs) = inr m1
    /\ reduce_chat_agent_chunks (c' :: cs') = inr m2
    /\ reduce_chat_agent_chunks ((c :: cs) ++ c' :: cs') = inr m
    /\ content m1
       = Some (String.concat "" (map (fun ch => content_str (delta ch)) (c :: cs)))
    /\ content m = Some (content_str m1 ++ content_str m2).
Proof.
  destruct (reduce_shape c cs) as (m1 & H1 & C1 & _).
  destruct (reduce_shape c' cs') as (m2 & H2 & C2 & _).
  destruct (reduce_shape c (cs ++ c' :: cs')) as (m & H & C & _).
  exists m1, m2, m. rewrite <- app_comm_cons.
  repeat split; try assumption.
  - rewrite C1, spoken_concat, map_map. reflexivity.
  - unfold content_str. rewrite C, C1, C2.
    rewrite app_comm_cons, map_app, spoken_app, concat_app. reflexivity.
Qed.

Lemma NoDup_map_Some {A : Type} (l : list A) : NoDup l -> NoDup (map Some l).
Proof.
  induction 1 as [| x l Hx Hl IH]; cbn [map]; constructor; [| exact IH].
  intros H. apply in_map_iff in H. destruct H as (y & E & Hy).
  injection E as ->. contradiction.
Qed.

Lemma sighting_call_id (tc : ToolCall) :
  truthy_str (tc_id tc) = true -> tc_id tc = Some (call_id_of tc).
Proof.
  unfold call_id_of. destruct (tc_id tc); [reflexivity | discriminate].
Qed.

(** X9: as soon as one fragment carries a tool call with a non-empty
    call id, the tool calls of the reduced message are exactly one call per
    call id sighted: no two of them share an id, every one has a non-empty
    id, a type and a function record, and an id is among them if and only
    if some tool-call fragment carries it. *)
Theorem reduced_tool_calls_distinct
    (c ch : ChatAgentChunk) (cs : list ChatAgentChunk) (tc0 : ToolCall) :
  In ch (c :: cs) ->
  In tc0 (delta_tool_calls (delta ch)) ->
  truthy_str (tc_id tc0) = true ->
  exists m calls,
    reduce_chat_agent_chunks (c :: cs) = inr m
    /\ tool_calls m = Some calls
    /\ NoDup (map tc_id calls)
    /\ Forall (fun tc => truthy_str (tc_id tc) = true
                         /\ tc_type tc <> None
                         /\ tc_function tc <> None) calls
    /\ forall cid,
         In (Some cid) (map tc_id calls)
         <-> nonempty cid = true
             /\ exists ch' tc,
                  In ch' (c :: cs)
                  /\ In tc (delta_tool_calls (delta ch'))
                  /\ tc_id tc = Some cid.
Proof.
  intros Hch Htc0 Hid0.
  destruct (reduce_shape c cs) as (m & Hm & _ & Hcalls).
  set (S := sightings (map delta (c :: cs))) in *.
  assert (Hsight : forall tc,
             In tc S <->
             truthy_str (tc_id tc) = true
             /\ exists ch', In ch' (c :: cs) /\ In tc (delta_tool_calls (delta ch'))).
  { intros tc. unfold S, sightings. rewrite filter_In, in_flat_map. split.
    - intros [(d & Hd & Hin) Ht]. split; [exact Ht |].
      apply in_map_iff in Hd. destruct Hd as (ch' & <- & Hch'). eauto.
    - intros [Ht (ch' & Hch' & Hin)]. split; [| exact Ht].
      exists (delta ch'). split; [now apply in_map | exact Hin]. }
  assert (Hin0 : In tc0 S) by (apply Hsight; eauto).
  destruct S as [| s0 S0] eqn:HS; [contradiction |]. rewrite <- HS in *.
  exists m, (folded_calls S).
  assert (Hids : map tc_id (folded_calls S)
                 = map Some (first_seen String.eqb (map call_id_of S))).
  { unfold folded_calls. rewrite map_map. apply map_ext. intros cid.
    apply folded_call_id. }
  assert (Hseen : forall cid,
             In cid (first_seen String.eqb (map call_id_of S)) ->
             exists tc, In tc S /\ tc_id tc = Some cid /\ nonempty cid = true).
  { intros cid H. apply (proj1 (first_seen_In _ String.eqb_eq _ _)) in H.
    apply in_map_iff in H. destruct H as (tc & <- & Htc).
    exists tc. pose proof (proj1 (Hsight tc) Htc) as [Ht _].
    rewrite (sighting_call_id tc Ht) in Ht |- *. auto. }
  split; [exact Hm |]. split; [rewrite Hcalls, HS; reflexivity |].
  split; [rewrite Hids; apply NoDup_map_Some, (first_seen_NoDup _ String.eqb_eq) |].
  split.
  - unfold folded_calls. apply Forall_map, Forall_forall. intros cid Hcid.
    destruct (Hseen cid Hcid) as (tc & _ & _ & Hne).
    rewrite folded_call_id. cbn [truthy_str]. split; [exact Hne |].
    unfold folded_call. destruct (sightings_of cid S); split; discriminate.
  - intros cid. rewrite Hids. split.
    + intros H. apply in_map_iff in H. destruct H as (cid' & E & Hcid).
      injection E as ->.
      destruct (Hseen cid Hcid) as (tc & Htc & Hid & Hne). split; [exact Hne |].
      destruct (proj1 (Hsight tc) Htc) as [_ (ch' & Hch' & Hin)]. eauto.
    + intros [Hne (ch' & tc & Hch' & Hin & Hid)].
      apply in_map. apply (proj2 (first_seen_In _ String.eqb_eq _ _)).
      apply in_map_iff. exists tc. split.
      * unfold call_id_of. now rewrite Hid.
      * apply Hsight. split; [rewrite Hid; exact Hne | eauto].
Qed.

Lemma reduced_tool_calls_distinct_witness :
  exists m calls,
    reduce_chat_agent_chunks Examples.call_a_fragments = inr m
    /\ tool_calls m = Some calls
    /\ NoDup (map tc_id calls)
    /\ Forall (fun tc => truthy_str (tc_id tc) = true
                         /\ tc_type tc <> None
                         /\ tc_function tc <> None) calls
    /\ forall cid,
         In (Some cid) (map tc_id calls)
         <-> nonempty cid = true
             /\ exists ch' tc,
                  In ch' Examples.call_a_fragments
                  /\ In tc (delta_tool_calls (delta ch'))
                  /\ tc_id tc = Some cid.
Proof.
  apply (reduced_tool_calls_distinct
           (Examples.agent_chunk "m1" None
              (Some [Examples.call "a" "f" Examples.args_head]))
           (Examples.agent_chunk "m1" None
              (Some [Examples.call "a" "f" Examples.args_head]))
           [Examples.agent_chunk "m1" None (Some [Examples.call "a" "" "}"])]
           (Examples.call "a" "f" Examples.args_head)).
  - left. reflexivity.
  - left. reflexivity.
  - reflexivity.
Defined.

(** ** The chat streams *)

Lemma parse_lines_recognised (W : World) (lines : list string) (ending : option exn) :
  Forall (fun c => recognised c = true) (fst (parse_lines W lines ending)).
Proof.
  induction lines as [| line rest IH]; cbn [parse_lines]; [constructor |].
  destruct (nonempty line); [| exact IH].
  destruct (decode_utf8 W line) as [e | decoded]; [constructor |].
  destruct (blank (strip_data_prefix decoded)); [exact IH |].
  destruct (json_loads W (strip_data_prefix decoded)) as [chunk |]; [| exact IH].
  destruct (contains "choices" chunk) as [e | [|]] eqn:Hc; [constructor | |].
  - constructor; [unfold recognised; now rewrite Hc | exact IH].
  - destruct (contains "delta" chunk) as [e | [|]] eqn:Hd; [constructor | | exact IH].
    constructor; [unfold recognised; now rewrite Hc, Hd | exact IH].
Qed.

Lemma check_chunks_recognised (chunks : list json) (ending : option exn) :
  Forall (fun c => recognised c = true) (fst (check_chunks chunks ending)).
Proof.
  induction chunks as [| chunk rest IH]; cbn [check_chunks]; [constructor |].
  destruct (contains "choices" chunk) as [e | [|]] eqn:Hc; [constructor | |].
  - constructor; [unfold recognised; now rewrite Hc | exact IH].
  - destruct (contains "delta" chunk) as [e | [|]] eqn:Hd; [constructor | | constructor].
    constructor; [unfold recognised; now rewrite Hc, Hd | exact IH].
Qed.

Lemma recognised_shape (chunk : json) :
  recognised chunk = true ->
  (contains "choices" chunk = inr true \/ contains "delta" chunk = inr true)
  /\ match chunk with
     | JObj _ => has_key "choices" chunk = true \/ has_key "delta" chunk = true
     | JStr s => is_substring "choices" s = true \/ is_substring "delta" s = true
     | JArr xs => existsb (fun x => is_str x "choices") xs = true
                  \/ existsb (fun x => is_str x "delta") xs = true
     | JNull | JBool _ | JNum _ => False
     end.
Proof.
  unfold recognised, has_key.
  destruct chunk as [| b | n | s | xs | kvs]; cbn [contains raise ret];
    try discriminate.
  - destruct (is_substring "choices" s); [auto |].
    destruct (is_substring "delta" s); [auto | discriminate].
  - destruct (existsb (fun x => is_str x "choices") xs); [auto |].
    destruct (existsb (fun x => is_str x "delta") xs); [auto | discriminate].
  - destruct (lookup "choices" kvs); [auto |].
    destruct (lookup "delta" kvs); [auto | discriminate].
Qed.

(** X10: whatever the transport delivers and whichever credential is
    used, every chunk that [_query_chat_endpoint_stream] yields passed the
    membership test [["choices" in chunk or "delta" in chunk]].  A yielded
    dictionary therefore has a [choices] key or a [delta] key; a yielded
    string only contains one of the two words, and a yielded list only has
    one of them as an element; [null], a boolean or a number is never
    yielded. *)
Theorem chat_stream_yields_recognised_chunks (W : World) (endpoint_name : string)
    (messages : list json) (return_traces : bool) (user_token : option string) :
  Forall (fun chunk =>
            (contains "choices" chunk = inr true \/ contains "delta" chunk = inr true)
            /\ match chunk with
               | JObj _ => has_key "choices" chunk = true \/ has_key "delta" chunk = true
               | JStr s => is_substring "choices" s = true
                           \/ is_substring "delta" s = true
               | JArr xs => existsb (fun x => is_str x "choices") xs = true
                            \/ existsb (fun x => is_str x "delta") xs = true
               | JNull | JBool _ | JNum _ => False
               end)
         (fst (_query_chat_endpoint_stream W endpoint_name messages return_traces
                 user_token)).
Proof.
  assert (H : Forall (fun c => recognised c = true)
                (fst (_query_chat_endpoint_stream W endpoint_name messages return_traces
                        user_token))).
  { unfold _query_chat_endpoint_stream.
    destruct user_token as [t |]; [| apply check_chunks_recognised].
    destruct (nonempty t); [| apply check_chunks_recognised].
    destruct (_get_workspace_client_with_token W (Some t)) as [e | w]; [constructor |].
    destruct (requests_post W _ _ t) as [e | response]; [constructor |].
    destruct (raise_for_status response); [constructor |].
    apply parse_lines_recognised. }
  eapply Forall_impl; [| exact H].
  intros chunk Hr. now apply recognised_shape.
Qed.

Lemma check_chunks_all (chunks : list json) (ending : option exn) :
  Forall (fun c => recognised c = true) chunks ->
  check_chunks chunks ending = (chunks, ending).
Proof.
  induction 1 as [| chunk rest Hc Hrest IH]; cbn [check_chunks]; [reflexivity |].
  unfold recognised in Hc. rewrite IH.
  destruct (contains "choices" chunk) as [e | [|]]; [discriminate | reflexivity |].
  destruct (contains "delta" chunk) as [e | [|]]; [discriminate | reflexivity | discriminate].
Qed.

Lemma check_chunks_cut (pre post : list json) (bad : json) (ending : option exn) :
  Forall (fun c => recognised c = true) pre ->
  contains "choices" bad = inr false ->
  contains "delta" bad = inr false ->
  check_chunks (pre ++ bad :: post)%list ending = (pre, Some UnexpectedEndpointFormat).
Proof.
  intros Hpre Hc Hd.
  induction Hpre as [| chunk rest Hchunk Hrest IH]; cbn [app check_chunks].
  - now rewrite Hc, Hd.
  - unfold recognised in Hchunk. rewrite IH.
    destruct (contains "choices" chunk) as [e | [|]]; [discriminate | reflexivity |].
    destruct (contains "delta" chunk) as [e | [|]];
      [discriminate | reflexivity | discriminate].
Qed.

(** X11: with the service credential, the chat stream passes the chunks
    of the deployment client on unchanged, with the client's way of ending,
    as long as each has a [choices] or a [delta] key; at the first chunk
    that has neither it stops with the format error, after the chunks
    before it, and what the client would have delivered after it is never
    read. *)
Theorem service_stream_stops_at_unrecognised (W : World) (endpoint_name : string)
    (messages : list json) (return_traces : bool) :
  (forall chunks ending,
      predict_stream W endpoint_name
        (JObj ([("messages", JArr messages)] ++ return_trace_option return_traces)%list)
      = (chunks, ending) ->
      Forall (fun c => recognised c = true) chunks ->
      _query_chat_endpoint_stream W endpoint_name messages return_traces None
      = (chunks, ending))
  /\ (forall (pre : list json) bad post ending,
         predict_stream W endpoint_name
           (JObj ([("messages", JArr messages)] ++ return_trace_option return_traces)%list)
         = ((pre ++ bad :: post)%list, ending) ->
         Forall (fun c => recognised c = true) pre ->
         contains "choices" bad = inr false ->
         contains "delta" bad = inr false ->
         _query_chat_endpoint_stream W endpoint_name messages return_traces None
         = (pre, Some UnexpectedEndpointFormat)).
Proof.
  split.
  - intros chunks ending Hp Hall. unfold _query_chat_endpoint_stream.
    rewrite Hp. cbn [fst snd]. now apply check_chunks_all.
  - intros pre bad post ending Hp Hpre Hc Hd. unfold _query_chat_endpoint_stream.
    rewrite Hp. cbn [fst snd]. now apply check_chunks_cut.
Qed.

Lemma service_stream_stops_at_unrecognised_witness :
  _query_chat_endpoint_stream Examples.broken_stream_world "agent" Examples.hello false None
  = ([Examples.hel_chunk], Some (TransportError "connection reset"))
  /\ _query_chat_endpoint_stream
       (Examples.world None ([], None)
          ([Examples.hel_chunk; Examples.foo_bar; Examples.hel_chunk], None)
          (inl (TransportError "no reply")) [])
       "agent" Examples.hello false None
     = ([Examples.hel_chunk], Some UnexpectedEndpointFormat).
Proof.
  destruct (service_stream_stops_at_unrecognised Examples.broken_stream_world "agent"
              Examples.hello false) as [Hall _].
  destruct (service_stream_stops_at_unrecognised
              (Examples.world None ([], None)
                 ([Examples.hel_chunk; Examples.foo_bar; Examples.hel_chunk], None)
                 (inl (TransportError "no reply")) [])
              "agent" Examples.hello false) as [_ Hcut].
  split.
  - apply Hall; [reflexivity | repeat constructor].
  - apply (Hcut [Examples.hel_chunk] Examples.foo_bar [Examples.hel_chunk] None);
      [reflexivity | repeat constructor | reflexivity | reflexivity].
Defined.

Lemma parse_lines_outcomes (W : World) (lines : list string)
    (outcomes : list (option json)) (ending : option exn) :
  Forall2 (line_outcome W) lines outcomes ->
  parse_lines W lines ending = (filter recognised (somes outcomes), ending).
Proof.
  induction 1 as [| line o lines outcomes Ho Hrest IH]; cbn [parse_lines]; [reflexivity |].
  destruct o as [chunk |]; cbn [somes filter line_outcome] in *.
  - destruct Ho as (Hline & decoded & Hdec & Hblank & Hloads & kvs & ->).
    rewrite Hline, Hdec, Hblank, Hloads, IH. unfold recognised, yield.
    cbn [contains ret fst snd].
    destruct (lookup "choices" kvs); [reflexivity |].
    destruct (lookup "delta" kvs); reflexivity.
  - destruct Ho as [Hline | (decoded & Hdec & [Hblank | [Hblank Hloads]])].
    + now rewrite Hline.
    + destruct (nonempty line); [| exact IH]. now rewrite Hdec, Hblank.
    + destruct (nonempty line); [| exact IH]. now rewrite Hdec, Hblank, Hloads.
Qed.

(** X12: with a user token, when the request succeeds and every line of
    the response is empty, blank, rejected by [json.loads] or decodes to a
    dictionary, the chat stream is exactly the decoded dictionaries that
    have a [choices] or a [delta] key, in the order of their lines, and it
    ends the way the response ends: the other lines and the dictionaries
    with neither key are skipped without an error, with or without the
    ["data: "] prefix. *)
Theorem user_stream_filters_lines (W : World) (endpoint_name t : string)
    (messages : list json) (return_traces : bool) (w : WorkspaceClient)
    (response : Response) (lines : list string) (outcomes : list (option json))
    (ending : option exn) :
  nonempty t = true ->
  new_workspace_client W (UserToken t) = inr w ->
  requests_post W
    (rstrip_slash (config_host w) ++ "/serving-endpoints/" ++ endpoint_name ++ "/invocations")
    (JObj ([("messages", JArr messages)] ++ return_trace_option return_traces)%list) t
  = inr response ->
  raise_for_status response = None ->
  iter_lines response = (lines, ending) ->
  Forall2 (line_outcome W) lines outcomes ->
  _query_chat_endpoint_stream W endpoint_name messages return_traces (Some t)
  = (filter recognised (somes outcomes), ending).
Proof.
  intros Ht Hw Hpost Hstatus Hlines Hout.
  unfold _query_chat_endpoint_stream, _get_workspace_client_with_token, invocations_path.
  rewrite Ht, Hw, Hpost, Hstatus, Hlines. cbn [fst snd].
  now apply parse_lines_outcomes.
Qed.

Lemma user_stream_filters_lines_witness :
  _query_chat_endpoint_stream Sse.sse_world "agent" Examples.hello false (Some "token")
  = ([Examples.hel_chunk], None).
Proof.
  apply (user_stream_filters_lines Sse.sse_world "agent" "token" Examples.hello false
           {| client_auth := UserToken "token";
              config_host := "https://workspace.example/" |}
           Sse.sse_response Sse.lines
           [Some Examples.hel_chunk; None; None; None; Some Examples.foo_bar] None).
  - reflexivity.
  - reflexivity.
  - reflexivity.
  - reflexivity.
  - reflexivity.
  - constructor; [| constructor; [| constructor; [| constructor; [| constructor;
      [| constructor]]]]].
    + split; [reflexivity |]. eexists. split; [reflexivity |].
      split; [reflexivity |]. split; [reflexivity |]. eexists. reflexivity.
    + left. reflexivity.
    + right. eexists. split; [reflexivity |]. right. split; reflexivity.
    + right. eexists. split; [reflexivity |]. left. reflexivity.
    + split; [reflexivity |]. eexists. split; [reflexivity |].
      split; [reflexivity |]. split; [reflexivity |]. eexists. reflexivity.
Defined.

(** ** The request builder of the responses agent *)

Lemma convert_from_skip (W : World) (msg : json) (post pre : list json) :
  (forall k, convert_message W k msg = inr ([], k)) ->
  forall k, convert_from W k (pre ++ msg :: post) = convert_from W k (pre ++ post).
Proof.
  intros Hmsg. induction pre as [| x pre IH]; intros k; cbn [app convert_from].
  - rewrite Hmsg. cbn [bind fst snd].
    destruct (convert_from W k post); reflexivity.
  - destruct (convert_message W k x) as [e | r]; cbn [bind]; [reflexivity |].
    now rewrite IH.
Qed.

(** X13: a message whose role is none of ["user"], ["assistant"] and
    ["tool"] (a system prompt, say) is dropped by the request builder of
    the responses agent, without an error: the request is the one built
    from the other messages. *)
Theorem convert_drops_other_roles (W : World) (pre post : list json)
    (kvs : list (string * json)) (r : json) :
  lookup "role" kvs = Some r ->
  is_str r "user" = false ->
  is_str r "assistant" = false ->
  is_str r "tool" = false ->
  _convert_to_responses_format W (pre ++ JObj kvs :: post)
  = _convert_to_responses_format W (pre ++ post).
Proof.
  intros Hrole Hu Ha Ht. unfold _convert_to_responses_format.
  apply convert_from_skip. intros k.
  unfold convert_message, getitem. rewrite Hrole. cbn [bind ret].
  now rewrite Hu, Ha, Ht.
Qed.

Lemma convert_drops_other_roles_witness :
  _convert_to_responses_format Examples.plain_world
    ([Items.system_prompt] ++ Items.system_prompt :: Examples.hello)
  = inr Examples.hello.
Proof.
  etransitivity.
  - apply (convert_drops_other_roles Examples.plain_world [Items.system_prompt]
             Examples.hello
             [("role", JStr "system"); ("content", JStr "Be brief.")] (JStr "system"));
      reflexivity.
  - reflexivity.
Defined.

Lemma convert_from_fail (W : World) (msg : json) (post : list json) (e : exn) :
  (forall k, convert_message W k msg = inl e) ->
  forall pre k items,
    convert_from W k pre = inr items ->
    convert_from W k (pre ++ msg :: post) = inl e.
Proof.
  intros Hmsg. induction pre as [| x pre IH]; intros k items H; cbn [app convert_from].
  - now rewrite Hmsg.
  - cbn [convert_from] in H.
    destruct (convert_message W k x) as [e' | r]; cbn [bind] in H |- *; [discriminate H |].
    destruct (convert_from W (snd r) pre) as [e' | its] eqn:Hpre; cbn [bind] in H;
      [discriminate H |].
    now rewrite (IH _ _ Hpre).
Qed.

(** X14: the request builder reads [role] and [content] by subscript.
    After messages that convert, a message without a [role] makes the whole
    conversion raise [KeyError('role')], and a user message, a tool
    message or an assistant message without tool calls that lacks
    [content] makes it raise [KeyError('content')], whatever follows; an
    assistant message with tool calls may lack [content]. *)
Theorem convert_missing_keys (W : World) (pre post : list json) (items : list json)
    (kvs : list (string * json)) :
  _convert_to_responses_format W pre = inr items ->
  (lookup "role" kvs = None ->
   _convert_to_responses_format W (pre ++ JObj kvs :: post) = inl (KeyError "role"))
  /\ (forall r,
         lookup "role" kvs = Some r ->
         lookup "content" kvs = None ->
         is_str r "user" = true
         \/ is_str r "tool" = true
         \/ (is_str r "assistant" = true /\ lookup "tool_calls" kvs = None) ->
         _convert_to_responses_format W (pre ++ JObj kvs :: post)
         = inl (KeyError "content"))
  /\ (forall tcs fcs,
         lookup "role" kvs = Some (JStr "assistant") ->
         lookup "content" kvs = None ->
         lookup "tool_calls" kvs = Some (JArr tcs) ->
         tcs <> [] ->
         function_call_items tcs = inr fcs ->
         _convert_to_responses_format W [JObj kvs] = inr fcs).
Proof.
  intros Hpre. unfold _convert_to_responses_format in *. split; [| split].
  - intros Hrole. apply (convert_from_fail W _ post _) with (items := items); [| exact Hpre].
    intros k. unfold convert_message, getitem. now rewrite Hrole.
  - intros r Hrole Hcontent Hcase.
    apply (convert_from_fail W _ post _) with (items := items); [| exact Hpre].
    intros k. unfold convert_message, message_item, getitem, get.
    rewrite Hrole, Hcontent. cbn [bind ret].
    destruct r as [| | | s | |]; cbn [is_str] in Hcase |- *;
      try (destruct Hcase as [H | [H | [H _]]]; discriminate H).
    destruct Hcase as [H | [H | [H Hcalls]]].
    + now rewrite H.
    + destruct (String.eqb s "user"); [reflexivity |].
      destruct (String.eqb s "assistant") eqn:Ha.
      * apply String.eqb_eq in Ha. apply String.eqb_eq in H. congruence.
      * now rewrite H.
    + destruct (String.eqb s "user"); [reflexivity |].
      rewrite H, Hcalls. reflexivity.
  - intros tcs fcs Hrole Hcontent Hcalls Hne Hfcs.
    unfold convert_from, convert_message, getitem, get.
    rewrite Hrole, Hcalls, Hcontent. cbn [bind ret is_str String.eqb Ascii.eqb Bool.eqb].
    destruct tcs as [| tc tcs]; [contradiction |]. cbn [truthy iter ret bind].
    rewrite Hfcs. cbn. now rewrite app_nil_r.
Qed.

Lemma convert_missing_keys_witness :
  _convert_to_responses_format Examples.plain_world
    (Examples.hello ++ JObj [("content", JStr "hi")] :: Examples.hello)
  = inl (KeyError "role")
  /\ _convert_to_responses_format Examples.plain_world
       (Examples.hello ++ JObj [("role", JStr "user")] :: Examples.hello)
     = inl (KeyError "content")
  /\ _convert_to_responses_format Examples.plain_world
       [JObj [("role", JStr "assistant"); ("tool_calls", JArr [Examples.lookup_call])]]
     = inr [Examples.searching_call_item].
Proof.
  split; [| split].
  - apply (convert_missing_keys Examples.plain_world Examples.hello Examples.hello
             Examples.hello [("content", JStr "hi")] eq_refl).
    reflexivity.
  - apply (convert_missing_keys Examples.plain_world Examples.hello Examples.hello
             Examples.hello [("role", JStr "user")] eq_refl) with (r := JStr "user");
      [reflexivity | reflexivity | left; reflexivity].
  - apply (convert_missing_keys Examples.plain_world [] [] []
             [("role", JStr "assistant"); ("tool_calls", JArr [Examples.lookup_call])]
             eq_refl) with (tcs := [Examples.lookup_call]);
      [reflexivity | reflexivity | reflexivity | discriminate | reflexivity].
Defined.

Lemma function_call_items_of (tcs items : list json) :
  Forall2 call_item_of tcs items -> function_call_items tcs = inr items.
Proof.
  induction 1 as [| tc it tcs items Hit Hrest IH]; [reflexivity |].
  cbn [function_call_items]. rewrite IH.
  destruct Hit as (tkvs & fkvs & i & n & a & -> & Hi & Hf & Hn & Ha & ->).
  unfold function_call_item, getitem. rewrite Hi, Hf. cbn [bind ret].
  rewrite Hn, Ha. reflexivity.
Qed.

(** X15: an assistant message with a list of well-formed tool calls, of
    any length.  With one or more tool calls it maps to one
    [function_call] item per tool call, in the order of the tool calls,
    each with the call's id (as [id] and as [call_id]), name and
    arguments, followed by one [message] item when, and only when, the
    message has a content that is not empty.  With an empty list of tool
    calls it is treated as a message without tool calls: it maps to one
    [message] item whatever its content, the empty content included, and
    without a [content] key the builder raises [KeyError('content')].  The
    [message] item keeps the id of the message, or gets a fresh uuid. *)
Theorem convert_tool_calls_in_order (W : World) (kvs : list (string * json))
    (tcs items : list json) :
  lookup "role" kvs = Some (JStr "assistant") ->
  lookup "tool_calls" kvs = Some (JArr tcs) ->
  Forall2 call_item_of tcs items ->
  length items = length tcs
  /\ _convert_to_responses_format W [JObj kvs]
     = match tcs, lookup "content" kvs with
       | _ :: _, Some c =>
           inr (items ++ if truthy c then [assistant_item W kvs c] else [])%list
       | _ :: _, None => inr items
       | [], Some c => inr [assistant_item W kvs c]
       | [], None => inl (KeyError "content")
       end.
Proof.
  intros Hrole Hcalls Hitems.
  split; [symmetry; exact (Forall2_length Hitems) |].
  unfold _convert_to_responses_format, convert_from, convert_message, message_item,
    assistant_item, getitem, get.
  rewrite Hrole, Hcalls. cbn [bind ret is_str String.eqb Ascii.eqb Bool.eqb].
  destruct tcs as [| tc tcs']; cbn [truthy iter ret bind].
  - destruct (lookup "content" kvs) as [c |]; reflexivity.
  - rewrite (function_call_items_of _ _ Hitems). cbn [bind ret].
    destruct (lookup "content" kvs) as [c |]; cbn [truthy bind ret fst snd];
      [| now rewrite !app_nil_r].
    destruct (truthy c); cbn [bind ret fst snd]; now rewrite !app_nil_r.
Qed.

Lemma convert_tool_calls_in_order_witness :
  _convert_to_responses_format Examples.plain_world [Items.two_calls]
  = inr [Examples.searching_call_item;
         JObj [("type", JStr "function_call"); ("id", JStr "call_2");
               ("call_id", JStr "call_2"); ("name", JStr "fetch");
               ("arguments", JStr "{}")]]
  /\ _convert_to_responses_format Examples.plain_world [no_calls_no_text]
     = inr [JObj [("type", JStr "message"); ("id", JStr (uuid4 Examples.plain_world 0));
                  ("content", JArr [JObj [("type", JStr "output_text");
                                          ("text", JStr "")]]);
                  ("role", JStr "assistant")]].
Proof.
  split.
  - apply (convert_tool_calls_in_order Examples.plain_world
             [("role", JStr "assistant"); ("content", JStr "");
              ("tool_calls",
               JArr [Examples.lookup_call;
                     JObj [("id", JStr "call_2"); ("type", JStr "function");
                           ("function", JObj [("name", JStr "fetch");
                                              ("arguments", JStr "{}")])]])]
             [Examples.lookup_call;
              JObj [("id", JStr "call_2"); ("type", JStr "function");
                    ("function", JObj [("name", JStr "fetch");
                                       ("arguments", JStr "{}")])]]
             [Examples.searching_call_item;
              JObj [("type", JStr "function_call"); ("id", JStr "call_2");
                    ("call_id", JStr "call_2"); ("name", JStr "fetch");
                    ("arguments", JStr "{}")]]);
      [reflexivity | reflexivity |].
    constructor; [| constructor; [| constructor]];
      do 5 eexists; repeat split; reflexivity.
  - apply (convert_tool_calls_in_order Examples.plain_world
             [("role", JStr "assistant"); ("content", JStr ""); ("tool_calls", JArr [])]
             [] []);
      [reflexivity | reflexivity | constructor].
Defined.

(** ** What the responses parsers return can be sent back *)

Lemma item_messages_shape (item : json) (ms : list json) :
  item_messages item = inr ms -> Forall reply_shape ms.
Proof.
  unfold item_messages. intros H.
  destruct (get item "type" JNull) as [e | ty]; cbn [bind] in H; [discriminate H |].
  destruct (is_str ty "message").
  { repeat bind_inv H.
    destruct (nonempty _); injection H as <-; [| constructor].
    constructor; [| constructor]. left. eexists. reflexivity. }
  destruct (is_str ty "function_call").
  { repeat bind_inv H. injection H as <-. constructor; [| constructor].
    right. left. do 3 eexists. reflexivity. }
  destruct (is_str ty "function_call_output").
  { repeat bind_inv H. injection H as <-. constructor; [| constructor].
    right. right. do 2 eexists. reflexivity. }
  injection H as <-. constructor.
Qed.

Lemma output_messages_shape (items ms : list json) :
  output_messages items = inr ms -> Forall reply_shape ms.
Proof.
  revert ms. induction items as [| item rest IH]; intros ms H; cbn [output_messages] in H.
  - injection H as <-. constructor.
  - destruct (item_messages item) as [e | ms1] eqn:H1; cbn [bind] in H; [discriminate H |].
    destruct (output_messages rest) as [e | ms2]; cbn [bind] in H; [discriminate H |].
    injection H as <-. apply Forall_app.
    split; [now apply (item_messages_shape item) | now apply IH].
Qed.

Lemma streamed_text_messages_shape (parts ms : list json) :
  streamed_text_messages parts = inr ms -> Forall reply_shape ms.
Proof.
  revert ms. induction parts as [| part rest IH]; intros ms H;
    cbn [streamed_text_messages] in H.
  - injection H as <-. constructor.
  - destruct (get part "type" JNull) as [e | ty]; cbn [bind] in H; [discriminate H |].
    destruct (is_str ty "output_text"); [| now apply IH].
    destruct (get part "text" (JStr "")) as [e | text]; cbn [bind] in H; [discriminate H |].
    destruct (streamed_text_messages rest) as [e | ms'] ; cbn [bind] in H;
      [discriminate H |].
    injection H as <-. specialize (IH ms' eq_refl).
    destruct (truthy text); [| exact IH].
    constructor; [| exact IH]. left. eexists. reflexivity.
Qed.

Lemma event_messages_shape (W : World) (raw_event : json) (ms : list json) :
  event_messages W raw_event = inr ms -> Forall reply_shape ms.
Proof.
  unfold event_messages. intros H.
  destruct (contains "type" raw_event) as [e | [|]]; cbn [bind] in H;
    [discriminate H | | injection H as <-; constructor].
  destruct (ResponsesAgentStreamEvent_model_validate W raw_event) as [e | [item |]];
    cbn [bind] in H; [discriminate H | | injection H as <-; constructor].
  destruct (truthy item); [| injection H as <-; constructor].
  unfold streamed_item_messages in H.
  destruct (get item "type" JNull) as [e | ty]; cbn [bind] in H; [discriminate H |].
  destruct (is_str ty "message").
  { repeat bind_inv H. now apply streamed_text_messages_shape in H. }
  destruct (is_str ty "function_call").
  { repeat bind_inv H. injection H as <-. constructor; [| constructor].
    right. left. do 3 eexists. reflexivity. }
  destruct (is_str ty "function_call_output").
  { repeat bind_inv H. injection H as <-. constructor; [| constructor].
    right. right. do 2 eexists. reflexivity. }
  injection H as <-. constructor.
Qed.

Lemma convert_reply (W : World) (m : json) :
  reply_shape m -> forall k, exists it k', convert_message W k m = inr ([it], k').
Proof.
  intros [(c & ->) | [(i & n & a & ->) | (c & cid & ->)]] k; cbn; eauto.
Qed.

Lemma convert_replies (W : World) (ms : list json) :
  Forall reply_shape ms ->
  forall k, exists items, convert_from W k ms = inr items /\ length items = length ms.
Proof.
  induction 1 as [| m ms Hm Hms IH]; intros k; cbn [convert_from].
  - exists []. split; reflexivity.
  - destruct (convert_reply W m Hm k) as (it & k' & E). rewrite E. cbn [bind fst snd].
    destruct (IH k') as (items & Hitems & Hlen). rewrite Hitems. cbn [bind ret].
    exists (it :: items). split; [reflexivity | cbn [length]; now rewrite Hlen].
Qed.

(** X16: what the responses parsers return can always be sent back.  The
    messages returned by the non-streaming responses query, and the
    messages that the streaming loop builds from an event, are accepted by
    the request builder of the next turn: it raises no [KeyError] on them
    and builds exactly one item per message. *)
Theorem parsed_replies_convert (W : World) :
  (forall endpoint_name messages return_traces user_token msgs rid,
      Serving._query_responses_endpoint W endpoint_name messages return_traces user_token
      = inr (msgs, rid) ->
      exists items,
        _convert_to_responses_format W msgs = inr items
        /\ length items = length msgs)
  /\ (forall raw_event msgs,
         event_messages W raw_event = inr msgs ->
         exists items,
           _convert_to_responses_format W msgs = inr items
           /\ length items = length msgs).
Proof.
  split.
  - intros endpoint_name messages return_traces user_token msgs rid H.
    unfold Serving._query_responses_endpoint in H. bind_inv H. bind_inv H.
    destruct (parse_responses_output_inv _ _ H) as (items & produced & _ & _ & Hout & Hr).
    cbn [fst] in Hr. apply convert_replies. subst msgs.
    destruct produced as [| p ps]; [| now apply (output_messages_shape items)].
    constructor; [| constructor]. left. eexists. reflexivity.
  - intros raw_event msgs H. apply convert_replies.
    now apply (event_messages_shape W raw_event).
Qed.

Lemma parsed_replies_convert_witness :
  exists items,
    _convert_to_responses_format Examples.two_part_world
      [text_reply (JStr "Hello, world")] = inr items
    /\ length items = 1.
Proof.
  destruct (parsed_replies_convert Examples.two_part_world) as [Hparsed _].
  apply (Hparsed "agent" Examples.hello false None
           [text_reply (JStr "Hello, world")] JNull).
  reflexivity.
Defined.

(** ** Replies of the non-streaming chat query *)

Lemma text_parts_outcomes (parts : list json) (outcomes : list (option string)) :
  Forall2 part_outcome parts outcomes ->
  text_parts parts = inr (map JStr (somes outcomes)).
Proof.
  induction 1 as [| part o parts outcomes (pkvs & -> & Ho) Hrest IH]; [reflexivity |].
  cbn [text_parts get bind ret]. rewrite IH.
  destruct o as [s |]; cbn [somes map].
  - destruct Ho as [Hty Htext]. rewrite Hty, Htext. reflexivity.
  - destruct (lookup "type" pkvs); now rewrite Ho.
Qed.

Lemma join_strings (l : list string) : join (map JStr l) = inr (String.concat "" l).
Proof.
  induction l as [| s l IH]; [reflexivity |].
  cbn [map join]. rewrite IH. cbn [bind ret]. now rewrite concat_cons.
Qed.

(** X17: what the non-streaming chat query makes of a reply dictionary.
    A [messages] key wins over [choices] and its value is returned as it
    is.  Otherwise the message of the first choice decides: with a string
    content it is returned whole, tool calls included; with a list content
    only its role and the concatenated texts of the parts of type ["text"]
    are returned, the other parts and the other fields of the message are
    dropped; with any other content, [null] included, and when the reply
    has neither key, the query raises the format error; with an empty list
    of choices it raises [IndexError]. *)
Theorem chat_reply_shapes (W : World) (endpoint_name : string) (messages : list json)
    (return_traces : bool) (user_token : option string)
    (kvs : list (string * json)) (rid : json) :
  invoke W endpoint_name
    (JObj ([("messages", JArr messages)] ++ return_trace_option return_traces)%list)
    user_token = inr (JObj kvs) ->
  databricks_request_id (JObj kvs) = inr rid ->
  (forall m, lookup "messages" kvs = Some m ->
             _query_chat_endpoint W endpoint_name messages return_traces user_token
             = inr (m, rid))
  /\ (lookup "messages" kvs = None -> lookup "choices" kvs = None ->
      _query_chat_endpoint W endpoint_name messages return_traces user_token
      = inl UnexpectedEndpointFormat)
  /\ (lookup "messages" kvs = None -> lookup "choices" kvs = Some (JArr []) ->
      _query_chat_endpoint W endpoint_name messages return_traces user_token
      = inl IndexError)
  /\ (forall ckvs mkvs rest,
         lookup "messages" kvs = None ->
         lookup "choices" kvs = Some (JArr (JObj ckvs :: rest)) ->
         lookup "message" ckvs = Some (JObj mkvs) ->
         match lookup "content" mkvs with
         | Some (JStr s) =>
             _query_chat_endpoint W endpoint_name messages return_traces user_token
             = inr (JArr [JObj mkvs], rid)
         | Some (JArr parts) =>
             forall outcomes,
               Forall2 part_outcome parts outcomes ->
               _query_chat_endpoint W endpoint_name messages return_traces user_token
               = inr (JArr [JObj [("role", match lookup "role" mkvs with
                                           | Some r => r
                                           | None => JNull
                                           end);
                                  ("content", JStr (String.concat "" (somes outcomes)))]],
                      rid)
         | _ =>
             _query_chat_endpoint W endpoint_name messages return_traces user_token
             = inl UnexpectedEndpointFormat
         end).
Proof.
  intros Hinv Hrid.
  assert (Hrun : _query_chat_endpoint W endpoint_name messages return_traces user_token
                 = (has_messages <- contains "messages" (JObj kvs) ;;
                    if has_messages : bool then
                      m <- getitem (JObj kvs) "messages" ;; ret (m, rid)
                    else
                      has_choices <- contains "choices" (JObj kvs) ;;
                      if has_choices : bool then
                        choices <- getitem (JObj kvs) "choices" ;;
                        choice <- getitem0 choices ;;
                        choice_message <- getitem choice "message" ;;
                        choice_content <- get choice_message "content" JNull ;;
                        match choice_content with
                        | JArr parts =>
                            texts <- text_parts parts ;;
                            combined_content <- join texts ;;
                            r <- get choice_message "role" JNull ;;
                            ret (JArr [JObj [("role", r);
                                             ("content", JStr combined_content)]], rid)
                        | JStr _ => ret (JArr [choice_message], rid)
                        | _ => _throw_unexpected_endpoint_format
                        end
                      else _throw_unexpected_endpoint_format)).
  { unfold _query_chat_endpoint. rewrite Hinv. cbn [bind]. rewrite Hrid. reflexivity. }
  rewrite Hrun. clear Hrun. cbn [contains getitem bind ret].
  split; [| split; [| split]].
  - intros m Hm. now rewrite Hm.
  - intros Hm Hc. now rewrite Hm, Hc.
  - intros Hm Hc. now rewrite Hm, Hc.
  - intros ckvs mkvs rest Hm Hc Hmsg. rewrite Hm, Hc. cbn [getitem0 getitem bind ret].
    rewrite Hmsg. cbn [get bind ret].
    destruct (lookup "content" mkvs) as [[| | | s | parts |] |]; try reflexivity.
    intros outcomes Hparts.
    rewrite (text_parts_outcomes _ _ Hparts). cbn [bind].
    rewrite join_strings. reflexivity.
Qed.

Lemma chat_reply_shapes_witness :
  _query_chat_endpoint Replies.structured_world "agent" Examples.hello false None
  = inr (JArr [text_reply (JStr "Hello")], JNull)
  /\ _query_chat_endpoint Replies.call_only_world "agent" Examples.hello false None
     = inl UnexpectedEndpointFormat.
Proof.
  split.
  - destruct (chat_reply_shapes Replies.structured_world "agent" Examples.hello false None
                [("choices",
                  JArr [JObj [("message",
                      JObj [("role", JStr "assistant");
                            ("content",
                             JArr [JObj [("type", JStr "reasoning");
                                         ("summary", JArr [])];
                                   JObj [("type", JStr "text"); ("text", JStr "Hel")];
                                   JObj [("type", JStr "text"); ("text", JStr "lo")]]);
                            ("tool_calls", JArr [Examples.lookup_call])])]])]
                JNull eq_refl eq_refl) as (_ & _ & _ & H).
    apply (H _ _ [] eq_refl eq_refl eq_refl [None; Some "Hel"; Some "lo"]).
    constructor; [| constructor; [| constructor; [| constructor]]];
      eexists; (split; [reflexivity |]); cbn; auto.
  - destruct (chat_reply_shapes Replies.call_only_world "agent" Examples.hello false None
                [("choices",
                  JArr [JObj [("message",
                      JObj [("role", JStr "assistant"); ("content", JNull);
                            ("tool_calls", JArr [Examples.lookup_call])])]])]
                JNull eq_refl eq_refl) as (_ & _ & _ & H).
    apply (H _ _ [] eq_refl eq_refl eq_refl).
Defined.

(** ** Rendering and re-sending what the parsers return *)

Lemma render_text_reply (s : string) :
  nonempty s = true ->
  render_message (text_reply (JStr s)) = ([Markdown (JStr s)], inr tt).
Proof.
  intros Hs. unfold render_message, text_reply, ui_bind, ui_lift, draw, ui_ret. cbn.
  rewrite Hs. reflexivity.
Qed.

Lemma render_call_reply (i n a : json) :
  render_message (call_reply i n a) = ([CallNotice n a], inr tt).
Proof. reflexivity. Qed.

Lemma render_tool_reply (c cid : json) :
  render_message (tool_reply c cid) = ([ToolResponseTitle; Code c], inr tt).
Proof. reflexivity. Qed.

Lemma item_messages_visible (item : json) (ms : list json) :
  item_messages item = inr ms ->
  Forall (fun m => exists ops, render_message m = (ops, inr tt) /\ ops <> []) ms.
Proof.
  unfold item_messages. intros H.
  destruct (get item "type" JNull) as [e | ty]; cbn [bind] in H; [discriminate H |].
  destruct (is_str ty "message").
  { repeat bind_inv H.
    destruct (nonempty s) eqn:Hs; injection H as <-; [| constructor].
    constructor; [| constructor].
    exists [Markdown (JStr s)]. split; [now apply render_text_reply | discriminate]. }
  destruct (is_str ty "function_call").
  { repeat bind_inv H. injection H as <-. constructor; [| constructor].
    eexists. split; [apply render_call_reply | discriminate]. }
  destruct (is_str ty "function_call_output").
  { repeat bind_inv H. injection H as <-. constructor; [| constructor].
    eexists. split; [apply render_tool_reply | discriminate]. }
  injection H as <-. constructor.
Qed.

Lemma output_messages_visible (items ms : list json) :
  output_messages items = inr ms ->
  Forall (fun m => exists ops, render_message m = (ops, inr tt) /\ ops <> []) ms.
Proof.
  revert ms. induction items as [| item rest IH]; intros ms H; cbn [output_messages] in H.
  - injection H as <-. constructor.
  - destruct (item_messages item) as [e | ms1] eqn:H1; cbn [bind] in H; [discriminate H |].
    destruct (output_messages rest) as [e | ms2]; cbn [bind] in H; [discriminate H |].
    injection H as <-. apply Forall_app.
    split; [now apply (item_messages_visible item) | now apply IH].
Qed.

Lemma render_each_visible (ms : list json) :
  Forall (fun m => exists ops, render_message m = (ops, inr tt) /\ ops <> []) ms ->
  exists ops, render_each ms = (ops, inr tt) /\ (ms <> [] -> ops <> []).
Proof.
  induction 1 as [| m ms (ops1 & Hm & Hne) Hms (ops2 & Hrest & _)]; cbn [render_each].
  - exists []. split; [reflexivity | intros H; contradiction].
  - unfold ui_bind. rewrite Hm, Hrest. cbn [fst snd].
    exists (ops1 ++ ops2)%list. split; [reflexivity |].
    intros _ E. apply app_eq_nil in E. destruct E as [E _]. contradiction.
Qed.

(** X18: the messages returned by the non-streaming responses query can
    always be drawn: [render_message] raises on none of them, and the
    assistant's area is never left empty, since the list is not empty and
    every message draws something (its text, the notice of its tool call,
    or the tool response). *)
Theorem parsed_replies_render (W : World) (endpoint_name : string)
    (messages : list json) (return_traces : bool) (user_token : option string)
    (msgs : list json) (rid : json) :
  Serving._query_responses_endpoint W endpoint_name messages return_traces user_token
  = inr (msgs, rid) ->
  exists ops,
    render_streaming_messages (JArr msgs) = (ops, inr tt) /\ ops <> [].
Proof.
  intros H. unfold Serving._query_responses_endpoint in H. bind_inv H. bind_inv H.
  destruct (parse_responses_output_inv _ _ H) as (items & produced & _ & _ & Hout & Hr).
  cbn [fst] in Hr.
  assert (Hvis : Forall (fun m => exists ops, render_message m = (ops, inr tt)
                                               /\ ops <> []) msgs).
  { subst msgs. destruct produced as [| p ps];
      [| now apply (output_messages_visible items)].
    constructor; [| constructor].
    eexists. split; [apply (render_text_reply "No response found"); reflexivity |].
    discriminate. }
  destruct (render_each_visible msgs Hvis) as (ops & Hops & Hne).
  exists ops. unfold render_streaming_messages, ui_bind, ui_lift. cbn [iter ret fst snd app].
  rewrite Hops. split; [reflexivity |]. apply Hne.
  subst msgs. destruct produced; unfold no_response_found; discriminate.
Qed.

Lemma parsed_replies_render_witness :
  exists ops,
    render_streaming_messages (JArr [text_reply (JStr "Hello, world")]) = (ops, inr tt)
    /\ ops <> [].
Proof.
  apply (parsed_replies_render Examples.two_part_world "agent" Examples.hello false None
           [text_reply (JStr "Hello, world")] JNull).
  reflexivity.
Defined.

Lemma convert_sendable (W : World) (ms : list json) :
  Forall (fun m => reply_shape m
                   \/ exists c, m = JObj [("role", JStr "user"); ("content", c)]) ms ->
  forall k, exists items, convert_from W k ms = inr items /\ length items = length ms.
Proof.
  induction 1 as [| m ms Hm Hms IH]; intros k; cbn [convert_from].
  - exists []. split; reflexivity.
  - assert (E : exists it k', convert_message W k m = inr ([it], k')).
    { destruct Hm as [Hm | (c & ->)]; [now apply convert_reply | cbn; eauto]. }
    destruct E as (it & k' & E). rewrite E. cbn [bind fst snd].
    destruct (IH k') as (items & Hitems & Hlen). rewrite Hitems. cbn [bind ret].
    exists (it :: items). split; [reflexivity | cbn [length]; now rewrite Hlen].
Qed.

(** X19: a conversation can always go on.  When every assistant response
    of the history was returned by the non-streaming responses query, the
    flattening of the history into input messages returns, and the request
    builder of the responses agent accepts the result: it raises no
    [KeyError] and builds exactly one item per input message. *)
Theorem history_can_be_sent (W : World) (history : list HistoryElement) :
  Forall (fun elem =>
            match elem with
            | UserMessage _ => True
            | AssistantReply r =>
                exists endpoint_name msgs return_traces token ms,
                  Serving._query_responses_endpoint W endpoint_name msgs return_traces token
                  = inr (ms, request_id r)
                  /\ messages r = JArr ms
            end) history ->
  exists input items,
    history_input_messages history = inr input
    /\ _convert_to_responses_format W input = inr items
    /\ length items = length input.
Proof.
  intros Hh.
  assert (Hflat : exists input,
             history_input_messages history = inr input
             /\ Forall (fun m => reply_shape m
                                 \/ exists c, m = JObj [("role", JStr "user");
                                                        ("content", c)]) input).
  { induction Hh as [| elem rest Helem Hrest (input & Hin & Hsh)];
      cbn [history_input_messages].
    - exists []. split; [reflexivity | constructor].
    - rewrite Hin. destruct elem as [c | r]; cbn [to_input_messages iter bind ret].
      + eexists. split; [reflexivity |]. constructor; [right; eauto | exact Hsh].
      + destruct Helem as (ep & msgs & rt & tok & ms & Hq & Hms). rewrite Hms.
        cbn [iter bind ret]. eexists. split; [reflexivity |].
        apply Forall_app. split; [| exact Hsh].
        unfold Serving._query_responses_endpoint in Hq. bind_inv Hq. bind_inv Hq.
        destruct (parse_responses_output_inv _ _ Hq)
          as (items & produced & _ & _ & Hout & Hr).
        cbn [fst] in Hr. subst ms.
        eapply Forall_impl; [intros m Hm; left; exact Hm |].
        destruct produced as [| p ps]; [| now apply (output_messages_shape items)].
        constructor; [| constructor]. left. eexists. reflexivity. }
  destruct Hflat as (input & Hin & Hsh).
  destruct (convert_sendable W input Hsh 0) as (items & Hitems & Hlen).
  exists input, items. repeat split; assumption.
Qed.

Lemma history_can_be_sent_witness :
  exists input items,
    history_input_messages
      [UserMessage "hi";
       AssistantReply {| messages := JArr [text_reply (JStr "Hello, world")];
                         request_id := JNull;
                         user_token := None |};
       UserMessage "and then?"] = inr input
    /\ _convert_to_responses_format Examples.two_part_world input = inr items
    /\ length items = length input.
Proof.
  apply history_can_be_sent.
  constructor; [exact I | constructor; [| constructor; [exact I | constructor]]].
  exists "agent", Examples.hello, false, None, [text_reply (JStr "Hello, world")].
  split; reflexivity.
Defined.

(** ** The last phase of a turn that returns *)

Lemma chunk_not_complete (l : list event) :
  Forall is_chunk_event l ->
  Forall (fun ev => match ev with Render Complete _ => False | _ => True end) l.
Proof.
  apply Forall_impl. intros [[| | |] data | |]; cbn; auto.
Qed.

Lemma shaped_turn_ends_with_complete (W : World) (self : ChatService)
    (input_messages : list json) (user_token token : option string)
    (q : io AssistantResponse) (response : AssistantResponse) :
  (exists chunk_events,
      Forall is_chunk_event chunk_events
      /\ ((exists r, q = normal_run self input_messages true user_token chunk_events r)
          \/ (exists e, q = fallback_run W self input_messages true user_token token
                              chunk_events e))) ->
  snd q = inr response ->
  exists before,
    fst q = (before ++ [Render Complete (messages response)])%list
    /\ Forall (fun ev => match ev with Render Complete _ => False | _ => True end) before.
Proof.
  intros (chunk_events & Hchunks & [(r & ->) | (e & ->)]) Hret.
  - unfold normal_run in *. cbn [fst snd notify emit app] in *. injection Hret as ->.
    exists (Render Start JNull
            :: StreamCall (endpoint_name self) input_messages (supports_feedback self)
                 user_token :: chunk_events).
    split; [reflexivity |].
    constructor; [exact I | constructor; [exact I | now apply chunk_not_complete]].
  - unfold fallback_run in *. cbn [fst snd notify emit app] in *.
    destruct (query_endpoint W (endpoint_name self) input_messages
                (supports_feedback self) token) as [e2 | reply]; [discriminate Hret |].
    injection Hret as <-. cbn [messages].
    exists (Render Start JNull
            :: StreamCall (endpoint_name self) input_messages (supports_feedback self)
                 user_token
            :: chunk_events
            ++ [Render Error (JStr (str_of_exn e));
                QueryCall (endpoint_name self) input_messages (supports_feedback self)
                  token])%list.
    split.
    + cbn [app]. rewrite <- app_assoc. reflexivity.
    + constructor; [exact I | constructor; [exact I |]].
      apply Forall_app. split; [now apply chunk_not_complete |].
      constructor; [exact I | constructor; [exact I | constructor]].
Qed.

(** X20: when a turn returns a response, the last phase that the sink
    received is [complete], it carries exactly the messages of the
    returned response, and no [complete] phase came before it: what is
    drawn last is what goes into the history, whether the stream or the
    fallback produced it. *)
Theorem complete_shows_returned_messages (W : World) (self : ChatService)
    (task_type : string) (input_messages : list json) (user_token : option string)
    (response : AssistantResponse) :
  snd (query_and_process W self task_type input_messages true user_token) = inr response ->
  exists before,
    fst (query_and_process W self task_type input_messages true user_token)
    = (before ++ [Render Complete (messages response)])%list
    /\ Forall (fun ev => match ev with Render Complete _ => False | _ => True end) before.
Proof.
  unfold query_and_process.
  destruct (String.eqb task_type "agent/v1/responses");
    [| destruct (String.eqb task_type "agent/v2/chat")].
  - apply (shaped_turn_ends_with_complete W self input_messages user_token user_token).
    apply responses_turn_shape.
  - apply (shaped_turn_ends_with_complete W self input_messages user_token user_token).
    apply agent_turn_shape.
  - apply (shaped_turn_ends_with_complete W self input_messages user_token None).
    apply completions_turn_shape.
Qed.

Lemma complete_shows_returned_messages_witness :
  exists before,
    fst (query_and_process Examples.broken_stream_world Examples.service "chat/completions"
           Examples.hello true (Some "token"))
    = (before ++ [Render Complete (JArr [Examples.assistant_says "Hello"])])%list
    /\ Forall (fun ev => match ev with Render Complete _ => False | _ => True end) before.
Proof.
  apply (complete_shows_returned_messages Examples.broken_stream_world Examples.service
           "chat/completions" Examples.hello (Some "token")
           {| messages := JArr [Examples.assistant_says "Hello"];
              request_id := JNull;
              user_token := None |}).
  reflexivity.
Defined.
